(** * EchoBot knowledge base and embedding adapter: a shallow embedding

    The development follows the backend sources:
    - the schema (convex/schema.ts): the [knowledgeBase] table, its
      indexes and its vector index;
    - the knowledge-base functions: getAll, getOne, create, update and
      remove;
    - the embedding adapters of convex/system/ai/rag.ts;
    and the design document for the vector index and the retrieval
    engine, which the sources only call.

    JavaScript strings are sequences of UTF-16 code units; the handlers
    run as transactions over the database, modelled by explicit state
    passing with exceptions. *)

From Stdlib Require Import ZArith NArith List Lia Permutation PrimFloat.
From Stdlib Require Import Sorting.Sorted Strings.String Strings.Ascii.
From stdpp Require Import gmap strings list.

Set Warnings "-register-all".
Set Default Proof Using "Type".

(** ** JavaScript strings *)

Module JsString.

(** A string is its sequence of UTF-16 code units. *)
Definition code_unit := N.
Definition jsstring := list code_unit.

(** Code units removed by [String.prototype.trim]: WhiteSpace (TAB, VT,
    FF, ZWNBSP and the Zs category) and LineTerminator (LF, CR, LS, PS). *)
Definition is_white_space (c : code_unit) : bool :=
  ((c =? 0x0009) || (c =? 0x000A) || (c =? 0x000B) || (c =? 0x000C)
   || (c =? 0x000D) || (c =? 0x0020) || (c =? 0x00A0) || (c =? 0x1680)
   || ((0x2000 <=? c) && (c <=? 0x200A))
   || (c =? 0x2028) || (c =? 0x2029) || (c =? 0x202F) || (c =? 0x205F)
   || (c =? 0x3000) || (c =? 0xFEFF))%N.

Fixpoint trimStart (s : jsstring) : jsstring :=
  match s with
  | c :: s' => if is_white_space c then trimStart s' else s
  | [] => []
  end.

Definition trimEnd (s : jsstring) : jsstring := rev (trimStart (rev s)).

(** [s.trim()] *)
Definition trim (s : jsstring) : jsstring := trimEnd (trimStart s).

(** Truthiness of a string: [!s] holds exactly for the empty string. *)
Definition falsy (s : jsstring) : bool :=
  match s with [] => true | _ => false end.

(** [!s.trim()] *)
Definition blank (s : jsstring) : bool := falsy (trim s).

Definition eqb (a b : jsstring) : bool := bool_decide (a = b).

(** Code units of an ASCII literal, for examples. *)
Definition lit (s : string) : jsstring :=
  map (fun a => N_of_ascii a) (list_ascii_of_string s).

End JsString.
Import JsString.

(** ** Values and documents *)

Definition float64 := PrimFloat.float.

Definition Id := N.          (* v.id("knowledgeBase") *)
Definition StorageId := N.   (* v.id("_storage") *)

(** Values that may be stored in a field of an update object. The value
    [VUndefined] is JavaScript's [undefined]. *)
Inductive value :=
| VUndefined
| VStr (s : jsstring)
| VNum (z : Z)
| VStorage (i : StorageId)
| VVec (v : list float64).

(** A row of the [knowledgeBase] table, as declared in schema.ts. Fields
    declared with [v.optional] are options. *)
Record Doc := mkDoc {
  organizationId : jsstring;
  title : jsstring;
  content : jsstring;
  mimeType : jsstring;
  fileName : jsstring;
  embedUrl : option jsstring;
  storageId : option StorageId;
  embedding : option (list float64);
  createdAt : Z;
  updatedAt : option Z
}.

(** The fields of the table. *)
Definition knowledgeBase_fields : list string :=
  ["organizationId"; "title"; "content"; "mimeType"; "fileName";
   "embedUrl"; "storageId"; "embedding"; "createdAt"; "updatedAt"]%string.

(** schema.ts: [vectorIndex("by_embedding", { vectorField: "embedding",
    dimensions: 3072, filterFields: ["organizationId"] })]. *)
Definition by_embedding_dimensions : nat := 3072.

(** ** Database, blob store and the handler context *)

Record DB := mkDB {
  knowledgeBase : list (Id * Doc);   (* rows in creation order *)
  nextId : Id;                       (* source of fresh document ids *)
  blobs : gset StorageId             (* files held by ctx.storage *)
}.

Record Identity := mkIdentity { orgId : option jsstring }.

Record Ctx := mkCtx {
  identity : option Identity;   (* ctx.auth.getUserIdentity() *)
  now : Z                       (* Date.now() *)
}.

Inductive ErrorCode := UNAUTHORIZED | NOT_FOUND | FORBIDDEN | BAD_REQUEST.

Inductive Error :=
| ConvexError (code : ErrorCode) (message : string)
| PlatformError (message : string).

Inductive Outcome (A : Type) :=
| Ok (a : A)
| Throw (e : Error).
Arguments Ok {A} a.
Arguments Throw {A} e.

(** Handlers thread the database; a throw keeps the database as it was at
    the point of the throw. *)
Definition M (A : Type) := DB -> Outcome A * DB.

Definition ret {A} (a : A) : M A := fun s => (Ok a, s).
Definition throw {A} (e : Error) : M A := fun s => (Throw e, s).
Definition bind {A B} (m : M A) (k : A -> M B) : M B :=
  fun s => match m s with
           | (Ok a, s') => k a s'
           | (Throw e, s') => (Throw e, s')
           end.

Declare Scope handler_scope.
Delimit Scope handler_scope with handler.
Notation "x <- m ;; k" := (bind m (fun x => k))
  (at level 100, m at next level, right associativity) : handler_scope.
Notation "m ;;; k" := (bind m (fun _ => k))
  (at level 100, right associativity) : handler_scope.
Open Scope handler_scope.

(** A mutation is a transaction: when the handler throws, none of its
    writes are committed. *)
Definition run_mutation {A} (m : M A) (s : DB) : Outcome A * DB :=
  match m s with
  | (Ok a, s') => (Ok a, s')
  | (Throw e, _) => (Throw e, s)
  end.

(** *** Table operations *)

Fixpoint lookup_row (id : Id) (rows : list (Id * Doc)) : option Doc :=
  match rows with
  | [] => None
  | (i, d) :: rows' => if (i =? id)%N then Some d else lookup_row id rows'
  end.

(** [ctx.db.get(id)] *)
Definition db_get (id : Id) : M (option Doc) :=
  fun s => (Ok (lookup_row id (knowledgeBase s)), s).

(** [ctx.db.insert("knowledgeBase", doc)] *)
Definition db_insert (d : Doc) : M Id :=
  fun s => (Ok (nextId s),
            {| knowledgeBase := knowledgeBase s ++ [(nextId s, d)];
               nextId := N.succ (nextId s);
               blobs := blobs s |}).

(** One field of a shallow merge. A key that is absent from the update
    object leaves the field alone; a value of the wrong type for the
    field is refused by the schema. *)
Definition merge_str (u : gmap string value) (k : string) (old : jsstring)
  : option jsstring :=
  match u !! k with
  | None => Some old
  | Some (VStr s) => Some s
  | Some _ => None
  end.

Definition merge_num (u : gmap string value) (k : string) (old : Z)
  : option Z :=
  match u !! k with
  | None => Some old
  | Some (VNum z) => Some z
  | Some _ => None
  end.

(** Optional fields: [undefined] removes the field. *)
Definition merge_opt_str (u : gmap string value) (k : string)
  (old : option jsstring) : option (option jsstring) :=
  match u !! k with
  | None => Some old
  | Some VUndefined => Some None
  | Some (VStr s) => Some (Some s)
  | Some _ => None
  end.

Definition merge_opt_num (u : gmap string value) (k : string)
  (old : option Z) : option (option Z) :=
  match u !! k with
  | None => Some old
  | Some VUndefined => Some None
  | Some (VNum z) => Some (Some z)
  | Some _ => None
  end.

Definition merge_opt_storage (u : gmap string value) (k : string)
  (old : option StorageId) : option (option StorageId) :=
  match u !! k with
  | None => Some old
  | Some VUndefined => Some None
  | Some (VStorage i) => Some (Some i)
  | Some _ => None
  end.

Definition merge_opt_vec (u : gmap string value) (k : string)
  (old : option (list float64)) : option (option (list float64)) :=
  match u !! k with
  | None => Some old
  | Some VUndefined => Some None
  | Some (VVec v) => Some (Some v)
  | Some _ => None
  end.

(** The shallow merge done by [ctx.db.patch]: new fields are added,
    existing fields overwritten, fields set to [undefined] removed; the
    result must conform to the schema, and so must the keys. *)
Definition patch_doc (d : Doc) (u : gmap string value) : option Doc :=
  if bool_decide (dom u ⊆ list_to_set knowledgeBase_fields) then
    o ← merge_str u "organizationId" (organizationId d);
    t ← merge_str u "title" (title d);
    c ← merge_str u "content" (content d);
    m ← merge_str u "mimeType" (mimeType d);
    f ← merge_str u "fileName" (fileName d);
    eu ← merge_opt_str u "embedUrl" (embedUrl d);
    st ← merge_opt_storage u "storageId" (storageId d);
    em ← merge_opt_vec u "embedding" (embedding d);
    ca ← merge_num u "createdAt" (createdAt d);
    ua ← merge_opt_num u "updatedAt" (updatedAt d);
    Some {| organizationId := o; title := t; content := c; mimeType := m;
            fileName := f; embedUrl := eu; storageId := st;
            embedding := em; createdAt := ca; updatedAt := ua |}
  else None.

Fixpoint replace_row (id : Id) (d' : Doc) (rows : list (Id * Doc))
  : list (Id * Doc) :=
  match rows with
  | [] => []
  | (i, d) :: rows' =>
      if (i =? id)%N then (i, d') :: rows'
      else (i, d) :: replace_row id d' rows'
  end.

(** [ctx.db.patch(id, updates)] *)
Definition db_patch (id : Id) (u : gmap string value) : M unit :=
  fun s =>
    match lookup_row id (knowledgeBase s) with
    | None => (Throw (PlatformError "Update on nonexistent document ID"), s)
    | Some d =>
        match patch_doc d u with
        | None => (Throw (PlatformError "Failed to update: schema validation"), s)
        | Some d' =>
            (Ok tt, {| knowledgeBase := replace_row id d' (knowledgeBase s);
                       nextId := nextId s;
                       blobs := blobs s |})
        end
    end.

(** [ctx.db.delete(id)] *)
Definition db_delete (id : Id) : M unit :=
  fun s =>
    match lookup_row id (knowledgeBase s) with
    | None => (Throw (PlatformError "Delete on nonexistent document ID"), s)
    | Some _ =>
        (Ok tt, {| knowledgeBase :=
                     List.filter (fun r => negb (fst r =? id)%N) (knowledgeBase s);
                   nextId := nextId s;
                   blobs := blobs s |})
    end.

(** [ctx.storage.delete(storageId)]: the platform refuses an id that names
    no stored file. *)
Definition storage_delete (sid : StorageId) : M unit :=
  fun s =>
    if bool_decide (sid ∈ blobs s) then
      (Ok tt, {| knowledgeBase := knowledgeBase s;
                 nextId := nextId s;
                 blobs := blobs s ∖ {[sid]} |})
    else (Throw (PlatformError "storage id not found"), s).

(** [ctx.db.query("knowledgeBase").withIndex("by_organization_id",
    q => q.eq("organizationId", org)).collect()] *)
Definition collect_by_organization_id (org : jsstring) : M (list (Id * Doc)) :=
  fun s => (Ok (List.filter (fun r => eqb (organizationId (snd r)) org)
                       (knowledgeBase s)), s).

(** ** [Array.prototype.sort] with a comparator

    The sort is stable: [a] stays in front of a later [b] unless the
    comparator is positive on [(a, b)]. *)
Section JsSort.
Context {A : Type} (cmp : A -> A -> Z).

Fixpoint sort_insert (a : A) (l : list A) : list A :=
  match l with
  | [] => [a]
  | b :: l' => if (cmp a b <=? 0)%Z then a :: b :: l'
               else b :: sort_insert a l'
  end.

Definition js_sort (l : list A) : list A := foldr sort_insert [] l.
End JsSort.

(** ** The knowledge-base handlers (convex/public/knowledgeBase.ts) *)

(** The prelude shared by every handler: the caller's identity and
    organization. *)
Definition requireOrg (ctx : Ctx) : M jsstring :=
  match identity ctx with
  | None => throw (ConvexError UNAUTHORIZED "Identity not found")
  | Some ident =>
      match orgId ident with
      | None => throw (ConvexError UNAUTHORIZED "Organization not found")
      | Some org =>
          if falsy org
          then throw (ConvexError UNAUTHORIZED "Organization not found")
          else ret org
      end
  end.

(** [(a, b) => b.createdAt - a.createdAt] *)
Definition newest_first (a b : Id * Doc) : Z :=
  (createdAt (snd b) - createdAt (snd a))%Z.

Definition getAll (ctx : Ctx) : M (list (Id * Doc)) :=
  org <- requireOrg ctx ;;
  documents <- collect_by_organization_id org ;;
  ret (js_sort newest_first documents).

(** The ownership check shared by getOne, update and remove. *)
Definition requireOwned (org : jsstring) (documentId : Id) : M Doc :=
  document <- db_get documentId ;;
  match document with
  | None => throw (ConvexError NOT_FOUND "Document not found")
  | Some d =>
      if negb (eqb (organizationId d) org)
      then throw (ConvexError FORBIDDEN "Access denied")
      else ret d
  end.

Definition getOne (ctx : Ctx) (documentId : Id) : M Doc :=
  org <- requireOrg ctx ;;
  requireOwned org documentId.

Record CreateArgs := mkCreateArgs {
  c_title : jsstring;
  c_content : jsstring;
  c_mimeType : jsstring;
  c_fileName : jsstring;
  c_embedUrl : option jsstring;
  c_storageId : option StorageId
}.

Definition create (ctx : Ctx) (args : CreateArgs) : M Id :=
  org <- requireOrg ctx ;;
  (if blank (c_title args)
   then throw (ConvexError BAD_REQUEST "Title cannot be empty")
   else ret tt) ;;;
  (if blank (c_content args)
   then throw (ConvexError BAD_REQUEST "Content cannot be empty")
   else ret tt) ;;;
  db_insert {| organizationId := org;
               title := c_title args;
               content := c_content args;
               mimeType := c_mimeType args;
               fileName := c_fileName args;
               embedUrl := c_embedUrl args;
               storageId := c_storageId args;
               embedding := None;
               createdAt := now ctx;
               updatedAt := None |}.

Record UpdateArgs := mkUpdateArgs {
  u_documentId : Id;
  u_title : option jsstring;
  u_content : option jsstring
}.

(** The [updates] object built by [update]. *)
Definition update_title (t : option jsstring) (updates : gmap string value)
  : M (gmap string value) :=
  match t with
  | Some t =>
      if blank t
      then throw (ConvexError BAD_REQUEST "Title cannot be empty")
      else ret (<["title" := VStr t]> updates)
  | None => ret updates
  end.

Definition update_content (c : option jsstring) (updates : gmap string value)
  : M (gmap string value) :=
  match c with
  | Some c =>
      if blank c
      then throw (ConvexError BAD_REQUEST "Content cannot be empty")
      else ret (<["embedding" := VUndefined]> (<["content" := VStr c]> updates))
  | None => ret updates
  end.

Definition update (ctx : Ctx) (args : UpdateArgs) : M Id :=
  org <- requireOrg ctx ;;
  document <- requireOwned org (u_documentId args) ;;
  updates <- update_title (u_title args) {["updatedAt" := VNum (now ctx)]} ;;
  updates <- update_content (u_content args) updates ;;
  db_patch (u_documentId args) updates ;;;
  ret (u_documentId args).

Definition remove (ctx : Ctx) (documentId : Id) : M bool :=
  org <- requireOrg ctx ;;
  document <- requireOwned org documentId ;;
  match storageId document with
  | Some sid => storage_delete sid
  | None => ret tt
  end ;;;
  db_delete documentId ;;;
  ret true.

(** ** The embedding adapter (convex/system/ai/rag.ts) *)

Module Adapter.

(** Values exchanged with the provider: what [Array.isArray] and
    indexing can tell apart. *)
Inductive jsval :=
| JUndefined
| JNum (x : float64)
| JArr (l : list jsval).

(** An embedding vector as a JavaScript array of numbers. *)
Definition vec (v : list float64) : jsval := JArr (map JNum v).

Definition isArray (v : jsval) : bool :=
  match v with JArr _ => true | _ => false end.

(** [a[0]] for an array [a]. *)
Definition index0 (a : jsval) : jsval :=
  match a with JArr (x :: _) => x | _ => JUndefined end.

Inductive EmbedError :=
| NoUnderlyingMethod (message : string)   (* thrown by the adapter *)
| ProviderRejected (reason : string).     (* thrown by the provider *)

Inductive Promise (A : Type) :=
| Fulfilled (a : A)
| Rejected (e : EmbedError).
Arguments Fulfilled {A} a.
Arguments Rejected {A} e.

(** What a provider call settles to: a value or the provider's reason. *)
Definition ProviderResult := (string + jsval)%type.

Definition await (r : ProviderResult) : Promise jsval :=
  match r with
  | inr v => Fulfilled v
  | inl reason => Rejected (ProviderRejected reason)
  end.

(** The v1 provider model: [typeof v1.embed === "function"] holds when
    [p_embed] is present, and likewise for [embedMany]. *)
Record Provider := mkProvider {
  p_embed : option (jsstring -> ProviderResult);
  p_embedMany : option (list jsstring -> ProviderResult)
}.

(** [embeddingModelV2.embed] *)
Definition embed (v1 : Provider) (input : jsstring) : Promise jsval :=
  match p_embed v1 with
  | Some e =>
      match await (e input) with
      | Fulfilled out =>
          Fulfilled (if isArray out && isArray (index0 out)
                     then index0 out else out)
      | Rejected r => Rejected r
      end
  | None =>
      match p_embedMany v1 with
      | Some g =>
          match await (g [input]) with
          | Fulfilled arr =>
              Fulfilled (if isArray arr then index0 arr else arr)
          | Rejected r => Rejected r
          end
      | None =>
          Rejected (NoUnderlyingMethod
                      "v1 embedding model has no embed/embedMany")
      end
  end.

(** [Promise.all] over calls already issued: the array of the values,
    or a rejection when one of them rejects. The calls carry no timing
    here: of several rejections the first in input order is kept, where
    [Promise.all] keeps the first in time. *)
Fixpoint promise_all (ps : list (Promise jsval)) : Promise (list jsval) :=
  match ps with
  | [] => Fulfilled []
  | p :: ps' =>
      match p with
      | Rejected r => Rejected r
      | Fulfilled v =>
          match promise_all ps' with
          | Fulfilled vs => Fulfilled (v :: vs)
          | Rejected r => Rejected r
          end
      end
  end.

(** [embeddingModelV2.embedMany] *)
Definition embedMany (v1 : Provider) (inputs : list jsstring)
  : Promise jsval :=
  match p_embedMany v1 with
  | Some g => await (g inputs)
  | None =>
      match p_embed v1 with
      | Some e =>
          match promise_all (map (fun s => await (e s)) inputs) with
          | Fulfilled vs => Fulfilled (JArr vs)
          | Rejected r => Rejected r
          end
      | None =>
          Rejected (NoUnderlyingMethod "v1 embedding model can't embedMany")
      end
  end.

(** The RAG component is configured with the adapter and the
    dimension: [new RAG(components.rag, { textEmbeddingModel,
    embeddingDimension: 3072 })]. *)
Definition embeddingDimension : nat := 3072.

(** The adapter for the AI SDK 4 (the other revision of rag.ts):
    [doEmbed({ values })] hands [values] to the SDK's [embedMany] and
    returns its [embeddings]. The SDK call is a parameter. *)
Definition doEmbed (sdk_embedMany : list jsstring -> ProviderResult)
  (values : list jsstring) : Promise jsval :=
  await (sdk_embedMany values).

(** A provider that computes the embedding [f], through whichever of
    the two call shapes it exposes. *)
Definition single_shape (f : jsstring -> list float64)
  (e : jsstring -> ProviderResult) : Prop :=
  forall x, e x = inr (vec (f x)).

Definition batch_shape (f : jsstring -> list float64)
  (g : list jsstring -> ProviderResult) : Prop :=
  forall xs, g xs = inr (JArr (map (fun x => vec (f x)) xs)).

Definition implements (v1 : Provider) (f : jsstring -> list float64) : Prop :=
  (forall e, p_embed v1 = Some e -> single_shape f e) /\
  (forall g, p_embedMany v1 = Some g -> batch_shape f g).

(** The three shapes of provider computing [f]. *)
Definition single_only (f : jsstring -> list float64) : Provider :=
  {| p_embed := Some (fun x => inr (vec (f x)));
     p_embedMany := None |}.

Definition batch_only (f : jsstring -> list float64) : Provider :=
  {| p_embed := None;
     p_embedMany := Some (fun xs => inr (JArr (map (fun x => vec (f x)) xs))) |}.

Definition single_and_batch (f : jsstring -> list float64) : Provider :=
  {| p_embed := Some (fun x => inr (vec (f x)));
     p_embedMany := Some (fun xs => inr (JArr (map (fun x => vec (f x)) xs))) |}.

End Adapter.

(** ** The vector index and the retrieval engine

    The index is an external capability and the retrieval engine is not
    part of the backend sources; both are modelled from the design
    document, over the [knowledgeBase] table and its [by_embedding]
    index. The similarity function of the capability is a parameter. *)

Module Retrieval.

Definition Vector := list float64.

Section Engine.
(** The capability's similarity score of a query and a stored vector. *)
Variable similarity : Vector -> Vector -> float64.
(** The adapter's [embed_one]; [None] when the adapter fails. *)
Variable embed_one : jsstring -> option Vector.
(** The per-source delimiter of the assembled context. *)
Variable delimiter : jsstring.
(** The per-candidate truncation floor, in characters. *)
Variable min_chars : nat.

(** Modelled from the spec: the entries of the vector index (the
    capability itself is missing from the sources). A document with
    [embedding == null] is excluded from vector search, so the index
    holds the rows that carry an embedding. *)
Definition index_entries (s : DB) : list (Id * Doc * Vector) :=
  omap (fun r : Id * Doc =>
          match embedding (snd r) with
          | Some v => Some (r, v)
          | None => None
          end) (knowledgeBase s).

(** Modelled from the spec: the order of the hits, by similarity score,
    descending. *)
Definition by_score (a b : Id * float64) : Z :=
  if PrimFloat.ltb (snd b) (snd a) then (-1)%Z
  else if PrimFloat.ltb (snd a) (snd b) then 1%Z else 0%Z.

(** Modelled from the spec: [search(tenant_id, query_vector, k)] of
    the Vector Index (its call site is missing from the sources). It
    returns at most [k] pairs of document id and similarity score,
    nearest first, restricted to the vectors that belong to
    [tenant_id]: the filter is on the index's filter field
    [organizationId]. *)
Definition search (s : DB) (tenant_id : jsstring) (query_vector : Vector)
  (k : nat) : list (Id * float64) :=
  take k
    (js_sort by_score
       (map (fun e : Id * Doc * Vector =>
               (fst (fst e), similarity query_vector (snd e)))
          (List.filter
             (fun e : Id * Doc * Vector =>
                eqb (organizationId (snd (fst e))) tenant_id)
             (index_entries s)))).

(** Modelled from the spec: a fetched candidate, that is the document
    id, its record and its score. *)
Record Candidate := mkCandidate {
  cand_id : Id;
  cand_doc : Doc;
  cand_score : float64
}.

(** Modelled from the spec: step 3 of [retrieve]. The records of the
    returned ids are fetched; an id that no longer resolves to a live
    document is dropped. *)
Definition fetch (s : DB) (hits : list (Id * float64)) : list Candidate :=
  omap (fun h : Id * float64 =>
          match lookup_row (fst h) (knowledgeBase s) with
          | Some d => Some (mkCandidate (fst h) d (snd h))
          | None => None
          end) hits.

(** Modelled from the spec: step 4 of [retrieve]. Candidates are
    ranked by score, descending; ties are broken by the most recent
    [createdAt]. *)
Definition ranking (a b : Candidate) : Z :=
  if PrimFloat.ltb (cand_score b) (cand_score a) then (-1)%Z
  else if PrimFloat.ltb (cand_score a) (cand_score b) then 1%Z
  else (createdAt (cand_doc b) - createdAt (cand_doc a))%Z.

(** Modelled from the spec: the approximate token count, characters/4. *)
Definition approx_tokens (text : jsstring) : nat := length text / 4.

(** Modelled from the spec: the budget in characters, the largest number
    of characters whose approximate token count is within [max_tokens]. *)
Definition char_budget (max_tokens : nat) : nat := 4 * max_tokens + 3.

(** Modelled from the spec: the assembled context string and the source
    attributions (document id and title), in the order of inclusion. *)
Record Assembly := mkAssembly {
  context : jsstring;
  sources : list (Id * jsstring)
}.

(** Modelled from the spec: step 5 of [retrieve], the greedy
    accumulation (the assembler is missing from the sources).
    Candidates are taken in ranked order while the buffer, with the
    delimiter and the candidate's content, stays within
    [max_tokens]. The first candidate that does not fit is truncated
    to the remaining budget and ends the accumulation; its
    truncation is kept when it leaves at least [min_chars]
    characters, and dropped otherwise. *)
Fixpoint assemble (max_tokens : nat) (acc : Assembly)
  (cands : list Candidate) : Assembly :=
  match cands with
  | [] => acc
  | c :: rest =>
      let sep := match sources acc with [] => [] | _ => delimiter end in
      let head := context acc ++ sep in
      let text := content (cand_doc c) in
      let src := (cand_id c, title (cand_doc c)) in
      if approx_tokens (head ++ text) <=? max_tokens then
        assemble max_tokens
          {| context := head ++ text; sources := sources acc ++ [src] |}
          rest
      else
        let room := char_budget max_tokens - length head in
        let cut := take room text in
        if (1 <=? length cut) && (min_chars <=? length cut)
           && (length head <=? char_budget max_tokens)
        then {| context := head ++ cut; sources := sources acc ++ [src] |}
        else acc
  end.

(** Modelled from the spec: the result of [retrieve], a context with its
    sources or [Unavailable]. *)
Inductive RetrieveResult :=
| Unavailable
| Retrieved (a : Assembly).

(** Modelled from the spec: [retrieve(tenant_id, query_text,
    max_tokens, max_candidates)] (missing from the sources): embed
    the query, search the tenant's vectors, fetch, rank, assemble. *)
Definition retrieve (s : DB) (tenant_id query_text : jsstring)
  (max_tokens max_candidates : nat) : RetrieveResult :=
  match embed_one query_text with
  | None => Unavailable
  | Some query_vector =>
      let hits := search s tenant_id query_vector max_candidates in
      let ranked := js_sort ranking (fetch s hits) in
      Retrieved (assemble max_tokens {| context := []; sources := [] |} ranked)
  end.
End Engine.

End Retrieval.

(** * Vocabulary of the statements *)

(** Empty or made of white space only. *)
Definition whitespace_only (s : jsstring) : Prop :=
  Forall (fun c => is_white_space c = true) s.

(** The caller is signed in and acts for the organization [org]. *)
Definition authenticated (ctx : Ctx) (org : jsstring) : Prop :=
  exists ident, identity ctx = Some ident /\ orgId ident = Some org /\ org <> [].

Definition error_code (e : Error) : option ErrorCode :=
  match e with
  | ConvexError code _ => Some code
  | PlatformError _ => None
  end.

Definition access_denied : Error := ConvexError FORBIDDEN "Access denied".

Definition all_nonblank (s : DB) : Prop :=
  forall r, r ∈ knowledgeBase s ->
            blank (title (snd r)) = false /\ blank (content (snd r)) = false.

Definition bad_request (e : Error) : Prop := error_code e = Some BAD_REQUEST.

(** The update object that [update] hands to [ctx.db.patch] once its
    checks have passed. *)
Definition updates_of (now : Z) (t c : option jsstring) : gmap string value :=
  let u0 : gmap string value := {["updatedAt" := VNum now]} in
  let u1 := match t with Some t => <["title" := VStr t]> u0 | None => u0 end in
  match c with
  | Some c => <["embedding" := VUndefined]> (<["content" := VStr c]> u1)
  | None => u1
  end.

(** The document after the patch. *)
Definition updated_doc (now : Z) (t c : option jsstring) (d : Doc) : Doc :=
  {| organizationId := organizationId d;
     title := match t with Some t => t | None => title d end;
     content := match c with Some c => c | None => content d end;
     mimeType := mimeType d;
     fileName := fileName d;
     embedUrl := embedUrl d;
     storageId := storageId d;
     embedding := match c with Some _ => None | None => embedding d end;
     createdAt := createdAt d;
     updatedAt := Some now |}.

Definition field_ok (f : option jsstring) : Prop :=
  forall x, f = Some x -> blank x = false.

(** The database after a successful update of [id]. *)
Definition updated_db (ctx : Ctx) (args : UpdateArgs) (d : Doc) (s : DB) : DB :=
  {| knowledgeBase :=
       replace_row (u_documentId args)
         (updated_doc (now ctx) (u_title args) (u_content args) d)
         (knowledgeBase s);
     nextId := nextId s;
     blobs := blobs s |}.

(** The document stored by a successful [create]. *)
Definition created_doc (ctx : Ctx) (org : jsstring) (args : CreateArgs) : Doc :=
  {| organizationId := org;
     title := c_title args;
     content := c_content args;
     mimeType := c_mimeType args;
     fileName := c_fileName args;
     embedUrl := c_embedUrl args;
     storageId := c_storageId args;
     embedding := None;
     createdAt := now ctx;
     updatedAt := None |}.

(** The database after a successful removal of [id], whose record is [d]. *)
Definition removed_db (id : Id) (d : Doc) (s : DB) : DB :=
  {| knowledgeBase := List.filter (fun r => negb (fst r =? id)%N) (knowledgeBase s);
     nextId := nextId s;
     blobs := match storageId d with
              | Some sid => blobs s ∖ {[sid]}
              | None => blobs s
              end |}.

(** A given field that is empty or white space only. *)
Definition blank_given (f : option jsstring) : Prop :=
  exists x, f = Some x /\ whitespace_only x.

(** The caller owns the document [id], whose record is [d]. *)
Definition owns (ctx : Ctx) (s : DB) (id : Id) (d : Doc) : Prop :=
  authenticated ctx (organizationId d) /\
  lookup_row id (knowledgeBase s) = Some d.

(** [a] is at least as recent as [b]. *)
Definition not_older (a b : Id * Doc) : Prop :=
  (createdAt (snd b) <= createdAt (snd a))%Z.

(** The provider exposes at least one of the two call shapes. *)
Definition exposes_a_method (v1 : Adapter.Provider) : Prop :=
  is_Some (Adapter.p_embed v1) \/ is_Some (Adapter.p_embedMany v1).

(** The provider answers the call that [embed] makes for [input] with
    the value [out]. *)
Definition responds_single (v1 : Adapter.Provider) (input : jsstring)
  (out : Adapter.jsval) : Prop :=
  match Adapter.p_embed v1 with
  | Some e => e input = inr out
  | None =>
      match Adapter.p_embedMany v1 with
      | Some g => g [input] = inr (Adapter.JArr [out])
      | None => False
      end
  end.

(** The provider answers the calls that [embedMany] makes for [inputs]
    with the values [outs]. *)
Definition responds_batch (v1 : Adapter.Provider) (inputs : list jsstring)
  (outs : list Adapter.jsval) : Prop :=
  match Adapter.p_embedMany v1 with
  | Some g => g inputs = inr (Adapter.JArr outs)
  | None =>
      match Adapter.p_embed v1 with
      | Some e => Forall2 (fun x out => e x = inr out) inputs outs
      | None => False
      end
  end.

(** A vector of two components, where the configured dimension is 3072. *)
Definition short_vector : list float64 := [0.5%float; 0.25%float].

(** * A small knowledge base, for worked instances *)

Module Sample.

Definition org_a : jsstring := lit "org_a".
Definition org_b : jsstring := lit "org_b".

(** A member of [org_a], at some instant. *)
Definition ctx_a : Ctx :=
  {| identity := Some {| orgId := Some org_a |}; now := 1700000000000 |}.

Definition refunds : Doc :=
  {| organizationId := org_a;
     title := lit "Refunds";
     content := lit "Refunds take 5 days";
     mimeType := lit "text/plain";
     fileName := lit "refunds.txt";
     embedUrl := None;
     storageId := Some 7%N;
     embedding := Some [0.5%float; 0.25%float];
     createdAt := 1000;
     updatedAt := None |}.

Definition shipping : Doc :=
  {| organizationId := org_a;
     title := lit "Shipping";
     content := lit "Shipping is free over $50";
     mimeType := lit "text/markdown";
     fileName := lit "shipping.md";
     embedUrl := None;
     storageId := None;
     embedding := Some [0.125%float; 1%float];
     createdAt := 2000;
     updatedAt := None |}.

(** A document of the other tenant, with the same content. *)
Definition refunds_b : Doc :=
  {| organizationId := org_b;
     title := lit "Refunds";
     content := lit "Refunds take 5 days";
     mimeType := lit "text/plain";
     fileName := lit "refunds.txt";
     embedUrl := None;
     storageId := Some 9%N;
     embedding := Some [0.5%float; 0.25%float];
     createdAt := 1500;
     updatedAt := None |}.

Definition db0 : DB :=
  {| knowledgeBase := [(1%N, refunds); (2%N, shipping); (3%N, refunds_b)];
     nextId := 4%N;
     blobs := {[7%N; 9%N]} |}.

(** An embedding function and a similarity, enough to run a search. *)
Definition embed_query (x : jsstring) : list float64 :=
  match x with
  | [] => [0%float; 0%float]
  | _ => [1%float; 0.5%float]
  end.

Definition dot2 (a b : list float64) : float64 :=
  match a, b with
  | [a1; a2], [b1; b2] => (a1 * b1 + a2 * b2)%float
  | _, _ => 0%float
  end.

End Sample.

(** * The rest of the knowledge-base functions *)

(** [ctx.storage.generateUploadUrl()]: a short-lived upload URL, chosen by
    the platform. *)
Definition storage_generateUploadUrl (upload_url : jsstring) : M jsstring :=
  ret upload_url.

(** [ctx.storage.getUrl(storageId)]: the URL of a stored file, chosen by
    the platform, or null when no such file is stored. *)
Definition storage_getUrl (url_of : StorageId -> jsstring) (sid : StorageId)
  : M (option jsstring) :=
  fun s => (Ok (if bool_decide (sid ∈ blobs s) then Some (url_of sid) else None),
            s).

Definition generateUploadUrl (upload_url : jsstring) (ctx : Ctx) : M jsstring :=
  org <- requireOrg ctx ;;
  storage_generateUploadUrl upload_url.

(** [getFileUrl] does not read [ctx.auth]. *)
Definition getFileUrl (url_of : StorageId -> jsstring) (ctx : Ctx)
  (storageId : StorageId) : M (option jsstring) :=
  storage_getUrl url_of storageId.

(** * The knowledge-base screens (apps/web/modules/knowledge) *)

Module Knowledge.

(** lib/validation.ts *)
Definition SUPPORTED_FILE_TYPES : list jsstring :=
  [lit "application/pdf";
   lit "text/plain";
   lit "text/markdown";
   lit "application/msword";
   lit "application/vnd.openxmlformats-officedocument.wordprocessingml.document"].

Definition MAX_FILE_SIZE : N := 10 * 1024 * 1024.

(** A browser [File]: its name, MIME type and size in bytes, and what
    [FileReader.readAsText] yields for it ([None] when reading fails). *)
Record File := mkFile {
  file_name : jsstring;
  file_type : jsstring;
  file_size : N;
  file_text : option jsstring
}.

(** [SUPPORTED_FILE_TYPES.includes(type)] *)
Definition supported (type : jsstring) : bool :=
  existsb (fun t => eqb t type) SUPPORTED_FILE_TYPES.

(** The checks of [documentUploadSchema] on its [file] field. *)
Definition documentUploadSchema_file (file : File) : bool :=
  (file_size file <=? MAX_FILE_SIZE)%N && supported (file_type file).

(** [documentUpdateSchema]: a title of 1 to 200 code units; the content
    is optional and unconstrained. *)
Definition documentUpdateSchema (title : jsstring) (content : option jsstring)
  : bool :=
  (1 <=? length title) && (length title <=? 200).

(** [searchQuerySchema]: a query of 1 to 500 code units and, when given,
    a limit between 1 and 10. *)
Definition searchQuerySchema (query : jsstring) (limit : option float64)
  : bool :=
  (1 <=? length query) && (length query <=? 500)
  && match limit with
     | Some n => PrimFloat.leb 1 n && PrimFloat.leb n 10
     | None => true
     end.

(** What a handler shows: [toast.success], or [toast.error] with a fixed
    message or with the message of the error it caught. *)
Inductive Toast :=
| ToastSuccess (message : string)
| ToastError (message : string)
| ToastCaught (e : Error) (fallback : string).

(** ** components/document-list.tsx *)

Record ListState := mkListState {
  deleteDialogOpen : bool;
  renameDialogOpen : bool;
  selectedDocument : option Id;
  newTitle : jsstring;
  processingDoc : option Id
}.

(** [handleRename] *)
Definition handleRename (ctx : Ctx) (ui : ListState) (s : DB)
  : ListState * list Toast * DB :=
  match selectedDocument ui with
  | None => (ui, [], s)
  | Some documentId =>
      if blank (newTitle ui) then (ui, [], s)
      else
        match run_mutation
                (update ctx (mkUpdateArgs documentId (Some (newTitle ui)) None))
                s with
        | (Ok _, s') =>
            ({| deleteDialogOpen := deleteDialogOpen ui;
                renameDialogOpen := false;
                selectedDocument := None;
                newTitle := [];
                processingDoc := processingDoc ui |},
             [ToastSuccess "Document renamed successfully"], s')
        | (Throw e, s') =>
            (ui, [ToastCaught e "Failed to rename document"], s')
        end
  end.

(** ** components/document-upload.tsx *)

(** [handleFileSelect]: the selected file after the change event whose
    first file is [file], and what is shown. *)
Definition handleFileSelect (file : option File) (selectedFile : option File)
  : option File * list Toast :=
  match file with
  | None => (selectedFile, [])
  | Some file =>
      if negb (supported (file_type file)) then
        (selectedFile,
         [ToastError
            "File type not supported. Please upload PDF, TXT, MD, or DOC files."])
      else if (MAX_FILE_SIZE <? file_size file)%N then
        (selectedFile, [ToastError "File size must be less than 10MB"])
      else (Some file, [])
  end.

Definition placeholder : jsstring :=
  lit "[Content extraction not implemented for this file type]".

(** [extractTextFromFile]: the text of a plain-text or markdown file, a
    placeholder for the other types; [None] when the reader fails. *)
Definition extractTextFromFile (file : File) : option jsstring :=
  if eqb (file_type file) (lit "text/plain")
     || eqb (file_type file) (lit "text/markdown")
  then file_text file
  else Some placeholder.

(** The last ["."] of a string, with what stands before and after it. *)
Fixpoint split_last_dot (s : jsstring) : option (jsstring * jsstring) :=
  match s with
  | [] => None
  | c :: s' =>
      match split_last_dot s' with
      | Some (pre, ext) => Some (c :: pre, ext)
      | None => if (c =? 0x2E)%N then Some ([], s') else None
      end
  end.

(** [name.replace(/\.[^/.]+$/, "")]: the match is a ["."] followed, up to
    the end of the string, by one or more characters other than ["/"] and
    ["."]; it can only start at the last ["."]. *)
Definition remove_extension (name : jsstring) : jsstring :=
  match split_last_dot name with
  | Some (pre, ext) =>
      if negb (falsy ext) && forallb (fun c => negb (c =? 0x2F)%N) ext
      then pre else name
  | None => name
  end.

(** The outcome of the POST of the file to the upload URL: the storage
    id of the stored file, a response that is not ok, or a network
    failure. *)
Inductive PostResult :=
| PostStored (storageId : StorageId)
| PostNotOk
| PostFailed.

Record UploadState := mkUploadState {
  selectedFile : option File;
  uploading : bool;
  uploadProgress : Z
}.

(** The arguments [handleUpload] gives to [createDocument]. *)
Definition upload_args (file : File) (content : jsstring)
  (storageId : StorageId) : CreateArgs :=
  {| c_title := remove_extension (file_name file);
     c_content := content;
     c_mimeType := file_type file;
     c_fileName := file_name file;
     c_embedUrl := None;
     c_storageId := Some storageId |}.

(** [handleUpload]. The three backend calls are separate transactions;
    the POST stores the file under the id it returns. The action
    [generateEmbedding] is a parameter. The result is the screen, what is
    shown and the database after the click. *)
Definition handleUpload
  (generateEmbedding : Id -> DB -> Outcome unit * DB)
  (upload_url : jsstring) (post : PostResult)
  (ctx : Ctx) (ui : UploadState) (s : DB)
  : UploadState * list Toast * DB :=
  match selectedFile ui with
  | None => (ui, [ToastError "Please select a file"], s)
  | Some file =>
      let failed progress e s' :=
        ({| selectedFile := selectedFile ui;
            uploading := false;
            uploadProgress := progress |},
         [ToastCaught e "Failed to upload document"], s') in
      match run_mutation (generateUploadUrl upload_url ctx) s with
      | (Throw e, s1) => failed 10%Z e s1
      | (Ok _, s1) =>
          match post with
          | PostFailed => failed 20%Z (PlatformError "Failed to fetch") s1
          | PostNotOk => failed 20%Z (PlatformError "Failed to upload file") s1
          | PostStored storageId =>
              let s2 := {| knowledgeBase := knowledgeBase s1;
                           nextId := nextId s1;
                           blobs := blobs s1 ∪ {[storageId]} |} in
              match extractTextFromFile file with
              | None => failed 50%Z (PlatformError "Failed to read file") s2
              | Some content =>
                  match run_mutation
                          (create ctx (upload_args file content storageId))
                          s2 with
                  | (Throw e, s3) => failed 70%Z e s3
                  | (Ok documentId, s3) =>
                      match generateEmbedding documentId s3 with
                      | (Throw e, s4) => failed 85%Z e s4
                      | (Ok _, s4) =>
                          ({| selectedFile := None;
                              uploading := false;
                              uploadProgress := 0 |},
                           [ToastSuccess "Document uploaded successfully!"],
                           s4)
                      end
                  end
              end
          end
      end
  end.

End Knowledge.

(** * The public widget settings (convex/public/widgetSettings.ts) *)

Module Widget.

Inductive Theme := light | dark | system.

(** The [widgetSettings] table of schema.ts. *)
Record Suggestions := mkSuggestions {
  suggestion1 : option jsstring;
  suggestion2 : option jsstring;
  suggestion3 : option jsstring
}.

Record VapiSettings := mkVapiSettings {
  assistantId : option jsstring;
  phoneNumber : option jsstring
}.

Record WidgetSettings := mkWidgetSettings {
  ws_organizationId : jsstring;
  ws_theme : option Theme;
  ws_icon : option jsstring;
  ws_title : option jsstring;
  ws_visibility : option bool;
  ws_greetMessage : jsstring;
  ws_defaultSuggestions : Suggestions;
  ws_vapiSettings : VapiSettings
}.

(** [.withIndex("by_organization_id", q => q.eq("organizationId",
    org)).unique()]: the one matching row, null when there is none, and
    an error when there are several. *)
Definition unique_by_organization_id (org : jsstring)
  (table : list WidgetSettings) : Outcome (option WidgetSettings) :=
  match List.filter (fun r => eqb (ws_organizationId r) org) table with
  | [] => Ok None
  | [r] => Ok (Some r)
  | _ :: _ :: _ => Throw (PlatformError "unique() query returned more than one result")
  end.

(** What [getByOrganizationId] returns to the widget. *)
Record PublicSettings := mkPublicSettings {
  theme : Theme;
  icon : option jsstring;
  title : jsstring;
  visibility : bool;
  greetMessage : jsstring;
  defaultSuggestions : Suggestions;
  vapiSettings : VapiSettings
}.

Definition default_title : jsstring := lit "Support Chat".
Definition default_greeting : jsstring := lit "Hello! How can I help you today?".

(** [a ?? b] *)
Definition nullish {A} (a : option A) (b : A) : A :=
  match a with Some x => x | None => b end.

Definition getByOrganizationId (organizationId : jsstring)
  (table : list WidgetSettings) : Outcome (option PublicSettings) :=
  if falsy organizationId then Ok None
  else
    match unique_by_organization_id organizationId table with
    | Throw e => Throw e
    | Ok None =>
        Ok (Some {| theme := system;
                    icon := None;
                    title := default_title;
                    visibility := true;
                    greetMessage := default_greeting;
                    defaultSuggestions := mkSuggestions None None None;
                    vapiSettings := mkVapiSettings None None |})
    | Ok (Some widgetSettings) =>
        Ok (Some {| theme := nullish (ws_theme widgetSettings) system;
                    icon := ws_icon widgetSettings;
                    title := nullish (ws_title widgetSettings) default_title;
                    visibility := nullish (ws_visibility widgetSettings) true;
                    greetMessage := ws_greetMessage widgetSettings;
                    defaultSuggestions := ws_defaultSuggestions widgetSettings;
                    vapiSettings := ws_vapiSettings widgetSettings |})
    end.

(** [widgetSettings?.greetMessage || default] *)
Definition getGreeting (organizationId : jsstring)
  (table : list WidgetSettings) : Outcome jsstring :=
  if falsy organizationId then Ok default_greeting
  else
    match unique_by_organization_id organizationId table with
    | Throw e => Throw e
    | Ok None => Ok default_greeting
    | Ok (Some widgetSettings) =>
        Ok (if falsy (ws_greetMessage widgetSettings) then default_greeting
            else ws_greetMessage widgetSettings)
    end.

(** [!!s] for an optional string. *)
Definition truthy (s : option jsstring) : bool :=
  match s with
  | Some x => negb (falsy x)
  | None => false
  end.

(** [[s1, s2, s3].filter((s) => !!s)] *)
Definition filter_truthy (l : list (option jsstring)) : list jsstring :=
  omap (fun s => if truthy s then s else None) l.

Definition getSuggestions (organizationId : jsstring)
  (table : list WidgetSettings) : Outcome (list jsstring) :=
  if falsy organizationId then Ok []
  else
    match unique_by_organization_id organizationId table with
    | Throw e => Throw e
    | Ok None => Ok []
    | Ok (Some widgetSettings) =>
        Ok (filter_truthy
              [suggestion1 (ws_defaultSuggestions widgetSettings);
               suggestion2 (ws_defaultSuggestions widgetSettings);
               suggestion3 (ws_defaultSuggestions widgetSettings)])
    end.

End Widget.

(** * The user-agent parser (apps/web/lib/user-agent-utils.ts) *)

Module UserAgent.

(** [\d] *)
Definition is_digit (c : code_unit) : bool :=
  ((0x30 <=? c) && (c <=? 0x39))%N.

(** What follows [p] when [s] starts with [p]. *)
Fixpoint starts_with (p s : jsstring) : option jsstring :=
  match p, s with
  | [], _ => Some s
  | a :: p', b :: s' => if (a =? b)%N then starts_with p' s' else None
  | _ :: _, [] => None
  end.

(** [s.includes(sub)] *)
Fixpoint includes (sub s : jsstring) : bool :=
  match starts_with sub s with
  | Some _ => true
  | None =>
      match s with
      | [] => false
      | _ :: s' => includes sub s'
      end
  end.

(** The longest run of digits at the front of [s], and the rest. *)
Fixpoint span_digits (s : jsstring) : jsstring * jsstring :=
  match s with
  | c :: s' =>
      if is_digit c
      then let (d, r) := span_digits s' in (c :: d, r)
      else ([], s)
  | [] => ([], [])
  end.

(** [(\d+S\d+)] at the front of [s], for a separator class [S]: both
    runs of digits are taken whole. *)
Definition version_at (sep : code_unit -> bool) (s : jsstring)
  : option jsstring :=
  match span_digits s with
  | ([], _) => None
  | (_, []) => None
  | (d1, c :: r) =>
      if sep c then
        match span_digits r with
        | ([], _) => None
        | (d2, _) => Some (d1 ++ c :: d2)
        end
      else None
  end.

(** [(\d+(\.\d+)?)] at the front of [s]. *)
Definition version_opt_at (s : jsstring) : option jsstring :=
  match span_digits s with
  | ([], _) => None
  | (d1, []) => Some d1
  | (d1, c :: r) =>
      if (c =? 0x2E)%N then
        match span_digits r with
        | ([], _) => Some d1
        | (d2, _) => Some (d1 ++ c :: d2)
        end
      else Some d1
  end.

(** [s.match(/P(C)/)]: group 1 of the leftmost match of the literal [P]
    followed by the capture [C], or [None] when there is no match. *)
Fixpoint match_after (prefix : jsstring)
  (capture : jsstring -> option jsstring) (s : jsstring) : option jsstring :=
  match match starts_with prefix s with
        | Some r => capture r
        | None => None
        end with
  | Some v => Some v
  | None =>
      match s with
      | [] => None
      | _ :: s' => match_after prefix capture s'
      end
  end.

Definition is_dot (c : code_unit) : bool := (c =? 0x2E)%N.
Definition is_underscore (c : code_unit) : bool := (c =? 0x5F)%N.
Definition is_dot_or_underscore (c : code_unit) : bool :=
  is_dot c || is_underscore c.

(** [v.replace(/_/g, ".")] *)
Definition underscores_to_dots (v : jsstring) : jsstring :=
  map (fun c => if is_underscore c then 0x2E%N else c) v.

Record ParsedUserAgent := mkParsed {
  browser : jsstring;
  os : jsstring;
  deviceType : jsstring
}.

(** [match ? `Name ${match[1]}` : "Name"] *)
Definition named (name : jsstring) (m : option jsstring) : jsstring :=
  match m with
  | Some v => name ++ lit " " ++ v
  | None => name
  end.

Definition parseBrowser (userAgent : jsstring) : jsstring :=
  if includes (lit "Firefox") userAgent
     && negb (includes (lit "Seamonkey") userAgent) then
    named (lit "Firefox")
      (match_after (lit "Firefox/") (version_at is_dot) userAgent)
  else if includes (lit "Edg/") userAgent then
    named (lit "Edge") (match_after (lit "Edg/") (version_at is_dot) userAgent)
  else if includes (lit "Chrome") userAgent
          && negb (includes (lit "Edg") userAgent) then
    named (lit "Chrome")
      (match_after (lit "Chrome/") (version_at is_dot) userAgent)
  else if includes (lit "Safari") userAgent
          && negb (includes (lit "Chrome") userAgent) then
    named (lit "Safari")
      (match_after (lit "Version/") (version_at is_dot) userAgent)
  else if includes (lit "MSIE") userAgent
          || includes (lit "Trident/") userAgent then
    lit "Internet Explorer"
  else lit "Unknown".

Definition parseOS (userAgent : jsstring) : jsstring :=
  if includes (lit "Windows NT 10.0") userAgent then lit "Windows 10/11"
  else if includes (lit "Windows NT 6.3") userAgent then lit "Windows 8.1"
  else if includes (lit "Windows NT 6.2") userAgent then lit "Windows 8"
  else if includes (lit "Windows NT 6.1") userAgent then lit "Windows 7"
  else if includes (lit "Windows") userAgent then lit "Windows"
  else if includes (lit "Mac OS X") userAgent then
    named (lit "macOS")
      (option_map underscores_to_dots
         (match_after (lit "Mac OS X ") (version_at is_dot_or_underscore)
            userAgent))
  else if includes (lit "Android") userAgent then
    named (lit "Android") (match_after (lit "Android ") version_opt_at userAgent)
  else if includes (lit "Linux") userAgent then lit "Linux"
  else if includes (lit "iOS") userAgent
          || includes (lit "iPhone") userAgent
          || includes (lit "iPad") userAgent then
    named (lit "iOS")
      (option_map underscores_to_dots
         (match_after (lit "OS ") (version_at is_underscore) userAgent))
  else lit "Unknown".

Definition parseDeviceType (userAgent : jsstring) : jsstring :=
  if includes (lit "Mobile") userAgent || includes (lit "Android") userAgent
  then lit "Mobile"
  else if includes (lit "Tablet") userAgent || includes (lit "iPad") userAgent
  then lit "Tablet"
  else lit "Desktop".

(** [parseUserAgent(userAgent?)]: the three parts are computed one after
    the other from the same string. *)
Definition parseUserAgent (userAgent : option jsstring) : ParsedUserAgent :=
  match userAgent with
  | None => mkParsed (lit "Unknown") (lit "Unknown") (lit "Unknown")
  | Some ua =>
      if falsy ua
      then mkParsed (lit "Unknown") (lit "Unknown") (lit "Unknown")
      else mkParsed (parseBrowser ua) (parseOS ua) (parseDeviceType ua)
  end.

End UserAgent.

(** * The integrations hook (apps/web/modules/integrations) *)

Module Integrations.

(** What [useQuery] returns: undefined while loading, then null or the
    value. *)
Inductive QueryResult (A : Type) :=
| Loading
| Loaded (a : option A).
Arguments Loading {A}.
Arguments Loaded {A} a.

Record Filters := mkFilters {
  selectedCategory : jsstring;
  searchQuery : jsstring;
  showConnectedOnly : bool
}.

Record Stats := mkStats {
  total : nat;
  connected : nat;
  available : nat;
  comingSoon : nat
}.

Section Hook.
(** The catalogue and its two filters live in the module's constants,
    which the hook imports; they are parameters here, as are the plugin
    record and the fields of an integration that the hook reads. *)
Variable Integration : Type.
Variable integration_id : Integration -> jsstring.
Variable integration_status : Integration -> jsstring.
Variable AVAILABLE_INTEGRATIONS : list Integration.
Variable filterIntegrationsByCategory : jsstring -> list Integration.
Variable searchIntegrations : jsstring -> list Integration.
Variable Plugin : Type.

(** The set of connected services: ["vapi"] when the plugin is there. *)
Definition connectedIntegrations (vapiPlugin : QueryResult Plugin)
  : list jsstring :=
  match vapiPlugin with
  | Loaded (Some _) => [lit "vapi"]
  | _ => []
  end.

(** [connectedIntegrations.has(id)] *)
Definition has (set : list jsstring) (id : jsstring) : bool :=
  existsb (fun x => eqb x id) set.

Definition filteredIntegrations (f : Filters) (vapiPlugin : QueryResult Plugin)
  : list Integration :=
  let integrations := AVAILABLE_INTEGRATIONS in
  let integrations :=
    if negb (eqb (selectedCategory f) (lit "all"))
    then filterIntegrationsByCategory (selectedCategory f)
    else integrations in
  let integrations :=
    if negb (blank (searchQuery f))
    then searchIntegrations (searchQuery f)
    else integrations in
  if showConnectedOnly f
  then List.filter
         (fun integration =>
            has (connectedIntegrations vapiPlugin) (integration_id integration))
         integrations
  else integrations.

Definition stats (vapiPlugin : QueryResult Plugin) : Stats :=
  {| total := length AVAILABLE_INTEGRATIONS;
     connected := length (connectedIntegrations vapiPlugin);
     available :=
       length (List.filter
                 (fun i => eqb (integration_status i) (lit "available"))
                 AVAILABLE_INTEGRATIONS);
     comingSoon :=
       length (List.filter
                 (fun i => eqb (integration_status i) (lit "coming-soon"))
                 AVAILABLE_INTEGRATIONS) |}.

Definition isConnected (vapiPlugin : QueryResult Plugin)
  (integrationId : jsstring) : bool :=
  has (connectedIntegrations vapiPlugin) integrationId.

Definition resetFilters : Filters := mkFilters (lit "all") [] false.

Definition hasActiveFilters (f : Filters) : bool :=
  negb (eqb (selectedCategory f) (lit "all"))
  || negb (eqb (trim (searchQuery f)) [])
  || showConnectedOnly f.

Definition isLoading (vapiPlugin : QueryResult Plugin) : bool :=
  match vapiPlugin with Loading => true | Loaded _ => false end.
End Hook.

End Integrations.

(** * The public Vapi secrets (convex/public/secrets.ts) *)

Module Secrets.

(** The parsed secret; a field that the stored JSON lacks is absent. *)
Record VapiSecretData := mkVapiSecretData {
  privateApiKey : option jsstring;
  publicApiKey : option jsstring
}.

Record PublicSecrets := mkPublicSecrets { publicKey : jsstring }.

Section Actions.
(** The plugin query and the two helpers of lib/secrets are imported by
    the file; they are parameters here. [getSecretValue] gives [None]
    when it throws. *)
Variable Plugin : Type.
Variable secretName : Plugin -> jsstring.
Variable getByOrganizationIdAndService :
  jsstring -> jsstring -> Outcome (option Plugin).
Variable Secret : Type.
Variable getSecretValue : jsstring -> option Secret.
Variable parseSecretString : Secret -> option VapiSecretData.

Definition getVapiSecrets (organizationId : jsstring)
  : Outcome (option PublicSecrets) :=
  if falsy organizationId then Ok None
  else
    match getByOrganizationIdAndService organizationId (lit "vapi") with
    | Throw e => Throw e
    | Ok None => Ok None
    | Ok (Some plugin) =>
        match getSecretValue (secretName plugin) with
        | None => Ok None
        | Some secret =>
            match parseSecretString secret with
            | None => Ok None
            | Some secretData =>
                match publicApiKey secretData with
                | None => Ok None
                | Some key =>
                    if falsy key then Ok None
                    else Ok (Some {| publicKey := key |})
                end
            end
        end
    end.

Definition checkVapiConfigured (organizationId : jsstring) : Outcome bool :=
  if falsy organizationId then Ok false
  else
    match getByOrganizationIdAndService organizationId (lit "vapi") with
    | Throw e => Throw e
    | Ok None => Ok false
    | Ok (Some _) => Ok true
    end.
End Actions.

End Secrets.

(** * Vocabulary of the further statements *)

(** The ids of the table are distinct and were all handed out already. *)
Definition wf_db (s : DB) : Prop :=
  NoDup (map fst (knowledgeBase s)) /\
  Forall (fun id => (id < nextId s)%N) (map fst (knowledgeBase s)).

Definition unauthorized (e : Error) : Prop :=
  error_code e = Some UNAUTHORIZED.

Definition not_found : Error := ConvexError NOT_FOUND "Document not found".

(** The caller is not signed in, or has no organization. *)
Definition anonymous (ctx : Ctx) : Prop :=
  forall org, ~ authenticated ctx org.

(** The rows of an organization, in table order. *)
Definition rows_of (org : jsstring) (s : DB) : list (Id * Doc) :=
  List.filter (fun r => eqb (organizationId (snd r)) org) (knowledgeBase s).

(** A file extension: not empty, and without ["."] and ["/"]. *)
Definition is_extension (ext : jsstring) : Prop :=
  ext <> [] /\ Forall (fun c => c <> 0x2E%N /\ c <> 0x2F%N) ext.

(** A run of digits that is not empty. *)
Definition is_number (d : jsstring) : Prop :=
  d <> [] /\ Forall (fun c => UserAgent.is_digit c = true) d.

(** A version: a number, a ["."] and a number. *)
Definition is_version (v : jsstring) : Prop :=
  exists d1 d2, v = d1 ++ 0x2E%N :: d2 /\ is_number d1 /\ is_number d2.

(** * Further sample data, for worked instances *)

Module Sample2.
Import Sample.

(** A member of [org_b], and a caller who is not signed in. *)
Definition ctx_b : Ctx :=
  {| identity := Some {| orgId := Some org_b |}; now := 1700000000500 |}.

Definition ctx_anon : Ctx := {| identity := None; now := 1700000000900 |}.

Definition faq : CreateArgs :=
  mkCreateArgs (lit "FAQ") (lit "Ask us anything") (lit "text/plain")
    (lit "faq.txt") None None.

Definition url_of (sid : StorageId) : jsstring :=
  lit "https://files.example/" ++ [(48 + sid)%N].

(** The widget settings of [org_a]; [org_b] has none. *)
Definition settings_a : Widget.WidgetSettings :=
  Widget.mkWidgetSettings org_a (Some Widget.dark) None (Some []) None []
    (Widget.mkSuggestions (Some (lit "Pricing")) (Some []) None)
    (Widget.mkVapiSettings None None).

Definition manual_pdf : Knowledge.File :=
  Knowledge.mkFile (lit "manual.v2.pdf") (lit "application/pdf") 2048 None.

(** A text file whose name is an extension only. *)
Definition dot_txt : Knowledge.File :=
  Knowledge.mkFile (lit ".txt") (lit "text/plain") 12 (Some (lit "hello world!")).

Definition movie : Knowledge.File :=
  Knowledge.mkFile (lit "demo.mp4") (lit "video/mp4") 4096 None.

Definition rename_ui : Knowledge.ListState :=
  Knowledge.mkListState false true (Some 2%N) (lit " Delivery ") None.

(** An embedding action that does nothing. *)
Definition no_embedding (id : Id) (s : DB) : Outcome unit * DB := (Ok tt, s).

Definition iphone : jsstring :=
  lit "Mozilla/5.0 (iPhone; CPU iPhone OS 16_0 like Mac OS X) AppleWebKit/605.1.15 (KHTML, like Gecko) Version/16.0 Mobile/15E148 Safari/604.1".

Definition android_tablet : jsstring :=
  lit "Mozilla/5.0 (Linux; Android 13; SM-X700 Tablet) AppleWebKit/537.36 (KHTML, like Gecko) Chrome/119.0.0.0 Safari/537.36".

(** A provider whose single-text method fails on the empty input. *)
Definition picky : jsstring -> Adapter.ProviderResult :=
  fun x => match x with
           | [] => inl "empty input"%string
           | _ => inr (Adapter.vec (embed_query x))
           end.

(** A provider with both call shapes: the single-text method rejects
    every call, the batch method computes [embed_query]. *)
Definition single_rejects : Adapter.Provider :=
  Adapter.mkProvider
    (Some (fun _ => inl "quota exceeded"%string))
    (Some (fun xs => inr (Adapter.JArr
                            (map (fun x => Adapter.vec (embed_query x)) xs)))).




(** A catalogue of two integrations, given by their ids. *)
Definition catalogue : list jsstring := [lit "vapi"; lit "slack"].

Definition by_category (category : jsstring) : list jsstring :=
  if eqb category (lit "voice") then [lit "vapi"] else [].

Definition by_search (query : jsstring) : list jsstring :=
  List.filter (fun i => UserAgent.includes (trim query) i) catalogue.

(** A plugin table answering for [org_a] only, and a secret store. *)
Definition plugin_of (org service : jsstring) : Outcome (option jsstring) :=
  if eqb org org_a then Ok (Some (lit "tenant/org_a/vapi")) else Ok None.

Definition secret_of (name : jsstring) : option Secrets.VapiSecretData :=
  Some (Secrets.mkVapiSecretData (Some (lit "sk_private")) (Some (lit "pk_public"))).

End Sample2.

(** * Properties *)

(** ** Strings *)

Lemma trimStart_nil (s : jsstring) :
  trimStart s = [] <-> whitespace_only s.
Proof.
  unfold whitespace_only. induction s as [|c s IH]; simpl.
  - split; [constructor | reflexivity].
  - destruct (is_white_space c) eqn:Hc.
    + rewrite IH. split; [by constructor | by inversion 1].
    + split; [discriminate | inversion 1; congruence].
Qed.

Lemma trimStart_head (s : jsstring) c t :
  trimStart s = c :: t -> is_white_space c = false.
Proof.
  induction s as [|a s IH]; simpl; [discriminate|].
  destruct (is_white_space a) eqn:Ha; [exact IH | congruence].
Qed.

(** [!s.trim()] holds exactly for the strings that are empty or white
    space only. *)
Lemma blank_spec (s : jsstring) :
  blank s = true <-> whitespace_only s.
Proof.
  unfold blank, trim, trimEnd.
  destruct (trimStart s) as [|c t] eqn:Hs.
  - simpl. split; [intros _; by apply trimStart_nil | reflexivity].
  - split.
    + intros Hb.
      assert (Hnil : trimStart (rev (c :: t)) = []).
      { destruct (trimStart (rev (c :: t))) as [|x l] eqn:E; [reflexivity|].
        simpl in Hb. destruct (rev l ++ [x]) eqn:E'; [|discriminate].
        by destruct (rev l). }
      apply trimStart_nil in Hnil. unfold whitespace_only in Hnil.
      rewrite Forall_forall in Hnil.
      pose proof (trimStart_head _ _ _ Hs) as Hc.
      rewrite (Hnil c) in Hc; [discriminate|].
      apply list_elem_of_In, in_rev. rewrite rev_involutive. by left.
    + intros Hw. apply trimStart_nil in Hw. congruence.
Qed.

Lemma blank_false_nonempty (s : jsstring) :
  blank s = false -> s <> [].
Proof.
  intros Hb ->. discriminate Hb.
Qed.

Lemma eqb_true (a b : jsstring) : eqb a b = true <-> a = b.
Proof. unfold eqb. apply bool_decide_eq_true. Qed.

Lemma eqb_false (a b : jsstring) : eqb a b = false <-> a <> b.
Proof. unfold eqb. apply bool_decide_eq_false. Qed.

(** ** Rows *)

Lemma lookup_row_elem (id : Id) (rows : list (Id * Doc)) d :
  lookup_row id rows = Some d -> (id, d) ∈ rows.
Proof.
  induction rows as [|[i x] rows IH]; simpl; [discriminate|].
  destruct (N.eqb_spec i id) as [->|Hne].
  - intros [= ->]. left.
  - intros H. right. auto.
Qed.

Lemma lookup_row_unique (id : Id) (rows : list (Id * Doc)) d :
  NoDup (map fst rows) -> (id, d) ∈ rows -> lookup_row id rows = Some d.
Proof.
  induction rows as [|[i x] rows IH]; simpl; intros Hnd Hin.
  - by apply elem_of_nil in Hin.
  - apply NoDup_cons in Hnd as [Hni Hnd].
    apply elem_of_cons in Hin as [[= <- <-]|Hin].
    + by rewrite N.eqb_refl.
    + destruct (N.eqb_spec i id) as [->|Hne]; [|auto].
      exfalso. apply Hni.
      change id with (fst (id, d)). by apply list_elem_of_fmap_2.
Qed.

Lemma lookup_replace_row_eq (id : Id) d' (rows : list (Id * Doc)) d :
  lookup_row id rows = Some d ->
  lookup_row id (replace_row id d' rows) = Some d'.
Proof.
  induction rows as [|[i x] rows IH]; simpl; [discriminate|].
  destruct (N.eqb_spec i id) as [->|Hne]; simpl.
  - by rewrite N.eqb_refl.
  - destruct (N.eqb_spec i id); [contradiction | exact IH].
Qed.

Lemma lookup_replace_row_ne (id id' : Id) d' (rows : list (Id * Doc)) :
  id' <> id ->
  lookup_row id' (replace_row id d' rows) = lookup_row id' rows.
Proof.
  intros Hne. induction rows as [|[i x] rows IH]; simpl; [reflexivity|].
  destruct (N.eqb_spec i id) as [->|Hi]; simpl.
  - destruct (N.eqb_spec id id'); [congruence | reflexivity].
  - by rewrite IH.
Qed.

Lemma replace_row_ids (id : Id) d' (rows : list (Id * Doc)) :
  map fst (replace_row id d' rows) = map fst rows.
Proof.
  induction rows as [|[i x] rows IH]; simpl; [reflexivity|].
  destruct (N.eqb_spec i id); simpl; congruence.
Qed.

Lemma elem_of_replace_row (id : Id) d' (rows : list (Id * Doc)) r :
  r ∈ replace_row id d' rows -> r ∈ rows \/ r = (id, d').
Proof.
  induction rows as [|[i x] rows IH]; simpl; [by left|].
  destruct (N.eqb_spec i id) as [->|Hi].
  - intros [->|H]%elem_of_cons; [by right | left; by right].
  - intros [->|H]%elem_of_cons; [left; by left|].
    destruct (IH H) as [?|?]; [left; by right | by right].
Qed.

Lemma lookup_row_filter_out (id : Id) (rows : list (Id * Doc)) :
  lookup_row id (List.filter (fun r => negb (fst r =? id)%N) rows) = None.
Proof.
  induction rows as [|[i x] rows IH]; simpl; [reflexivity|].
  destruct (N.eqb_spec i id) as [->|Hi]; simpl; [exact IH|].
  destruct (N.eqb_spec i id); [contradiction | exact IH].
Qed.

Lemma lookup_row_filter_other (id id' : Id) (rows : list (Id * Doc)) :
  id' <> id ->
  lookup_row id' (List.filter (fun r => negb (fst r =? id)%N) rows)
  = lookup_row id' rows.
Proof.
  intros Hne. induction rows as [|[i x] rows IH]; simpl; [reflexivity|].
  destruct (N.eqb_spec i id) as [->|Hi]; simpl.
  - destruct (N.eqb_spec id id'); [congruence | exact IH].
  - by rewrite IH.
Qed.

(** ** The handler prelude *)

Ltac unfold_handler :=
  unfold bind, ret, throw, db_get, db_insert, db_patch, db_delete,
    storage_delete, collect_by_organization_id in *.

Lemma requireOrg_ok ctx org s :
  authenticated ctx org -> requireOrg ctx s = (Ok org, s).
Proof.
  intros (ident & Hi & Ho & Hne). unfold requireOrg. rewrite Hi, Ho.
  destruct org; [congruence | reflexivity].
Qed.

Lemma requireOrg_inv ctx s out s' :
  requireOrg ctx s = (out, s') ->
  s' = s /\
  match out with
  | Ok org => authenticated ctx org
  | Throw e => error_code e = Some UNAUTHORIZED /\
               forall org, ~ authenticated ctx org
  end.
Proof.
  unfold requireOrg, authenticated.
  destruct (identity ctx) as [ident|] eqn:Hi; unfold_handler.
  - destruct (orgId ident) as [org|] eqn:Ho.
    + destruct org as [|c org]; simpl; intros [= <- <-]; split; try done.
      * split; [done|]. intros org (i & Hi' & Ho' & Hne). congruence.
      * exists ident. by repeat split.
    + intros [= <- <-]. split; [done|]. split; [done|].
      intros org (i & Hi' & Ho' & Hne). congruence.
  - intros [= <- <-]. split; [done|]. split; [done|].
    intros org (i & Hi' & _). congruence.
Qed.

Lemma requireOwned_ok org id s d :
  lookup_row id (knowledgeBase s) = Some d ->
  organizationId d = org ->
  requireOwned org id s = (Ok d, s).
Proof.
  intros Hl Ho. unfold requireOwned. unfold_handler. rewrite Hl.
  apply eqb_true in Ho. by rewrite Ho.
Qed.

Lemma requireOwned_foreign org id s d :
  lookup_row id (knowledgeBase s) = Some d ->
  organizationId d <> org ->
  requireOwned org id s = (Throw (ConvexError FORBIDDEN "Access denied"), s).
Proof.
  intros Hl Ho. unfold requireOwned. unfold_handler. rewrite Hl.
  apply eqb_false in Ho. by rewrite Ho.
Qed.

Lemma requireOwned_inv org id s out s' :
  requireOwned org id s = (out, s') ->
  s' = s /\
  match out with
  | Ok d => lookup_row id (knowledgeBase s) = Some d /\ organizationId d = org
  | Throw e => error_code e = Some NOT_FOUND \/ error_code e = Some FORBIDDEN
  end.
Proof.
  unfold requireOwned. unfold_handler.
  destruct (lookup_row id (knowledgeBase s)) as [d|] eqn:Hl.
  - destruct (eqb (organizationId d) org) eqn:He; simpl; intros [= <- <-].
    + split; [done|]. split; [done | by apply eqb_true].
    + split; [done | by right].
  - intros [= <- <-]. split; [done | by left].
Qed.

(** ** Sorting keeps the elements *)

Lemma js_sort_insert_elem {A} (cmp : A -> A -> Z) (a x : A) (l : list A) :
  x ∈ sort_insert cmp a l <-> x = a \/ x ∈ l.
Proof.
  induction l as [|b l IH]; simpl.
  - rewrite list_elem_of_singleton, elem_of_nil. tauto.
  - destruct (cmp a b <=? 0)%Z.
    + by rewrite elem_of_cons.
    + rewrite !elem_of_cons, IH. tauto.
Qed.

Lemma js_sort_elem {A} (cmp : A -> A -> Z) (x : A) (l : list A) :
  x ∈ js_sort cmp l <-> x ∈ l.
Proof.
  induction l as [|a l IH]; simpl; [reflexivity|].
  rewrite js_sort_insert_elem, IH, elem_of_cons. tauto.
Qed.

(** ** Vector search *)

Section SearchFacts.
Import Retrieval.
Variable similarity : Vector -> Vector -> float64.

Lemma index_entries_elem (s : DB) (e : Id * Doc * Vector) :
  e ∈ index_entries s <->
  fst e ∈ knowledgeBase s /\ embedding (snd (fst e)) = Some (snd e).
Proof.
  unfold index_entries. rewrite list_elem_of_omap. split.
  - intros (r & Hr & He).
    destruct (embedding (snd r)) as [v|] eqn:Hv; [|discriminate].
    injection He as <-. by split.
  - intros [Hr He]. exists (fst e). split; [done|].
    rewrite He. by destruct e.
Qed.

(** Every hit of a search is a row of the table that carries an
    embedding and belongs to the tenant. *)
Lemma search_hit (s : DB) tenant q k (h : Id * float64) :
  h ∈ search similarity s tenant q k ->
  exists d v, (fst h, d) ∈ knowledgeBase s /\
              embedding d = Some v /\
              organizationId d = tenant /\
              snd h = similarity q v.
Proof.
  unfold search. intros Hh%subseteq_take.
  apply js_sort_elem in Hh.
  apply list_elem_of_fmap in Hh as (e & -> & He).
  apply list_elem_of_In, filter_In in He as [He Ht].
  apply list_elem_of_In, index_entries_elem in He as [Hr Hv].
  destruct e as [[i d] v]. simpl in *.
  exists d, v. repeat split; try done. by apply eqb_true.
Qed.
End SearchFacts.

(** ** The update object and its patch *)

Lemma patch_doc_updates (d : Doc) (now : Z) (t c : option jsstring) :
  patch_doc d (updates_of now t c) = Some (updated_doc now t c d).
Proof.
  destruct t, c; vm_compute; reflexivity.
Qed.

Lemma update_title_inv t u s out s' :
  update_title t u s = (out, s') ->
  s' = s /\
  match out with
  | Ok u' => field_ok t /\
             u' = match t with Some t => <["title" := VStr t]> u | None => u end
  | Throw e => bad_request e /\ exists x, t = Some x /\ blank x = true
  end.
Proof.
  unfold update_title, field_ok. unfold_handler. destruct t as [x|].
  - destruct (blank x) eqn:Hb; intros [= <- <-]; split; try done.
    + split; [done | by exists x].
    + split; [|done]. by intros ? [= <-].
  - intros [= <- <-]. split; [done|]. split; [|done]. by intros ? [=].
Qed.

Lemma update_content_inv c u s out s' :
  update_content c u s = (out, s') ->
  s' = s /\
  match out with
  | Ok u' => field_ok c /\
             u' = match c with
                  | Some c => <["embedding" := VUndefined]>
                                (<["content" := VStr c]> u)
                  | None => u
                  end
  | Throw e => bad_request e /\ exists x, c = Some x /\ blank x = true
  end.
Proof.
  unfold update_content, field_ok. unfold_handler. destruct c as [x|].
  - destruct (blank x) eqn:Hb; intros [= <- <-]; split; try done.
    + split; [done | by exists x].
    + split; [|done]. by intros ? [= <-].
  - intros [= <- <-]. split; [done|]. split; [|done]. by intros ? [=].
Qed.

(** [update] succeeds exactly when the caller owns the document and the
    given fields are not blank; otherwise it throws and writes nothing. *)
Lemma update_inv (ctx : Ctx) (args : UpdateArgs) (s : DB) out s' :
  update ctx args s = (out, s') ->
  match out with
  | Ok id =>
      id = u_documentId args /\
      exists org d,
        authenticated ctx org /\
        lookup_row id (knowledgeBase s) = Some d /\
        organizationId d = org /\
        field_ok (u_title args) /\ field_ok (u_content args) /\
        s' = updated_db ctx args d s
  | Throw e => s' = s /\ exists code, error_code e = Some code
  end.
Proof.
  unfold update, bind.
  destruct (requireOrg ctx s) as [[org|e] s1] eqn:Hr;
    apply requireOrg_inv in Hr as [-> Hr];
    [|intros [= <- <-]; split; [done | destruct Hr; by eexists]].
  destruct (requireOwned org (u_documentId args) s) as [[d|e] s1] eqn:Hq;
    apply requireOwned_inv in Hq as [-> Hq];
    [|intros [= <- <-]; split; [done | destruct Hq; by eexists]].
  destruct Hq as [Hl Ho].
  destruct (update_title _ _ s) as [[u1|e] s1] eqn:Ht;
    apply update_title_inv in Ht as [-> Ht];
    [|intros [= <- <-]; split; [done | destruct Ht; by eexists]].
  destruct Ht as [Hft ->].
  destruct (update_content _ _ s) as [[u2|e] s1] eqn:Hc;
    apply update_content_inv in Hc as [-> Hc];
    [|intros [= <- <-]; split; [done | destruct Hc; by eexists]].
  destruct Hc as [Hfc ->].
  unfold db_patch. rewrite Hl.
  change (match u_content args with
          | Some c => <["embedding" := VUndefined]> (<["content" := VStr c]>
               match u_title args with
               | Some t => <["title" := VStr t]> {["updatedAt" := VNum (now ctx)]}
               | None => {["updatedAt" := VNum (now ctx)]}
               end)
          | None => match u_title args with
               | Some t => <["title" := VStr t]> {["updatedAt" := VNum (now ctx)]}
               | None => {["updatedAt" := VNum (now ctx)]}
               end
          end) with (updates_of (now ctx) (u_title args) (u_content args)).
  rewrite patch_doc_updates. unfold ret. intros [= <- <-].
  split; [done|]. exists org, d. by repeat split.
Qed.

Lemma update_ok (ctx : Ctx) (args : UpdateArgs) (s : DB) org d :
  authenticated ctx org ->
  lookup_row (u_documentId args) (knowledgeBase s) = Some d ->
  organizationId d = org ->
  field_ok (u_title args) -> field_ok (u_content args) ->
  update ctx args s = (Ok (u_documentId args), updated_db ctx args d s).
Proof.
  intros Ha Hl Ho Ht Hc. unfold update, bind.
  rewrite (requireOrg_ok ctx org s Ha), (requireOwned_ok org _ s d Hl Ho).
  unfold update_title, update_content, field_ok in *. unfold_handler.
  destruct (u_title args) as [t|] eqn:Et, (u_content args) as [c|] eqn:Ec;
    rewrite ?(Ht _ eq_refl), ?(Hc _ eq_refl), Hl;
    pose proof (patch_doc_updates d (now ctx) (u_title args) (u_content args))
      as Hp;
    rewrite Et, Ec in Hp; cbv beta iota zeta delta [updates_of] in Hp;
    rewrite Hp; unfold updated_db; by rewrite Et, Ec.
Qed.

Lemma create_inv (ctx : Ctx) (args : CreateArgs) (s : DB) out s' :
  create ctx args s = (out, s') ->
  match out with
  | Ok id =>
      id = nextId s /\
      exists org,
        authenticated ctx org /\
        blank (c_title args) = false /\ blank (c_content args) = false /\
        s' = {| knowledgeBase :=
                  knowledgeBase s ++ [(nextId s, created_doc ctx org args)];
                nextId := N.succ (nextId s);
                blobs := blobs s |}
  | Throw e =>
      s' = s /\
      ((forall org, ~ authenticated ctx org) \/
       bad_request e /\
       (blank (c_title args) = true \/ blank (c_content args) = true))
  end.
Proof.
  unfold create, bind.
  destruct (requireOrg ctx s) as [[org|e] s1] eqn:Hr;
    apply requireOrg_inv in Hr as [-> Hr];
    [|intros [= <- <-]; split; [done | left; by destruct Hr]].
  unfold_handler.
  destruct (blank (c_title args)) eqn:Ht;
    [intros [= <- <-]; split; [done | right; split; [done | by left]]|].
  destruct (blank (c_content args)) eqn:Hc;
    [intros [= <- <-]; split; [done | right; split; [done | by right]]|].
  intros [= <- <-]. split; [done|]. exists org. by repeat split.
Qed.

Lemma not_blank (x : jsstring) : blank x = false <-> ~ whitespace_only x.
Proof.
  rewrite <- blank_spec. destruct (blank x); split; try done.
Qed.

Lemma remove_inv (ctx : Ctx) (id : Id) (s : DB) out s' :
  remove ctx id s = (out, s') ->
  match out with
  | Ok b =>
      b = true /\
      exists org d,
        authenticated ctx org /\
        lookup_row id (knowledgeBase s) = Some d /\
        organizationId d = org /\
        (forall sid, storageId d = Some sid -> sid ∈ blobs s) /\
        s' = removed_db id d s
  | Throw e => s' = s
  end.
Proof.
  unfold remove, bind.
  destruct (requireOrg ctx s) as [[org|e] s1] eqn:Hr;
    apply requireOrg_inv in Hr as [-> Hr]; [|by intros [= <- <-]].
  destruct (requireOwned org id s) as [[d|e] s1] eqn:Hq;
    apply requireOwned_inv in Hq as [-> Hq]; [|by intros [= <- <-]].
  destruct Hq as [Hl Ho]. unfold removed_db.
  destruct (storageId d) as [sid|] eqn:Hs; unfold_handler; simpl.
  - destruct (bool_decide (sid ∈ blobs s)) eqn:Hb; [|by intros [= <- <-]].
    apply bool_decide_eq_true in Hb. simpl. rewrite Hl.
    intros [= <- <-]. split; [done|]. exists org, d.
    repeat split; rewrite ?Hs; try done.
    intros sid' Hs'. by assert (sid' = sid) as -> by congruence.
  - rewrite Hl. intros [= <- <-]. split; [done|]. exists org, d.
    repeat split; rewrite ?Hs; try done.
Qed.


(** ** Tenant isolation *)

Lemma authenticated_unique ctx org org' :
  authenticated ctx org -> authenticated ctx org' -> org = org'.
Proof.
  intros (i & Hi & Ho & _) (i' & Hi' & Ho' & _). congruence.
Qed.

Lemma lookup_row_app_l (id : Id) (rows more : list (Id * Doc)) d :
  lookup_row id rows = Some d -> lookup_row id (rows ++ more) = Some d.
Proof.
  induction rows as [|[i x] rows IH]; simpl; [discriminate|].
  destruct (i =? id)%N; [done | exact IH].
Qed.

(** C2. Tenant isolation. When the caller acts for the organization
    [org] and the document [documentId] belongs to another organization,
    [getOne], [update] (whatever the partial fields) and [remove] throw
    the FORBIDDEN "Access denied" error and leave the database, blob store
    included, as it was; every hit of a vector search for [org] is a row
    of the table whose [organizationId] is [org]; and whatever the caller
    updates, removes or creates, the document of the other organization
    is stored afterwards as it was before. *)
Theorem tenant_isolation (ctx : Ctx) (s : DB) (org : jsstring)
  (documentId : Id) (d : Doc) :
  authenticated ctx org ->
  lookup_row documentId (knowledgeBase s) = Some d ->
  organizationId d <> org ->
  getOne ctx documentId s = (Throw access_denied, s) /\
  (forall t c, update ctx (mkUpdateArgs documentId t c) s
               = (Throw access_denied, s)) /\
  remove ctx documentId s = (Throw access_denied, s) /\
  (forall similarity q k h,
      h ∈ Retrieval.search similarity s org q k ->
      exists d', (fst h, d') ∈ knowledgeBase s /\ organizationId d' = org) /\
  (forall (uargs : UpdateArgs) (id' : Id) (cargs : CreateArgs),
      lookup_row documentId (knowledgeBase (snd (update ctx uargs s))) = Some d /\
      lookup_row documentId (knowledgeBase (snd (remove ctx id' s))) = Some d /\
      lookup_row documentId (knowledgeBase (snd (create ctx cargs s))) = Some d).
Proof.
  intros Ha Hl Ho.
  pose proof (requireOrg_ok ctx org s Ha) as Hr.
  pose proof (requireOwned_foreign org documentId s d Hl Ho) as Hf.
  split; [|split; [|split; [|split]]].
  - unfold getOne, bind. by rewrite Hr.
  - intros t c. unfold update, bind. simpl. by rewrite Hr, Hf.
  - unfold remove, bind. by rewrite Hr, Hf.
  - intros similarity q k h Hh.
    destruct (search_hit similarity s org q k h Hh) as (d' & v & ? & ? & ? & ?).
    by exists d'.
  - intros uargs id' cargs. split; [|split].
    + destruct (update ctx uargs s) as [[id|e] s'] eqn:Hu;
        apply update_inv in Hu; simpl; [|by destruct Hu as [-> _]].
      destruct Hu as (-> & org' & d0 & Ha' & Hl0 & Ho0 & _ & _ & ->).
      simpl. rewrite lookup_replace_row_ne; [done|].
      intros ->. rewrite Hl in Hl0. injection Hl0 as <-.
      apply Ho. rewrite Ho0. by apply (authenticated_unique ctx).
    + destruct (remove ctx id' s) as [[b|e] s'] eqn:Hrm;
        apply remove_inv in Hrm; simpl; [|by subst].
      destruct Hrm as (_ & org' & d0 & Ha' & Hl0 & Ho0 & _ & ->).
      simpl. rewrite lookup_row_filter_other; [done|].
      intros ->. rewrite Hl in Hl0. injection Hl0 as <-.
      apply Ho. rewrite Ho0. by apply (authenticated_unique ctx).
    + destruct (create ctx cargs s) as [[id|e] s'] eqn:Hc;
        apply create_inv in Hc; simpl; [|by destruct Hc as [-> _]].
      destruct Hc as (_ & org' & _ & _ & _ & ->). simpl.
      by apply lookup_row_app_l.
Qed.

(** What the readers return belongs to the caller: a document returned
    by [getOne] is the stored one and carries the caller's organization. *)
Lemma getOne_returns_own (ctx : Ctx) (s s' : DB) (documentId : Id) (d : Doc) :
  getOne ctx documentId s = (Ok d, s') ->
  s' = s /\ lookup_row documentId (knowledgeBase s) = Some d /\
  authenticated ctx (organizationId d).
Proof.
  unfold getOne, bind. destruct (requireOrg ctx s) as [[org|e] s1] eqn:Hr.
  - apply requireOrg_inv in Hr as [-> Ha]. intros Hq.
    apply requireOwned_inv in Hq as [-> [Hl <-]]. by repeat split.
  - discriminate.
Qed.

(** ** Validation of title and content *)

(** C7. [create] rejects a title or a content that is empty or white
    space only, and [update] rejects such a title or content when it is
    given: the handler throws and the database is left as it was, so no
    document is created or modified. For a signed-in caller (who, for
    [update], owns the document) the error is BAD_REQUEST. Hence the
    handlers keep the table free of blank titles and contents, and such
    a table holds no empty title and no empty content. *)
Theorem blank_title_or_content_rejected
  (ctx : Ctx) (s : DB) (cargs : CreateArgs) (uargs : UpdateArgs) :
  (whitespace_only (c_title cargs) \/ whitespace_only (c_content cargs) ->
   exists e, create ctx cargs s = (Throw e, s) /\
             (forall org, authenticated ctx org -> bad_request e)) /\
  (blank_given (u_title uargs) \/ blank_given (u_content uargs) ->
   exists e, update ctx uargs s = (Throw e, s) /\
             (forall org d,
                 authenticated ctx org ->
                 lookup_row (u_documentId uargs) (knowledgeBase s) = Some d ->
                 organizationId d = org ->
                 bad_request e)) /\
  (all_nonblank s ->
   all_nonblank (snd (create ctx cargs s)) /\
   all_nonblank (snd (update ctx uargs s)) /\
   all_nonblank (snd (remove ctx (u_documentId uargs) s)) /\
   forall r, r ∈ knowledgeBase s ->
             title (snd r) <> [] /\ content (snd r) <> []).
Proof.
  split; [|split].
  - intros Hw.
    destruct (create ctx cargs s) as [[id|e] s'] eqn:Hc;
      apply create_inv in Hc.
    + destruct Hc as (_ & org & _ & Ht & Hc & _).
      apply not_blank in Ht, Hc. tauto.
    + destruct Hc as [-> Hc]. exists e. split; [done|].
      intros org Ha. destruct Hc as [Hc|[Hc _]]; [|done].
      by destruct (Hc org).
  - intros Hw.
    destruct (update ctx uargs s) as [[id|e] s'] eqn:Hu.
    + apply update_inv in Hu as (_ & org & d & _ & _ & _ & Ht & Hc & _).
      exfalso. destruct Hw as [(x & Hx & Hw)|(x & Hx & Hw)].
      * apply Ht in Hx. by apply not_blank in Hx.
      * apply Hc in Hx. by apply not_blank in Hx.
    + pose proof (update_inv _ _ _ _ _ Hu) as [-> _].
      exists e. split; [done|]. intros org d Ha Hl Ho.
      revert Hu. unfold update, bind.
      rewrite (requireOrg_ok ctx org s Ha), (requireOwned_ok org _ s d Hl Ho).
      destruct (update_title _ _ s) as [[u1|e1] s1] eqn:Ht;
        apply update_title_inv in Ht as [-> Ht];
        [|intros [= <-]; by destruct Ht].
      destruct Ht as [Hft ->].
      destruct (update_content _ _ s) as [[u2|e2] s2] eqn:Hc;
        apply update_content_inv in Hc as [-> Hc];
        [|intros [= <-]; by destruct Hc].
      destruct Hc as [Hfc ->]. exfalso.
      destruct Hw as [(x & Hx & Hw)|(x & Hx & Hw)].
      * apply Hft in Hx. by apply not_blank in Hx.
      * apply Hfc in Hx. by apply not_blank in Hx.
  - intros Hinv. split; [|split; [|split]].
    + destruct (create ctx cargs s) as [[id|e] s'] eqn:Hc;
        apply create_inv in Hc; simpl.
      * destruct Hc as (_ & org & _ & Ht & Hc & ->).
        intros r [Hr|Hr]%elem_of_app; [by apply Hinv|].
        apply list_elem_of_singleton in Hr as ->. by split.
      * by destruct Hc as [-> _].
    + destruct (update ctx uargs s) as [[id|e] s'] eqn:Hu;
        apply update_inv in Hu; simpl.
      * destruct Hu as (_ & org & d & _ & Hl & _ & Ht & Hc & ->).
        intros r [Hr| ->]%elem_of_replace_row; [by apply Hinv|].
        apply lookup_row_elem in Hl. destruct (Hinv _ Hl) as [Hdt Hdc].
        simpl in *. split.
        -- destruct (u_title uargs); [by apply Ht | done].
        -- destruct (u_content uargs); [by apply Hc | done].
      * by destruct Hu as [-> _].
    + destruct (remove ctx (u_documentId uargs) s) as [[b|e] s'] eqn:Hr;
        apply remove_inv in Hr; simpl.
      * destruct Hr as (_ & org & d & _ & _ & _ & _ & ->).
        intros r Hr. apply Hinv.
        apply list_elem_of_In. apply list_elem_of_In, filter_In in Hr. tauto.
      * by subst.
    + intros r Hr. destruct (Hinv r Hr) as [Ht Hc].
      split; by apply blank_false_nonempty.
Qed.

(** ** Content edits clear the embedding *)

(** C1. Take an [update] whose partial fields include the content [c],
    on a table with distinct ids. If the call completes, the stored
    document has the content [c] and no embedding, and it is no entry of
    the vector index and no hit of any vector search; the content and the
    embedding are written by the one patch, so no database holds [c]
    next to the old embedding. If the call throws, the database is
    unchanged. The call completes when the caller owns the document, [c]
    is not blank and the title, when given, is not blank. *)
Theorem update_content_clears_embedding
  (ctx : Ctx) (args : UpdateArgs) (s : DB) (c : jsstring) :
  u_content args = Some c ->
  NoDup (map fst (knowledgeBase s)) ->
  match update ctx args s with
  | (Ok id, s') =>
      id = u_documentId args /\
      (exists d', lookup_row id (knowledgeBase s') = Some d' /\
                  content d' = c /\ embedding d' = None) /\
      (forall e, e ∈ Retrieval.index_entries s' -> fst (fst e) <> id) /\
      (forall similarity tenant q k h,
          h ∈ Retrieval.search similarity s' tenant q k -> fst h <> id)
  | (Throw _, s') => s' = s
  end /\
  (forall d, owns ctx s (u_documentId args) d ->
             blank c = false -> field_ok (u_title args) ->
             exists s', update ctx args s = (Ok (u_documentId args), s')).
Proof.
  intros Hc Hnd. split.
  - destruct (update ctx args s) as [[id|e] s'] eqn:Hu;
      apply update_inv in Hu; [|by destruct Hu].
    destruct Hu as (-> & org & d & Ha & Hl & Ho & Hft & Hfc & ->).
    set (d' := updated_doc (now ctx) (u_title args) (u_content args) d).
    assert (Hl' : lookup_row (u_documentId args)
                    (knowledgeBase (updated_db ctx args d s)) = Some d')
      by (simpl; by eapply lookup_replace_row_eq).
    assert (He : embedding d' = None) by (subst d'; simpl; by rewrite Hc).
    assert (Hnd' : NoDup (map fst (knowledgeBase (updated_db ctx args d s))))
      by (simpl; by rewrite replace_row_ids).
    assert (Hrow : forall x, (u_documentId args, x)
                               ∈ knowledgeBase (updated_db ctx args d s) ->
                             embedding x = None).
    { intros x Hx. apply (lookup_row_unique _ _ _ Hnd') in Hx.
      rewrite Hl' in Hx. by injection Hx as <-. }
    split; [done|]. split; [|split].
    + exists d'. repeat split; try done. subst d'. simpl. by rewrite Hc.
    + intros [[i x] v] [Hr Hv]%index_entries_elem Hi. simpl in *. subst i.
      rewrite (Hrow x Hr) in Hv. discriminate.
    + intros similarity tenant q k h Hh Hi.
      apply search_hit in Hh as (x & v & Hr & Hv & _). rewrite Hi in Hr.
      rewrite (Hrow x Hr) in Hv. discriminate.
  - intros d [Ha Hl] Hb Hft. eexists.
    apply (update_ok ctx args s (organizationId d) d); try done.
    intros x Hx. congruence.
Qed.

(** ** Removal cascades to the blob *)


(** ** The frame of an update *)

(** C10. A successful [update] of the document [id] leaves its
    [organizationId], [mimeType], [fileName], [embedUrl], [storageId] and
    [createdAt] as they were and sets [updatedAt]; the title changes only
    when a title is given, and without a content in the partial fields
    the content and the embedding are unchanged. Every other document,
    the ids of the table and the blob store are unchanged too. *)
Theorem update_frame (ctx : Ctx) (args : UpdateArgs) (s s' : DB) (id : Id) :
  update ctx args s = (Ok id, s') ->
  exists d d',
    lookup_row id (knowledgeBase s) = Some d /\
    lookup_row id (knowledgeBase s') = Some d' /\
    organizationId d' = organizationId d /\
    mimeType d' = mimeType d /\
    fileName d' = fileName d /\
    embedUrl d' = embedUrl d /\
    storageId d' = storageId d /\
    createdAt d' = createdAt d /\
    updatedAt d' = Some (now ctx) /\
    (u_title args = None -> title d' = title d) /\
    (u_content args = None ->
     content d' = content d /\ embedding d' = embedding d) /\
    (forall id', id' <> id ->
                 lookup_row id' (knowledgeBase s')
                 = lookup_row id' (knowledgeBase s)) /\
    map fst (knowledgeBase s') = map fst (knowledgeBase s) /\
    nextId s' = nextId s /\ blobs s' = blobs s.
Proof.
  intros Hu. apply update_inv in Hu.
  destruct Hu as (-> & org & d & Ha & Hl & Ho & Hft & Hfc & ->).
  exists d, (updated_doc (now ctx) (u_title args) (u_content args) d).
  simpl.
  split; [done|]. split; [by eapply lookup_replace_row_eq|].
  do 7 (split; [done|]).
  split; [by intros ->|]. split; [intros ->; by split|].
  split; [|split; [apply replace_row_ids | by split]].
  intros id' Hne. by apply lookup_replace_row_ne.
Qed.

(** ** Listing *)

Section SortFacts.
Context {A : Type} (cmp : A -> A -> Z).

Lemma sort_insert_perm (a : A) (l : list A) :
  sort_insert cmp a l ≡ₚ a :: l.
Proof.
  induction l as [|b l IH]; simpl; [reflexivity|].
  destruct (cmp a b <=? 0)%Z; [reflexivity|].
  rewrite IH. apply perm_swap.
Qed.

Lemma js_sort_perm (l : list A) : js_sort cmp l ≡ₚ l.
Proof.
  induction l as [|a l IH]; simpl; [reflexivity|].
  by rewrite sort_insert_perm, IH.
Qed.

(** The order decided by the comparator: [R a b] when [a] may stand in
    front of [b]. *)
Variable R : A -> A -> Prop.
Hypothesis R_trans : forall a b c, R a b -> R b c -> R a c.
Hypothesis cmp_le : forall a b, (cmp a b <= 0)%Z -> R a b.
Hypothesis cmp_gt : forall a b, (0 < cmp a b)%Z -> R b a.

Lemma sort_insert_sorted (a : A) (l : list A) :
  StronglySorted R l -> StronglySorted R (sort_insert cmp a l).
Proof using R_trans cmp_le cmp_gt.
  induction 1 as [|b l Hs IH Hb]; simpl.
  - repeat constructor.
  - destruct (Z.leb_spec (cmp a b) 0) as [Hle|Hgt].
    + constructor; [by constructor|].
      constructor; [by apply cmp_le|].
      eapply Forall_impl; [exact Hb|]. intros c Hc.
      eapply R_trans; [by apply cmp_le | exact Hc].
    + constructor; [exact IH|].
      rewrite (sort_insert_perm a l). constructor; [by apply cmp_gt | done].
Qed.

Lemma js_sort_sorted (l : list A) : StronglySorted R (js_sort cmp l).
Proof using R_trans cmp_le cmp_gt.
  induction l as [|a l IH]; simpl; [constructor|].
  by apply sort_insert_sorted.
Qed.
End SortFacts.

(** C9. For a signed-in caller of the organization [org], [getAll]
    succeeds without touching the database; its result is a
    rearrangement of the rows whose [organizationId] is [org], holds
    exactly those rows, and is sorted by [createdAt], newest first. For
    an organization without documents the result is the empty list. *)
Theorem getAll_own_newest_first (ctx : Ctx) (s : DB) (org : jsstring) :
  authenticated ctx org ->
  exists l,
    getAll ctx s = (Ok l, s) /\
    l ≡ₚ List.filter (fun r => eqb (organizationId (snd r)) org)
           (knowledgeBase s) /\
    (forall r, r ∈ l <-> r ∈ knowledgeBase s /\ organizationId (snd r) = org) /\
    StronglySorted not_older l /\
    ((forall r, r ∈ knowledgeBase s -> organizationId (snd r) <> org) ->
     l = []).
Proof.
  intros Ha.
  set (mine := List.filter (fun r : Id * Doc => eqb (organizationId (snd r)) org)
                 (knowledgeBase s)).
  exists (js_sort newest_first mine).
  assert (Hmine : forall r, r ∈ mine <->
                    r ∈ knowledgeBase s /\ organizationId (snd r) = org).
  { intros r. subst mine. rewrite !list_elem_of_In, filter_In, eqb_true.
    reflexivity. }
  split; [|split; [|split; [|split]]].
  - unfold getAll, bind. rewrite (requireOrg_ok ctx org s Ha). reflexivity.
  - apply js_sort_perm.
  - intros r. by rewrite js_sort_elem.
  - apply js_sort_sorted; unfold not_older, newest_first; intros; lia.
  - intros Hnone. destruct mine as [|r mine'] eqn:Hm; [reflexivity|].
    exfalso. destruct (proj1 (Hmine r)) as [Hr Ho]; [left|].
    by apply (Hnone r).
Qed.

(** ** The embedding adapter *)

Section AdapterFacts.
Import Adapter.

Lemma vec_not_nested (v : list float64) :
  isArray (vec v) && isArray (index0 (vec v)) = false.
Proof. by destruct v. Qed.

(** The fan-out path: single calls, one per input, in the order of the
    inputs. *)
Lemma promise_all_responses (e : jsstring -> ProviderResult)
  (inputs : list jsstring) (outs : list jsval) :
  Forall2 (fun x out => e x = inr out) inputs outs ->
  promise_all (map (fun s => await (e s)) inputs) = Fulfilled outs.
Proof.
  induction 1 as [|x out inputs outs Hx _ IH]; simpl; [reflexivity|].
  by rewrite Hx, IH.
Qed.

Lemma single_shape_responses f e (inputs : list jsstring) :
  single_shape f e ->
  Forall2 (fun x out => e x = inr out) inputs
    (map (fun x => vec (f x)) inputs).
Proof.
  intros He. induction inputs as [|x inputs IH]; simpl; constructor; auto.
Qed.

Lemma embedMany_implements (v1 : Provider) f (inputs : list jsstring) :
  implements v1 f -> exposes_a_method v1 ->
  embedMany v1 inputs = Fulfilled (JArr (map (fun x => vec (f x)) inputs)).
Proof.
  intros [Hs Hb] Hex. unfold embedMany.
  destruct (p_embedMany v1) as [g|] eqn:Hg.
  - by rewrite (Hb g eq_refl inputs).
  - destruct (p_embed v1) as [e|] eqn:He.
    + by rewrite (promise_all_responses e inputs _
                    (single_shape_responses f e inputs (Hs e eq_refl))).
    + destruct Hex as [[? ?]|[? ?]]; congruence.
Qed.

Lemma embed_implements (v1 : Provider) f (x : jsstring) :
  implements v1 f -> exposes_a_method v1 ->
  embed v1 x = Fulfilled (vec (f x)).
Proof.
  intros [Hs Hb] Hex. unfold embed.
  destruct (p_embed v1) as [e|] eqn:He.
  - rewrite (Hs e eq_refl x). simpl await. cbv iota.
    by rewrite vec_not_nested.
  - destruct (p_embedMany v1) as [g|] eqn:Hg.
    + by rewrite (Hb g eq_refl [x]).
    + destruct Hex as [[? ?]|[? ?]]; congruence.
Qed.

Lemma implements_single_only f : implements (single_only f) f.
Proof.
  split; simpl; intros ? He; try discriminate; injection He as <-;
    by intros ?.
Qed.

Lemma implements_batch_only f : implements (batch_only f) f.
Proof.
  split; simpl; intros ? He; try discriminate; injection He as <-;
    by intros ?.
Qed.

Lemma implements_single_and_batch f : implements (single_and_batch f) f.
Proof.
  split; simpl; intros ? He; try discriminate; injection He as <-;
    by intros ?.
Qed.
End AdapterFacts.

(** C3. Let the provider compute the embedding [f] through whichever
    call shapes it exposes, at least one. For every sequence of inputs,
    [embedMany] fulfils with an array of as many vectors as there are
    inputs, the i-th being the embedding of the i-th input; the result is
    the one obtained from the provider that exposes only the batch
    method, only the single-text method, or both. The adapter for the
    other SDK, [doEmbed], returns the SDK's embeddings likewise. *)
Theorem embedMany_preserves_length_and_order
  (v1 : Adapter.Provider) (f : jsstring -> list float64)
  (inputs : list jsstring) :
  Adapter.implements v1 f -> exposes_a_method v1 ->
  (exists vs,
      Adapter.embedMany v1 inputs = Adapter.Fulfilled (Adapter.JArr vs) /\
      length vs = length inputs /\
      forall i x, inputs !! i = Some x ->
                  vs !! i = Some (Adapter.vec (f x))) /\
  Adapter.embedMany (Adapter.batch_only f) inputs
  = Adapter.embedMany v1 inputs /\
  Adapter.embedMany (Adapter.single_only f) inputs
  = Adapter.embedMany v1 inputs /\
  Adapter.embedMany (Adapter.single_and_batch f) inputs
  = Adapter.embedMany v1 inputs /\
  (forall sdk, Adapter.batch_shape f sdk ->
               Adapter.doEmbed sdk inputs = Adapter.embedMany v1 inputs).
Proof.
  intros Hi Hex. rewrite (embedMany_implements v1 f inputs Hi Hex).
  split; [|split; [|split; [|split]]].
  - eexists. split; [reflexivity|]. split; [by rewrite length_map|].
    intros i x Hx. by rewrite list_lookup_fmap, Hx.
  - apply embedMany_implements; [apply implements_batch_only | right; by eexists].
  - apply embedMany_implements; [apply implements_single_only | left; by eexists].
  - apply embedMany_implements;
      [apply implements_single_and_batch | left; by eexists].
  - intros sdk Hsdk. unfold Adapter.doEmbed. by rewrite (Hsdk inputs).
Qed.

(** C5, as stated, fails: the provider exposes both call shapes and its
    batch method answers the call with the vector, so that a method can
    satisfy the call; yet [embed] rejects, with the reason of the
    single-text method, the only one it tried. The same provider without
    the single-text method is answered. *)
Lemma embed_rejects_although_batch_answers :
  exposes_a_method Sample2.single_rejects /\
  (exists g, Adapter.p_embedMany Sample2.single_rejects = Some g /\
             g [lit "refunds"]
             = inr (Adapter.JArr
                      [Adapter.vec (Sample.embed_query (lit "refunds"))])) /\
  Adapter.embed Sample2.single_rejects (lit "refunds")
  = Adapter.Rejected (Adapter.ProviderRejected "quota exceeded") /\
  Adapter.embed
    (Adapter.mkProvider None (Adapter.p_embedMany Sample2.single_rejects))
    (lit "refunds")
  = Adapter.Fulfilled (Adapter.vec (Sample.embed_query (lit "refunds"))).
Proof.
  split; [left; by eexists|].
  split; [eexists; split; reflexivity|].
  split; reflexivity.
Qed.

(** C5, amended. [embed] uses the first call shape the provider exposes,
    the single-text method before the batch method, and that one only.
    With the single-text method exposed, [embed] fulfils with the single
    vector when that method answers with it, rejects with the provider's
    reason exactly when that method rejects, and the batch method is not
    consulted. With only the batch method exposed the same holds of the
    batch call on the one input. The adapter's own failure (no
    underlying method) is thrown exactly when the provider exposes
    neither method. *)
Theorem embed_uses_first_exposed_method
  (v1 : Adapter.Provider) (input : jsstring) :
  (forall e,
      Adapter.p_embed v1 = Some e ->
      (forall v, e input = inr (Adapter.vec v) ->
                 Adapter.embed v1 input = Adapter.Fulfilled (Adapter.vec v)) /\
      (forall reason,
          e input = inl reason <->
          Adapter.embed v1 input
          = Adapter.Rejected (Adapter.ProviderRejected reason)) /\
      Adapter.embed v1 input
      = Adapter.embed (Adapter.mkProvider (Some e) None) input) /\
  (Adapter.p_embed v1 = None ->
   forall g,
     Adapter.p_embedMany v1 = Some g ->
     (forall v, g [input] = inr (Adapter.JArr [Adapter.vec v]) ->
                Adapter.embed v1 input = Adapter.Fulfilled (Adapter.vec v)) /\
     (forall reason,
         g [input] = inl reason <->
         Adapter.embed v1 input
         = Adapter.Rejected (Adapter.ProviderRejected reason))) /\
  ((exists message,
       Adapter.embed v1 input
       = Adapter.Rejected (Adapter.NoUnderlyingMethod message)) <->
   ~ exposes_a_method v1).
Proof.
  split; [|split].
  - intros e He. unfold Adapter.embed. rewrite He. cbn [Adapter.p_embed].
    split; [|split; [|done]].
    + intros v Hv. rewrite Hv. simpl Adapter.await. cbv iota.
      by rewrite vec_not_nested.
    + intros reason. destruct (e input) as [r|out]; simpl; split;
        intros H; try discriminate H; congruence.
  - intros Hn g Hg. unfold Adapter.embed. rewrite Hn, Hg. split.
    + intros v Hv. by rewrite Hv.
    + intros reason. destruct (g [input]) as [r|out]; simpl; split;
        intros H; try discriminate H; congruence.
  - unfold Adapter.embed, exposes_a_method. split.
    + intros [msg Hm] [[e He]|[g Hg]].
      * rewrite He in Hm. by destruct (e input).
      * rewrite Hg in Hm.
        destruct (Adapter.p_embed v1) as [e|]; [by destruct (e input)|].
        by destruct (g [input]).
    + intros Hn.
      destruct (Adapter.p_embed v1) as [e|] eqn:He;
        [destruct Hn; left; by eexists|].
      destruct (Adapter.p_embedMany v1) as [g|] eqn:Hg;
        [destruct Hn; right; by eexists|].
      by eexists.
Qed.

(** *** Dimensions *)

(** C4, as stated, fails: a provider answers with a vector of two
    components, and both [embed] and [embedMany] fulfil with that vector
    instead of failing, although its length is not the configured
    dimension. *)
Lemma wrong_dimension_is_returned :
  Adapter.embed (Adapter.single_only (fun _ => short_vector)) (lit "refunds")
  = Adapter.Fulfilled (Adapter.vec short_vector) /\
  Adapter.embedMany (Adapter.batch_only (fun _ => short_vector)) [lit "refunds"]
  = Adapter.Fulfilled (Adapter.JArr [Adapter.vec short_vector]) /\
  length short_vector <> Adapter.embeddingDimension.
Proof.
  split; [reflexivity|]. split; [reflexivity|].
  unfold Adapter.embeddingDimension. simpl. lia.
Qed.

Lemma vec_inj (v w : list float64) : Adapter.vec v = Adapter.vec w -> v = w.
Proof.
  unfold Adapter.vec. intros [= H]. revert w H.
  induction v as [|a v IH]; intros [|b w]; simpl; try done.
  intros [= -> H]. f_equal. by apply IH.
Qed.

(** C4, amended. The adapter hands the provider's vectors on as they
    are, whatever their length: when the provider answers the call of
    [embed] with the vector [v], [embed] fulfils with [v], and every
    vector it fulfils with has the length of [v]; when the provider
    answers the calls of [embedMany] with the vectors [vs], [embedMany]
    fulfils with exactly [vs]. Nothing is truncated, padded or compared
    with the configured dimension. *)
Theorem adapter_returns_vectors_unchanged
  (v1 : Adapter.Provider) (input : jsstring) (v : list float64)
  (inputs : list jsstring) (vs : list (list float64)) :
  (responds_single v1 input (Adapter.vec v) ->
   Adapter.embed v1 input = Adapter.Fulfilled (Adapter.vec v) /\
   forall w, Adapter.embed v1 input = Adapter.Fulfilled (Adapter.vec w) ->
             length w = length v) /\
  (responds_batch v1 inputs (map Adapter.vec vs) ->
   Adapter.embedMany v1 inputs
   = Adapter.Fulfilled (Adapter.JArr (map Adapter.vec vs))).
Proof.
  split.
  - intros Hr.
    assert (He : Adapter.embed v1 input = Adapter.Fulfilled (Adapter.vec v)).
    { unfold responds_single, Adapter.embed in *.
      destruct (Adapter.p_embed v1) as [e|].
      - rewrite Hr. simpl Adapter.await. cbv iota.
        by rewrite vec_not_nested.
      - destruct (Adapter.p_embedMany v1) as [g|]; [|done]. by rewrite Hr. }
    split; [done|]. intros w Hw. rewrite He in Hw.
    assert (Hvw : Adapter.vec v = Adapter.vec w) by congruence.
    apply vec_inj in Hvw. by subst.
  - unfold responds_batch, Adapter.embedMany.
    destruct (Adapter.p_embedMany v1) as [g|]; [by intros ->|].
    destruct (Adapter.p_embed v1) as [e|]; [|done].
    intros Hr. by rewrite (promise_all_responses e inputs _ Hr).
Qed.

(** ** The token budget of retrieval *)

Section BudgetFacts.
Import Retrieval.
Variable delimiter : jsstring.
Variable min_chars : nat.

Lemma within_char_budget (text : jsstring) (max_tokens : nat) :
  length text <= char_budget max_tokens ->
  approx_tokens text <= max_tokens.
Proof.
  unfold char_budget, approx_tokens. intros H.
  apply Nat.lt_succ_r, Nat.Div0.div_lt_upper_bound. lia.
Qed.

(** The accumulation keeps the buffer within the budget. *)
Lemma assemble_within_budget (max_tokens : nat) (cands : list Candidate) :
  forall acc,
    approx_tokens (context acc) <= max_tokens ->
    approx_tokens (context (assemble delimiter min_chars max_tokens acc cands))
    <= max_tokens.
Proof.
  induction cands as [|c rest IH]; intros acc Hacc; simpl; [exact Hacc|].
  destruct (Nat.leb_spec
              (approx_tokens
                 ((context acc ++ match sources acc with
                                  | [] => []
                                  | _ :: _ => delimiter
                                  end) ++ content (cand_doc c)))
              max_tokens) as [Hfit|Hover].
  - apply IH. exact Hfit.
  - match goal with |- context [if ?b then _ else _] => destruct b eqn:Hb end;
      [|exact Hacc].
    apply andb_prop in Hb as [_ Hh]. apply Nat.leb_le in Hh.
    simpl. apply within_char_budget.
    rewrite length_app, length_take. lia.
Qed.
End BudgetFacts.

(** C6. For every tenant, query, budget and table, when [retrieve]
    returns a context its approximate token count is at most
    [max_tokens], whether the documents are below or above the budget;
    it is so a fortiori within the budget extended by the truncation
    floor. The overrun that the floor would allow is never used: a
    truncation shorter than the floor is dropped. *)
Theorem retrieve_within_budget
  (similarity : Retrieval.Vector -> Retrieval.Vector -> float64)
  (embed_one : jsstring -> option Retrieval.Vector)
  (delimiter : jsstring) (min_chars : nat)
  (s : DB) (tenant_id query_text : jsstring) (max_tokens max_candidates : nat) :
  match Retrieval.retrieve similarity embed_one delimiter min_chars
          s tenant_id query_text max_tokens max_candidates with
  | Retrieval.Retrieved a =>
      Retrieval.approx_tokens (Retrieval.context a) <= max_tokens /\
      Retrieval.approx_tokens (Retrieval.context a)
      <= max_tokens + min_chars / 4
  | Retrieval.Unavailable => True
  end.
Proof.
  unfold Retrieval.retrieve. destruct (embed_one query_text) as [qv|]; [|done].
  assert (H : Retrieval.approx_tokens
                (Retrieval.context
                   (Retrieval.assemble delimiter min_chars max_tokens
                      {| Retrieval.context := []; Retrieval.sources := [] |}
                      (js_sort Retrieval.ranking
                         (Retrieval.fetch s
                            (Retrieval.search similarity s tenant_id qv
                               max_candidates)))))
              <= max_tokens).
  { apply assemble_within_budget. simpl. unfold Retrieval.approx_tokens.
    simpl. lia. }
  split; [exact H | lia].
Qed.

(** * Worked instances *)

Section Instances.
Import Sample.

Lemma ctx_a_authenticated : authenticated ctx_a org_a.
Proof. exists {| orgId := Some org_a |}. by repeat split. Qed.

Lemma db0_distinct_ids : NoDup (map fst (knowledgeBase db0)).
Proof. compute_done. Qed.

(** Trimming: ASCII blanks, and the no-break and em spaces. *)
Example trim_sample :
  trim (lit "  a b  ") = lit "a b" /\
  blank (lit "   ") = true /\
  blank [0x00A0; 0x2003; 0x0009]%N = true /\
  blank (lit " x ") = false /\
  blank [] = true.
Proof. by repeat split. Qed.

(** The listing of [org_a]: shipping (created at 2000) before refunds
    (created at 1000), without the other tenant's document. *)
Example getAll_sample :
  getAll ctx_a db0 = (Ok [(2%N, shipping); (1%N, refunds)], db0).
Proof. reflexivity. Qed.

(** The stable sort keeps the order of equal keys. *)
Example js_sort_stable :
  js_sort (fun a b : Z * string => (fst b - fst a)%Z)
    [(1, "a"); (2, "b"); (1, "c"); (2, "d")]%Z
  = [(2, "b"); (2, "d"); (1, "a"); (1, "c")]%Z.
Proof. reflexivity. Qed.

(** A search of [org_a] sees its two embedded documents only. *)
Example search_sample :
  map fst (Retrieval.search dot2 db0 org_a [1%float; 1%float] 5)
  = [2%N; 1%N] /\
  map fst (Retrieval.search dot2 db0 org_b [1%float; 1%float] 5) = [3%N].
Proof. by split; vm_compute. Qed.

(** A budget of 8 tokens (35 characters): the first document fits, the
    second is cut to the 7 characters left after the delimiter. *)
Example retrieve_sample :
  Retrieval.retrieve dot2 (fun x => Some (embed_query x)) (lit " | ") 4
    db0 org_a (lit "refunds?") 8 5
  = Retrieval.Retrieved
      {| Retrieval.context := lit "Shipping is free over $50 | Refunds";
         Retrieval.sources := [(2%N, lit "Shipping"); (1%N, lit "Refunds")] |}.
Proof. by vm_compute. Qed.

(** With a floor of 8 characters the cut is dropped. *)
Example retrieve_sample_floor :
  Retrieval.retrieve dot2 (fun x => Some (embed_query x)) (lit " | ") 8
    db0 org_a (lit "refunds?") 8 5
  = Retrieval.Retrieved
      {| Retrieval.context := lit "Shipping is free over $50";
         Retrieval.sources := [(2%N, lit "Shipping")] |}.
Proof. by vm_compute. Qed.
(** *** Instances of the theorems *)

Ltac signed_in_a := exists {| orgId := Some org_a |}; by repeat split.

(** The member of [org_a] asks for the document of [org_b]. *)
Lemma tenant_isolation_witness :
  getOne ctx_a 3%N db0 = (Throw access_denied, db0) /\
  update ctx_a (mkUpdateArgs 3%N (Some (lit "Mine")) None) db0
  = (Throw access_denied, db0) /\
  remove ctx_a 3%N db0 = (Throw access_denied, db0).
Proof.
  destruct (tenant_isolation ctx_a db0 org_a 3%N refunds_b)
    as (Hg & Hu & Hr & _).
  - signed_in_a.
  - reflexivity.
  - compute_done.
  - split; [exact Hg|]. split; [apply Hu | exact Hr].
Defined.

(** The member of [org_a] edits the content of the refunds document. *)
Lemma update_content_clears_embedding_witness :
  exists s' d',
    update ctx_a (mkUpdateArgs 1%N None (Some (lit "Refunds take 7 days"))) db0
    = (Ok 1%N, s') /\
    lookup_row 1%N (knowledgeBase s') = Some d' /\
    content d' = lit "Refunds take 7 days" /\
    embedding d' = None.
Proof.
  destruct (update_content_clears_embedding ctx_a
              (mkUpdateArgs 1%N None (Some (lit "Refunds take 7 days")))
              db0 (lit "Refunds take 7 days")) as [H1 H2].
  - reflexivity.
  - compute_done.
  - destruct (H2 refunds) as [s' Hs'].
    + split; [signed_in_a | reflexivity].
    + reflexivity.
    + intros x Hx. discriminate Hx.
    + rewrite Hs' in H1. destruct H1 as (_ & (d' & Hl & Hc & He) & _).
      exists s', d'. by repeat split.
Defined.

(** A blank title on create, a blank content on update. *)
Lemma blank_title_or_content_rejected_witness :
  (exists e,
      create ctx_a (mkCreateArgs (lit "  ") (lit "text") (lit "text/plain")
                      (lit "a.txt") None None) db0 = (Throw e, db0) /\
      bad_request e) /\
  (exists e,
      update ctx_a (mkUpdateArgs 1%N None (Some [])) db0 = (Throw e, db0) /\
      bad_request e).
Proof.
  destruct (blank_title_or_content_rejected ctx_a db0
              (mkCreateArgs (lit "  ") (lit "text") (lit "text/plain")
                 (lit "a.txt") None None)
              (mkUpdateArgs 1%N None (Some []))) as (Hc & Hu & _).
  split.
  - destruct Hc as (e & He & Hb); [left; by repeat constructor|].
    exists e. split; [exact He|]. apply (Hb org_a). signed_in_a.
  - destruct Hu as (e & He & Hb);
      [right; exists []; split; [reflexivity | constructor]|].
    exists e. split; [exact He|]. apply (Hb org_a refunds); [signed_in_a|done..].
Defined.



Lemma getAll_own_newest_first_witness :
  exists l, getAll ctx_a db0 = (Ok l, db0) /\ StronglySorted not_older l.
Proof.
  destruct (getAll_own_newest_first ctx_a db0 org_a)
    as (l & Hg & _ & _ & Hs & _).
  - signed_in_a.
  - by exists l.
Defined.

(** A rename of the shipping document. *)
Lemma update_frame_witness :
  exists d',
    lookup_row 2%N
      (knowledgeBase
         (snd (update ctx_a (mkUpdateArgs 2%N (Some (lit "Delivery")) None) db0)))
    = Some d' /\
    content d' = content shipping /\
    embedding d' = embedding shipping /\
    createdAt d' = 2000%Z.
Proof.
  destruct (update_frame ctx_a (mkUpdateArgs 2%N (Some (lit "Delivery")) None)
              db0
              (snd (update ctx_a
                      (mkUpdateArgs 2%N (Some (lit "Delivery")) None) db0))
              2%N)
    as (d & d' & Hl & Hl' & _ & _ & _ & _ & _ & Hc & _ & _ & Hk & _).
  - reflexivity.
  - assert (d = shipping) as ->
      by (change (Some shipping = Some d) in Hl; congruence).
    exists d'. destruct (Hk eq_refl) as [Hco Hem].
    split; [exact Hl'|]. split; [exact Hco|]. split; [exact Hem | exact Hc].
Defined.

(** Two inputs through a provider with the single-text method only. *)
Lemma embedMany_preserves_length_and_order_witness :
  Adapter.embedMany (Adapter.single_only embed_query) [lit "a"; []]
  = Adapter.embedMany (Adapter.batch_only embed_query) [lit "a"; []].
Proof.
  destruct (embedMany_preserves_length_and_order
              (Adapter.single_only embed_query) embed_query [lit "a"; []])
    as (_ & Hb & _).
  - apply implements_single_only.
  - left. by eexists.
  - symmetry. exact Hb.
Defined.

(** The batch method alone is used when it is the only one; a rejecting
    single-text method decides although the batch method would answer;
    and a provider without methods gets the adapter's own failure. *)
Lemma embed_uses_first_exposed_method_witness :
  Adapter.embed (Adapter.batch_only embed_query) (lit "a")
  = Adapter.Fulfilled (Adapter.vec [1%float; 0.5%float]) /\
  Adapter.embed Sample2.single_rejects (lit "a")
  = Adapter.Rejected (Adapter.ProviderRejected "quota exceeded") /\
  exists message,
    Adapter.embed (Adapter.mkProvider None None) (lit "a")
    = Adapter.Rejected (Adapter.NoUnderlyingMethod message).
Proof.
  split; [|split].
  - destruct (embed_uses_first_exposed_method
                (Adapter.batch_only embed_query) (lit "a")) as (_ & Hb & _).
    destruct (Hb eq_refl _ eq_refl) as [Hf _].
    apply (Hf [1%float; 0.5%float]). reflexivity.
  - destruct (embed_uses_first_exposed_method
                Sample2.single_rejects (lit "a")) as (Hs & _).
    destruct (Hs _ eq_refl) as (_ & Hr & _).
    apply Hr. reflexivity.
  - destruct (embed_uses_first_exposed_method
                (Adapter.mkProvider None None) (lit "a")) as (_ & _ & Hn).
    apply Hn. intros [[? H]|[? H]]; discriminate H.
Defined.

(** The vector of two components goes through untouched. *)
Lemma adapter_returns_vectors_unchanged_witness :
  Adapter.embed (Adapter.batch_only (fun _ => short_vector)) (lit "a")
  = Adapter.Fulfilled (Adapter.vec short_vector) /\
  Adapter.embedMany (Adapter.single_only (fun _ => short_vector))
    [lit "a"; lit "b"]
  = Adapter.Fulfilled
      (Adapter.JArr [Adapter.vec short_vector; Adapter.vec short_vector]).
Proof.
  split.
  - destruct (adapter_returns_vectors_unchanged
                (Adapter.batch_only (fun _ => short_vector)) (lit "a")
                short_vector [] []) as [Hs _].
    by destruct Hs.
  - destruct (adapter_returns_vectors_unchanged
                (Adapter.single_only (fun _ => short_vector)) []
                short_vector [lit "a"; lit "b"]
                [short_vector; short_vector]) as [_ Hb].
    apply Hb. by repeat constructor.
Defined.
End Instances.

(** * Further properties of the knowledge-base functions *)

Lemma lookup_row_not_in (id : Id) (rows : list (Id * Doc)) :
  id ∉ map fst rows -> lookup_row id rows = None.
Proof.
  induction rows as [|[i x] rows IH]; simpl; [done|].
  intros Hn. destruct (N.eqb_spec i id) as [->|Hne].
  - destruct Hn. left.
  - apply IH. intros Hin. apply Hn. by right.
Qed.

Lemma lookup_row_app_fresh (id : Id) (rows : list (Id * Doc)) d :
  id ∉ map fst rows -> lookup_row id (rows ++ [(id, d)]) = Some d.
Proof.
  induction rows as [|[i x] rows IH]; simpl; intros Hn.
  - by rewrite N.eqb_refl.
  - destruct (N.eqb_spec i id) as [->|Hne]; [destruct Hn; left|].
    apply IH. intros Hin. apply Hn. by right.
Qed.

Lemma lookup_row_app_other (id id' : Id) (rows : list (Id * Doc)) d :
  id' <> id -> lookup_row id' (rows ++ [(id, d)]) = lookup_row id' rows.
Proof.
  intros Hne. induction rows as [|[i x] rows IH]; simpl.
  - destruct (N.eqb_spec id id'); [congruence | reflexivity].
  - by rewrite IH.
Qed.

Lemma wf_db_fresh (s : DB) : wf_db s -> nextId s ∉ map fst (knowledgeBase s).
Proof.
  intros [_ Hlt] Hin. rewrite Forall_forall in Hlt.
  specialize (Hlt _ Hin). lia.
Qed.

Lemma create_ok (ctx : Ctx) (args : CreateArgs) (s : DB) org :
  authenticated ctx org ->
  blank (c_title args) = false -> blank (c_content args) = false ->
  create ctx args s
  = (Ok (nextId s),
     {| knowledgeBase := knowledgeBase s ++ [(nextId s, created_doc ctx org args)];
        nextId := N.succ (nextId s);
        blobs := blobs s |}).
Proof.
  intros Ha Ht Hc. unfold create, bind.
  rewrite (requireOrg_ok ctx org s Ha). unfold_handler.
  by rewrite Ht, Hc.
Qed.

(** X1. A document created by a signed-in caller, with a title and a
    content that are not blank, can be read back: on a table with
    distinct ids below the counter, [create] returns an id that was not
    in use, and [getOne] by the same caller then returns the document
    with the given fields, the caller's organization, the creation time,
    no embedding and no update time. The other documents and the blob
    store are as before. *)
Theorem create_then_getOne (ctx : Ctx) (args : CreateArgs) (s : DB)
  (org : jsstring) :
  authenticated ctx org ->
  blank (c_title args) = false ->
  blank (c_content args) = false ->
  wf_db s ->
  exists id s',
    create ctx args s = (Ok id, s') /\
    lookup_row id (knowledgeBase s) = None /\
    getOne ctx id s' = (Ok (created_doc ctx org args), s') /\
    embedding (created_doc ctx org args) = None /\
    (forall id', id' <> id ->
                 lookup_row id' (knowledgeBase s')
                 = lookup_row id' (knowledgeBase s)) /\
    blobs s' = blobs s.
Proof.
  intros Ha Ht Hc Hwf. pose proof (wf_db_fresh s Hwf) as Hfresh.
  eexists _, _. split; [by apply (create_ok ctx args s org)|].
  split; [by apply lookup_row_not_in|].
  split; [|split; [done|split; [|done]]].
  - unfold getOne, bind. rewrite (requireOrg_ok ctx org _ Ha).
    apply requireOwned_ok; [|done]. simpl. by apply lookup_row_app_fresh.
  - intros id' Hne. simpl. by apply lookup_row_app_other.
Qed.

Lemma Forall_lt_succ (n : N) (l : list N) :
  Forall (fun id => (id < n)%N) l -> Forall (fun id => (id < N.succ n)%N) l.
Proof.
  intros H. eapply Forall_impl; [exact H|]. intros x Hx. simpl in *. lia.
Qed.

Lemma filter_ids_NoDup (id : Id) (rows : list (Id * Doc)) :
  NoDup (map fst rows) ->
  NoDup (map fst (List.filter (fun r => negb (fst r =? id)%N) rows)).
Proof.
  induction rows as [|[i x] rows IH]; simpl; [done|].
  intros [Hni Hnd]%NoDup_cons. destruct (negb (i =? id)%N); simpl; [|auto].
  apply NoDup_cons. split; [|auto].
  intros Hin. apply Hni.
  apply list_elem_of_fmap in Hin as (r & -> & Hr).
  apply list_elem_of_In, filter_In in Hr as [Hr _].
  apply list_elem_of_fmap. exists r. split; [done | by apply list_elem_of_In].
Qed.

Lemma filter_ids_Forall (P : Id -> Prop) (id : Id) (rows : list (Id * Doc)) :
  Forall P (map fst rows) ->
  Forall P (map fst (List.filter (fun r => negb (fst r =? id)%N) rows)).
Proof.
  induction rows as [|[i x] rows IH]; simpl; [done|].
  intros [Hi Hr]%Forall_cons. destruct (negb (i =? id)%N); simpl; auto.
Qed.

(** X2. The three mutations keep the table well formed: after [create],
    [update] or [remove], whatever the caller, the arguments and the
    outcome, the ids are still distinct and below the counter. *)
Theorem mutations_keep_ids_distinct (ctx : Ctx) (s : DB)
  (cargs : CreateArgs) (uargs : UpdateArgs) (id : Id) :
  wf_db s ->
  wf_db (snd (create ctx cargs s)) /\
  wf_db (snd (update ctx uargs s)) /\
  wf_db (snd (remove ctx id s)).
Proof.
  intros Hwf. pose proof Hwf as [Hnd Hlt]. split; [|split].
  - destruct (create ctx cargs s) as [[i|e] s'] eqn:Hc;
      apply create_inv in Hc; simpl; [|by destruct Hc as [-> _]].
    destruct Hc as (_ & org & _ & _ & _ & ->). split; simpl.
    + rewrite map_app. simpl. apply NoDup_app. split; [done|].
      split; [|apply NoDup_singleton].
      intros x Hx ->%list_elem_of_singleton. by apply (wf_db_fresh s).
    + rewrite map_app. apply Forall_app. split.
      * by apply Forall_lt_succ.
      * repeat constructor. simpl. lia.
  - destruct (update ctx uargs s) as [[i|e] s'] eqn:Hu;
      apply update_inv in Hu; simpl; [|by destruct Hu as [-> _]].
    destruct Hu as (_ & org & d & _ & _ & _ & _ & _ & ->).
    split; simpl; by rewrite replace_row_ids.
  - destruct (remove ctx id s) as [[b|e] s'] eqn:Hr;
      apply remove_inv in Hr; simpl; [|by subst].
    destruct Hr as (_ & org & d & _ & _ & _ & _ & ->).
    split; simpl; [by apply filter_ids_NoDup | by apply filter_ids_Forall].
Qed.

Lemma requireOwned_missing org id s :
  lookup_row id (knowledgeBase s) = None ->
  requireOwned org id s = (Throw not_found, s).
Proof.
  intros Hl. unfold requireOwned. unfold_handler. by rewrite Hl.
Qed.

(** X3. For a signed-in caller, a document id that does not resolve
    makes [getOne], [update] and [remove] throw NOT_FOUND and write
    nothing; for [update] this holds whatever the title and content,
    blank ones included: the lookup comes before the validation. *)
Theorem missing_document_not_found (ctx : Ctx) (s : DB) (org : jsstring)
  (id : Id) :
  authenticated ctx org ->
  lookup_row id (knowledgeBase s) = None ->
  getOne ctx id s = (Throw not_found, s) /\
  (forall t c, update ctx (mkUpdateArgs id t c) s = (Throw not_found, s)) /\
  remove ctx id s = (Throw not_found, s).
Proof.
  intros Ha Hl.
  pose proof (requireOrg_ok ctx org s Ha) as Hr.
  pose proof (requireOwned_missing org id s Hl) as Hm.
  split; [|split].
  - unfold getOne, bind. by rewrite Hr.
  - intros t c. unfold update, bind. simpl. by rewrite Hr, Hm.
  - unfold remove, bind. by rewrite Hr, Hm.
Qed.

(** X4. Once [remove] has succeeded the document is gone for good: the
    id no longer resolves, so a second [remove], an [update] and a
    [getOne] of the same id throw NOT_FOUND, and the listing of the
    caller no longer holds a row with that id. *)
Theorem remove_then_not_found (ctx : Ctx) (s s' : DB) (id : Id) (b : bool) :
  remove ctx id s = (Ok b, s') ->
  getOne ctx id s' = (Throw not_found, s') /\
  (forall t c, update ctx (mkUpdateArgs id t c) s' = (Throw not_found, s')) /\
  remove ctx id s' = (Throw not_found, s') /\
  (forall l s'', getAll ctx s' = (Ok l, s'') -> id ∉ map fst l).
Proof.
  intros Hr. apply remove_inv in Hr as (_ & org & d & Ha & _ & _ & _ & ->).
  assert (Hl : lookup_row id (knowledgeBase (removed_db id d s)) = None)
    by apply lookup_row_filter_out.
  destruct (missing_document_not_found ctx _ org id Ha Hl) as (Hg & Hu & Hrm).
  split; [done|]. split; [done|]. split; [done|].
  intros l s'' Hall. unfold getAll, bind in Hall.
  rewrite (requireOrg_ok ctx org _ Ha) in Hall. unfold_handler.
  injection Hall as <- <-. intros Hin.
  apply list_elem_of_fmap in Hin as ([i x] & -> & Hx).
  apply js_sort_elem, list_elem_of_In, filter_In in Hx as [Hx _].
  simpl in Hx. apply filter_In in Hx as [_ Hx]. simpl in Hx.
  by rewrite N.eqb_refl in Hx.
Qed.

(** X5. A caller who is not signed in, or whose identity carries no
    organization, is turned away by every handler that reads the
    identity: the listing, the reading, the three mutations and the
    upload URL all throw UNAUTHORIZED and write nothing, whatever their
    arguments. *)
Theorem anonymous_rejected (ctx : Ctx) (s : DB) :
  anonymous ctx ->
  (exists e, getAll ctx s = (Throw e, s) /\ unauthorized e) /\
  (forall id, exists e, getOne ctx id s = (Throw e, s) /\ unauthorized e) /\
  (forall args, exists e, create ctx args s = (Throw e, s) /\ unauthorized e) /\
  (forall args, exists e, update ctx args s = (Throw e, s) /\ unauthorized e) /\
  (forall id, exists e, remove ctx id s = (Throw e, s) /\ unauthorized e) /\
  (forall url, exists e,
      generateUploadUrl url ctx s = (Throw e, s) /\ unauthorized e).
Proof.
  intros Hanon.
  assert (Hr : exists e, requireOrg ctx s = (Throw e, s) /\ unauthorized e).
  { destruct (requireOrg ctx s) as [[org|e] s1] eqn:Hr;
      apply requireOrg_inv in Hr as [-> Hr].
    - by destruct (Hanon org).
    - exists e. split; [done | by destruct Hr]. }
  destruct Hr as (e & Hr & He).
  repeat split; intros; exists e; (split; [|done]).
  - unfold getAll, bind. by rewrite Hr.
  - unfold getOne, bind. by rewrite Hr.
  - unfold create, bind. by rewrite Hr.
  - unfold update, bind. by rewrite Hr.
  - unfold remove, bind. by rewrite Hr.
  - unfold generateUploadUrl, bind. by rewrite Hr.
Qed.

(** X6. [getFileUrl] is not guarded: it answers any caller, signed in
    or not, with the URL of any stored file. In particular a member of
    one organization, to whom [getOne] refuses another organization's
    document, obtains the URL of that document's blob. *)
Theorem getFileUrl_unguarded (url_of : StorageId -> jsstring)
  (ctx : Ctx) (s : DB) (org : jsstring) (id : Id) (d : Doc)
  (sid : StorageId) :
  authenticated ctx org ->
  lookup_row id (knowledgeBase s) = Some d ->
  organizationId d <> org ->
  storageId d = Some sid ->
  sid ∈ blobs s ->
  getOne ctx id s = (Throw access_denied, s) /\
  getFileUrl url_of ctx sid s = (Ok (Some (url_of sid)), s) /\
  (forall ctx', getFileUrl url_of ctx' sid s = (Ok (Some (url_of sid)), s)).
Proof.
  intros Ha Hl Ho Hs Hb. split.
  - unfold getOne, bind. rewrite (requireOrg_ok ctx org s Ha).
    by apply (requireOwned_foreign org id s d).
  - unfold getFileUrl, storage_getUrl.
    rewrite bool_decide_eq_true_2 by done. by split.
Qed.

Lemma filter_replace_row_foreign (org : jsstring) (id : Id) (d d' : Doc)
  (rows : list (Id * Doc)) :
  lookup_row id rows = Some d ->
  organizationId d <> org -> organizationId d' <> org ->
  List.filter (fun r => eqb (organizationId (snd r)) org) (replace_row id d' rows)
  = List.filter (fun r => eqb (organizationId (snd r)) org) rows.
Proof.
  intros Hl Hd Hd'. apply eqb_false in Hd'.
  induction rows as [|[i x] rows IH]; simpl in *; [done|].
  destruct (N.eqb_spec i id) as [->|Hne]; simpl.
  - injection Hl as ->. apply eqb_false in Hd. by rewrite Hd, Hd'.
  - by rewrite (IH Hl).
Qed.

Lemma filter_remove_foreign (org : jsstring) (id : Id) (d : Doc)
  (rows : list (Id * Doc)) :
  NoDup (map fst rows) ->
  lookup_row id rows = Some d ->
  organizationId d <> org ->
  List.filter (fun r => eqb (organizationId (snd r)) org)
    (List.filter (fun r => negb (fst r =? id)%N) rows)
  = List.filter (fun r => eqb (organizationId (snd r)) org) rows.
Proof.
  intros Hnd Hl Hd.
  assert (Hrows : forall r, r ∈ rows -> fst r = id ->
                            eqb (organizationId (snd r)) org = false).
  { intros [i x] Hr Hi. simpl in Hi. subst i.
    apply (lookup_row_unique _ _ _ Hnd) in Hr.
    rewrite Hl in Hr. injection Hr as <-. by apply eqb_false. }
  clear Hnd Hl Hd.
  induction rows as [|[i x] rows IH]; simpl; [done|].
  assert (IH' := IH (fun r Hr => Hrows r (list_elem_of_further _ _ _ Hr))).
  destruct (N.eqb_spec i id) as [->|Hne]; simpl.
  - pose proof (Hrows (id, x) ltac:(left) eq_refl) as Hx. simpl in Hx.
    by rewrite Hx.
  - by rewrite IH'.
Qed.

(** X7. The listing of an organization does not see what the members of
    another organization do: on a table with distinct ids, for callers
    of two different organizations, [getAll] of the one returns the same
    list before and after a [create], an [update] or a [remove] by the
    other, whatever the arguments and the outcome. *)
Theorem listing_unaffected_by_other_tenant
  (ctx ctx' : Ctx) (org org' : jsstring) (s : DB)
  (cargs : CreateArgs) (uargs : UpdateArgs) (id : Id) :
  authenticated ctx org ->
  authenticated ctx' org' ->
  org <> org' ->
  NoDup (map fst (knowledgeBase s)) ->
  fst (getAll ctx' (snd (create ctx cargs s))) = fst (getAll ctx' s) /\
  fst (getAll ctx' (snd (update ctx uargs s))) = fst (getAll ctx' s) /\
  fst (getAll ctx' (snd (remove ctx id s))) = fst (getAll ctx' s).
Proof.
  intros Ha Ha' Hne Hnd.
  assert (Hall : forall s1 s2,
             rows_of org' s1 = rows_of org' s2 ->
             fst (getAll ctx' s1) = fst (getAll ctx' s2)).
  { intros s1 s2 Hrows. unfold getAll, bind.
    rewrite !(requireOrg_ok ctx' org' _ Ha'). unfold_handler. simpl.
    unfold rows_of in Hrows. by rewrite Hrows. }
  split; [|split]; apply Hall; unfold rows_of.
  - destruct (create ctx cargs s) as [[i|e] s'] eqn:Hc;
      apply create_inv in Hc; simpl; [|by destruct Hc as [-> _]].
    destruct Hc as (_ & o & Ho & _ & _ & ->). simpl.
    rewrite List.filter_app. simpl.
    rewrite <- (authenticated_unique ctx org o Ha Ho).
    apply eqb_false in Hne. rewrite Hne. by rewrite app_nil_r.
  - destruct (update ctx uargs s) as [[i|e] s'] eqn:Hu;
      apply update_inv in Hu; simpl; [|by destruct Hu as [-> _]].
    destruct Hu as (-> & o & d & Ho & Hl & Hd & _ & _ & ->). simpl.
    rewrite <- (authenticated_unique ctx org o Ha Ho) in Hd.
    apply (filter_replace_row_foreign org' _ d); [done| |]; simpl; congruence.
  - destruct (remove ctx id s) as [[b|e] s'] eqn:Hr;
      apply remove_inv in Hr; simpl; [|by subst].
    destruct Hr as (_ & o & d & Ho & Hl & Hd & _ & ->). simpl.
    rewrite <- (authenticated_unique ctx org o Ha Ho) in Hd.
    apply (filter_remove_foreign org' id d); [done|done|congruence].
Qed.

(** * Further properties of the embedding adapter *)

(** X8. [embed] unwraps a single-text answer that is an array holding
    one vector, while the fan-out of [embedMany] hands the answers on as
    they are: for a provider with the single-text method only, which
    answers every input [x] with the array [[f x]], [embed] fulfils with
    the vector [f x] and [embedMany] with the array of the wrapped
    answers. *)
Theorem embed_unwraps_but_fan_out_does_not
  (f : jsstring -> list float64) (input : jsstring) (inputs : list jsstring) :
  let v1 := Adapter.mkProvider
              (Some (fun x => inr (Adapter.JArr [Adapter.vec (f x)]))) None in
  Adapter.embed v1 input = Adapter.Fulfilled (Adapter.vec (f input)) /\
  Adapter.embedMany v1 inputs
  = Adapter.Fulfilled
      (Adapter.JArr (map (fun x => Adapter.JArr [Adapter.vec (f x)]) inputs)).
Proof.
  intros v1. split; [reflexivity|].
  unfold Adapter.embedMany, v1. cbn [Adapter.p_embedMany Adapter.p_embed].
  rewrite (promise_all_responses _ inputs
             (map (fun x => Adapter.JArr [Adapter.vec (f x)]) inputs)); [done|].
  induction inputs; simpl; by constructor.
Qed.

(** X9. The adapter does not fall back when the method it chose fails:
    if the provider has the single-text method and it rejects, [embed]
    rejects with the provider's reason even when the batch method is
    there; and if the provider has the batch method and it rejects,
    [embedMany] rejects likewise even when the single-text method is
    there. *)
Theorem no_fallback_after_rejection (v1 : Adapter.Provider)
  (input : jsstring) (inputs : list jsstring) (reason : string) :
  (forall e, Adapter.p_embed v1 = Some e -> e input = inl reason ->
             Adapter.embed v1 input
             = Adapter.Rejected (Adapter.ProviderRejected reason)) /\
  (forall g, Adapter.p_embedMany v1 = Some g -> g inputs = inl reason ->
             Adapter.embedMany v1 inputs
             = Adapter.Rejected (Adapter.ProviderRejected reason)).
Proof.
  split.
  - intros e He Hr. unfold Adapter.embed. by rewrite He, Hr.
  - intros g Hg Hr. unfold Adapter.embedMany. by rewrite Hg, Hr.
Qed.

Lemma promise_all_fulfilled_inv (e : jsstring -> Adapter.ProviderResult)
  (inputs : list jsstring) (outs : list Adapter.jsval) :
  Adapter.promise_all (map (fun s => Adapter.await (e s)) inputs)
  = Adapter.Fulfilled outs ->
  Forall2 (fun x out => e x = inr out) inputs outs.
Proof.
  revert outs. induction inputs as [|x inputs IH]; simpl; intros outs.
  - intros [= <-]. constructor.
  - destruct (e x) as [r|v] eqn:Hx; simpl; [discriminate|].
    destruct (Adapter.promise_all _) as [vs|r] eqn:Hp; [|discriminate].
    intros [= <-]. constructor; [done | by apply IH].
Qed.

Lemma promise_all_rejected_inv (e : jsstring -> Adapter.ProviderResult)
  (inputs : list jsstring) (err : Adapter.EmbedError) :
  Adapter.promise_all (map (fun s => Adapter.await (e s)) inputs)
  = Adapter.Rejected err ->
  exists x reason, x ∈ inputs /\ e x = inl reason /\
                   err = Adapter.ProviderRejected reason.
Proof.
  induction inputs as [|x inputs IH]; simpl; [discriminate|].
  destruct (e x) as [r|v] eqn:Hx; simpl.
  - intros [= <-]. exists x, r. split; [left | done].
  - destruct (Adapter.promise_all _) as [vs|r] eqn:Hp; [discriminate|].
    intros [= <-]. destruct (IH eq_refl) as (y & reason & Hy & He & ->).
    exists y, reason. split; [by right | done].
Qed.

(** X10. The fan-out of [embedMany], for a provider with the single-text
    method only. It fulfils exactly when every single call fulfils, with
    the array of the answers in input order, so with as many entries as
    inputs and with the empty array for no input; it rejects exactly when
    some call rejects, and then with the reason of one of the rejected
    calls. *)
Theorem fan_out_all_or_nothing (e : jsstring -> Adapter.ProviderResult)
  (inputs : list jsstring) :
  let v1 := Adapter.mkProvider (Some e) None in
  (forall outs,
      Adapter.embedMany v1 inputs = Adapter.Fulfilled (Adapter.JArr outs) <->
      Forall2 (fun x out => e x = inr out) inputs outs) /\
  (forall outs,
      Adapter.embedMany v1 inputs = Adapter.Fulfilled (Adapter.JArr outs) ->
      length outs = length inputs) /\
  (inputs = [] ->
   Adapter.embedMany v1 inputs = Adapter.Fulfilled (Adapter.JArr [])) /\
  ((exists err, Adapter.embedMany v1 inputs = Adapter.Rejected err) <->
   exists x reason, x ∈ inputs /\ e x = inl reason) /\
  (forall err,
      Adapter.embedMany v1 inputs = Adapter.Rejected err ->
      exists x reason, x ∈ inputs /\ e x = inl reason /\
                       err = Adapter.ProviderRejected reason).
Proof.
  intros v1. unfold Adapter.embedMany, v1.
  cbn [Adapter.p_embedMany Adapter.p_embed].
  assert (Hful : forall outs,
             match Adapter.promise_all
                     (map (fun s => Adapter.await (e s)) inputs) with
             | Adapter.Fulfilled vs => Adapter.Fulfilled (Adapter.JArr vs)
             | Adapter.Rejected r => Adapter.Rejected r
             end = Adapter.Fulfilled (Adapter.JArr outs) <->
             Forall2 (fun x out => e x = inr out) inputs outs).
  { intros outs. split.
    - destruct (Adapter.promise_all _) as [vs|r] eqn:Hp; [|discriminate].
      intros [= <-]. by apply promise_all_fulfilled_inv.
    - intros H. by rewrite (promise_all_responses e inputs outs H). }
  assert (Hrej : forall err,
             match Adapter.promise_all
                     (map (fun s => Adapter.await (e s)) inputs) with
             | Adapter.Fulfilled vs => Adapter.Fulfilled (Adapter.JArr vs)
             | Adapter.Rejected r => Adapter.Rejected r
             end = Adapter.Rejected err ->
             exists x reason, x ∈ inputs /\ e x = inl reason /\
                              err = Adapter.ProviderRejected reason).
  { intros err. destruct (Adapter.promise_all _) as [vs|r] eqn:Hp;
      [discriminate|].
    intros [= <-]. by apply promise_all_rejected_inv. }
  split; [exact Hful|]. split; [|split; [|split; [|exact Hrej]]].
  - intros outs H%Hful. symmetry. by eapply Forall2_length.
  - by intros ->.
  - split.
    + intros [err H]. destruct (Hrej err H) as (x & r & Hx & He & _).
      by exists x, r.
    + intros (x & r & Hx & He).
      destruct (Adapter.promise_all _) as [vs|err] eqn:Hp; [|by eexists].
      exfalso. apply promise_all_fulfilled_inv in Hp.
      apply list_elem_of_lookup in Hx as [i Hi].
      destruct (Forall2_lookup_l _ _ _ _ _ Hp Hi) as (out & _ & Hout).
      congruence.
Qed.

(** X11. Over a provider with the batch method only, [embed] asks for
    the batch of the one input and fulfils with the first element of the
    array it gets, whatever the array holds: [undefined] when the array
    is empty, the first entry when there are several; an answer that is
    no array is handed on as it is. It never rejects on a malformed
    answer. *)
Theorem embed_takes_first_of_batch
  (g : list jsstring -> Adapter.ProviderResult) (input : jsstring) :
  let v1 := Adapter.mkProvider None (Some g) in
  (g [input] = inr (Adapter.JArr []) ->
   Adapter.embed v1 input = Adapter.Fulfilled Adapter.JUndefined) /\
  (forall first rest,
      g [input] = inr (Adapter.JArr (first :: rest)) ->
      Adapter.embed v1 input = Adapter.Fulfilled first) /\
  (forall out,
      g [input] = inr out -> Adapter.isArray out = false ->
      Adapter.embed v1 input = Adapter.Fulfilled out) /\
  (forall out, g [input] = inr out ->
               exists result, Adapter.embed v1 input = Adapter.Fulfilled result).
Proof.
  simpl. unfold Adapter.embed. simpl. repeat split.
  - by intros ->.
  - by intros first rest ->.
  - intros out -> Hn. simpl. by rewrite Hn.
  - intros out ->. by eexists.
Qed.

(** * Properties of the public widget settings *)

Lemma filter_truthy_spec (l : list (option jsstring)) (x : jsstring) :
  x ∈ Widget.filter_truthy l <-> Some x ∈ l /\ x <> [].
Proof.
  unfold Widget.filter_truthy. rewrite list_elem_of_omap. split.
  - intros ([y|] & Hy & Hx); simpl in Hx; [|discriminate].
    destruct y; simpl in Hx; [discriminate|]. injection Hx as <-. by split.
  - intros [Hin Hne]. exists (Some x). split; [done|].
    by destruct x.
Qed.

Lemma filter_truthy_length (l : list (option jsstring)) :
  length (Widget.filter_truthy l) <= length l.
Proof.
  unfold Widget.filter_truthy.
  induction l as [|a l IH]; simpl; [done|].
  fold (@omap list _ _ _
          (fun s : option jsstring => if Widget.truthy s then s else None) l).
  destruct (if Widget.truthy a then a else None); simpl; lia.
Qed.

(** X12. [getSuggestions] returns at most three strings, none of them
    empty, and only suggestions stored for that organization: every
    returned string is suggestion 1, 2 or 3 of a row of the
    organization. With an empty organization id it returns the empty
    list without reading the table. *)
Theorem getSuggestions_nonempty_of_row (organizationId : jsstring)
  (table : list Widget.WidgetSettings) (l : list jsstring) :
  Widget.getSuggestions organizationId table = Ok l ->
  length l <= 3 /\
  Forall (fun x => x <> []) l /\
  (forall x, x ∈ l ->
             exists r, r ∈ table /\
                       Widget.ws_organizationId r = organizationId /\
                       (Widget.suggestion1 (Widget.ws_defaultSuggestions r) = Some x \/
                        Widget.suggestion2 (Widget.ws_defaultSuggestions r) = Some x \/
                        Widget.suggestion3 (Widget.ws_defaultSuggestions r) = Some x)) /\
  (organizationId = [] -> l = []).
Proof.
  unfold Widget.getSuggestions, Widget.unique_by_organization_id.
  destruct organizationId as [|c org]; simpl falsy; cbv iota.
  { intros [= <-]. repeat split; simpl; try lia; try done.
    intros x Hx. by apply elem_of_nil in Hx. }
  destruct (List.filter _ table) as [|r [|r' rest]] eqn:Hf; [| |discriminate].
  { intros [= <-]. repeat split; simpl; try lia; try done.
    intros x Hx. by apply elem_of_nil in Hx. }
  intros Hl.
  assert (l = Widget.filter_truthy
                [Widget.suggestion1 (Widget.ws_defaultSuggestions r);
                 Widget.suggestion2 (Widget.ws_defaultSuggestions r);
                 Widget.suggestion3 (Widget.ws_defaultSuggestions r)]) as ->
    by congruence.
  clear Hl.
  assert (Hr : r ∈ table /\ Widget.ws_organizationId r = c :: org).
  { assert (Hin : In r (List.filter
                          (fun r => eqb (Widget.ws_organizationId r) (c :: org))
                          table)) by (rewrite Hf; by left).
    apply filter_In in Hin as [Hin He]. split; [by apply list_elem_of_In|].
    by apply eqb_true. }
  split; [apply (filter_truthy_length [_; _; _])|].
  split; [|split; [|done]].
  - apply Forall_forall. intros x Hx. by apply filter_truthy_spec in Hx as [_ ?].
  - intros x [Hx _]%filter_truthy_spec. exists r. destruct Hr as [Hr Ho].
    split; [done|]. split; [done|].
    rewrite !elem_of_cons in Hx. rewrite elem_of_nil in Hx.
    destruct Hx as [Hx|[Hx|[Hx|[]]]]; auto.
Qed.

(** X13. [getGreeting] never returns the empty string: an empty stored
    greeting, a missing row and an empty organization id all give the
    default greeting, and a stored greeting that is not empty is returned
    as it is. *)
Theorem getGreeting_never_empty (organizationId : jsstring)
  (table : list Widget.WidgetSettings) (g : jsstring) :
  Widget.getGreeting organizationId table = Ok g ->
  g <> [] /\
  (g = Widget.default_greeting \/
   exists r, r ∈ table /\ Widget.ws_organizationId r = organizationId /\
             Widget.ws_greetMessage r = g).
Proof.
  unfold Widget.getGreeting, Widget.unique_by_organization_id.
  destruct organizationId as [|c org]; simpl falsy; cbv iota.
  { intros [= <-]. split; [done | by left]. }
  destruct (List.filter _ table) as [|r [|r' rest]] eqn:Hf; [| |discriminate].
  { intros [= <-]. split; [done | by left]. }
  intros [= <-].
  destruct (Widget.ws_greetMessage r) as [|a m] eqn:Hg; simpl.
  { split; [done | by left]. }
  split; [done|]. right. exists r.
  assert (Hin : In r (List.filter
                        (fun r => eqb (Widget.ws_organizationId r) (c :: org))
                        table)) by (rewrite Hf; by left).
  apply filter_In in Hin as [Hin He].
  split; [by apply list_elem_of_In|]. split; [by apply eqb_true | done].
Qed.

(** X14. The two light endpoints agree with the full one. Whenever
    [getByOrganizationId] returns settings, [getSuggestions] returns the
    non-empty suggestions of those settings, and [getGreeting] returns
    their greeting, except that an empty greeting, which the full
    endpoint hands out as it is, is replaced by the default. When the
    full endpoint returns null (empty organization id) they return the
    default greeting and no suggestion, and when it throws (several rows
    for the organization) they throw the same error. *)
Theorem light_endpoints_agree (organizationId : jsstring)
  (table : list Widget.WidgetSettings) :
  match Widget.getByOrganizationId organizationId table with
  | Ok (Some p) =>
      Widget.getGreeting organizationId table
      = Ok (if falsy (Widget.greetMessage p) then Widget.default_greeting
            else Widget.greetMessage p) /\
      Widget.getSuggestions organizationId table
      = Ok (Widget.filter_truthy
              [Widget.suggestion1 (Widget.defaultSuggestions p);
               Widget.suggestion2 (Widget.defaultSuggestions p);
               Widget.suggestion3 (Widget.defaultSuggestions p)])
  | Ok None =>
      organizationId = [] /\
      Widget.getGreeting organizationId table = Ok Widget.default_greeting /\
      Widget.getSuggestions organizationId table = Ok []
  | Throw e =>
      Widget.getGreeting organizationId table = Throw e /\
      Widget.getSuggestions organizationId table = Throw e
  end.
Proof.
  unfold Widget.getByOrganizationId, Widget.getGreeting, Widget.getSuggestions.
  destruct organizationId as [|c org]; simpl falsy; cbv iota; [done|].
  destruct (Widget.unique_by_organization_id (c :: org) table)
    as [[r|]|e]; by simpl.
Qed.

(** The settings returned for an organization are complete and
    come from its row: the theme, the title and the visibility are the
    stored ones when stored and "system", "Support Chat" and true
    otherwise, and an organization without a row gets exactly what a row
    with the default greeting and nothing else stored would give. A
    stored empty title is kept as it is. *)
Lemma getByOrganizationId_defaults (organizationId : jsstring)
  (table : list Widget.WidgetSettings) :
  organizationId <> [] ->
  (forall r, List.filter (fun r => eqb (Widget.ws_organizationId r) organizationId)
               table = [r] ->
             exists p,
               Widget.getByOrganizationId organizationId table = Ok (Some p) /\
               Widget.theme p = default Widget.system (Widget.ws_theme r) /\
               Widget.title p = default Widget.default_title (Widget.ws_title r) /\
               Widget.visibility p = default true (Widget.ws_visibility r) /\
               Widget.icon p = Widget.ws_icon r /\
               Widget.greetMessage p = Widget.ws_greetMessage r /\
               (Widget.ws_title r = Some [] -> Widget.title p = [])) /\
  (List.filter (fun r => eqb (Widget.ws_organizationId r) organizationId)
     table = [] ->
   Widget.getByOrganizationId organizationId table
   = Widget.getByOrganizationId organizationId
       [Widget.mkWidgetSettings organizationId None None None None
          Widget.default_greeting
          (Widget.mkSuggestions None None None)
          (Widget.mkVapiSettings None None)]).
Proof.
  intros Hne.
  assert (Hf : falsy organizationId = false) by (by destruct organizationId).
  unfold Widget.getByOrganizationId, Widget.unique_by_organization_id.
  rewrite Hf. split.
  - intros r Hr. rewrite Hr. eexists. split; [reflexivity|].
    simpl. unfold Widget.nullish.
    split; [by destruct (Widget.ws_theme r)|].
    split; [by destruct (Widget.ws_title r)|].
    split; [by destruct (Widget.ws_visibility r)|].
    split; [done|]. split; [done|]. by intros ->.
  - intros Hempty. rewrite Hempty. simpl. unfold eqb.
    by rewrite bool_decide_eq_true_2.
Qed.

(** * The errors of the mutations *)

Lemma requireOwned_error org id s e s' :
  requireOwned org id s = (Throw e, s') ->
  (e = not_found /\ lookup_row id (knowledgeBase s) = None) \/
  (e = access_denied /\
   exists d, lookup_row id (knowledgeBase s) = Some d /\ organizationId d <> org).
Proof.
  unfold requireOwned. unfold_handler.
  destruct (lookup_row id (knowledgeBase s)) as [d|] eqn:Hl.
  - destruct (eqb (organizationId d) org) eqn:He; simpl; [discriminate|].
    intros [= <- <-]. right. split; [done|]. exists d. split; [done|].
    by apply eqb_false.
  - intros [= <- <-]. by left.
Qed.

(** X15. The errors of [update] are the four of its own and nothing
    else: UNAUTHORIZED for a caller without organization, NOT_FOUND for
    an id that does not resolve, FORBIDDEN for a document of another
    organization, and BAD_REQUEST, the last one only when a given title
    or content is blank. The patch it builds always conforms to the
    schema, so the platform never refuses it. *)
Theorem update_errors (ctx : Ctx) (args : UpdateArgs) (s s' : DB) (e : Error) :
  update ctx args s = (Throw e, s') ->
  (unauthorized e /\ anonymous ctx) \/
  (e = not_found /\
   lookup_row (u_documentId args) (knowledgeBase s) = None) \/
  (e = access_denied /\
   exists d, lookup_row (u_documentId args) (knowledgeBase s) = Some d /\
             ~ authenticated ctx (organizationId d)) \/
  (bad_request e /\
   ((exists x, u_title args = Some x /\ blank x = true) \/
    (exists x, u_content args = Some x /\ blank x = true))).
Proof.
  intros Hu. pose proof Hu as Hu'. revert Hu'. unfold update, bind.
  destruct (requireOrg ctx s) as [[org|e0] s1] eqn:Hr;
    apply requireOrg_inv in Hr as [-> Hr];
    [|intros [= <- <-]; left; by destruct Hr].
  destruct (requireOwned org (u_documentId args) s) as [[d|e0] s1] eqn:Hq.
  2:{ intros [= <- <-].
      apply requireOwned_error in Hq as [[-> Hl]|[-> (d & Hl & Ho)]].
      - right. by left.
      - right. right. left. split; [done|]. exists d. split; [done|].
        intros Ha. apply Ho. by apply (authenticated_unique ctx). }
  apply requireOwned_inv in Hq as [-> [Hl Ho]].
  destruct (update_title _ _ s) as [[u1|e1] s1] eqn:Ht;
    apply update_title_inv in Ht as [-> Ht].
  2:{ intros [= <- <-]. destruct Ht as [Hb Hx]. right. right. right.
      split; [done | by left]. }
  destruct Ht as [Hft ->].
  destruct (update_content _ _ s) as [[u2|e2] s2] eqn:Hc;
    apply update_content_inv in Hc as [-> Hc].
  2:{ intros [= <- <-]. destruct Hc as [Hb Hx]. right. right. right.
      split; [done | by right]. }
  destruct Hc as [Hfc ->]. intros _.
  rewrite (update_ok ctx args s org d Hr Hl Ho Hft Hfc) in Hu. discriminate.
Qed.

(** * Properties of the knowledge-base screens *)

Lemma split_last_dot_none (s : jsstring) :
  0x2E%N ∉ s -> Knowledge.split_last_dot s = None.
Proof.
  induction s as [|c s IH]; simpl; [done|].
  intros Hn. rewrite IH by (intros H; apply Hn; by right).
  destruct (N.eqb_spec c 0x2E) as [->|Hc]; [|done].
  destruct Hn. left.
Qed.

Lemma split_last_dot_app (pre ext : jsstring) :
  0x2E%N ∉ ext ->
  Knowledge.split_last_dot (pre ++ 0x2E%N :: ext) = Some (pre, ext).
Proof.
  intros Hn. induction pre as [|c pre IH]; simpl.
  - by rewrite (split_last_dot_none ext Hn).
  - by rewrite IH.
Qed.

Lemma split_last_dot_some (s pre ext : jsstring) :
  Knowledge.split_last_dot s = Some (pre, ext) ->
  s = pre ++ 0x2E%N :: ext /\ 0x2E%N ∉ ext.
Proof.
  revert pre. induction s as [|c s IH]; simpl; intros pre; [discriminate|].
  destruct (Knowledge.split_last_dot s) as [[p x]|] eqn:Hs.
  - intros [= <- <-]. destruct (IH p eq_refl) as [-> Hn]. by split.
  - destruct (N.eqb_spec c 0x2E) as [->|Hc]; [|discriminate].
    intros [= <- <-]. split; [done|].
    intros Hin. clear IH.
    induction s as [|a s IHs]; [by apply elem_of_nil in Hin|].
    simpl in Hs. destruct (Knowledge.split_last_dot s) as [[p x]|] eqn:Hs';
      [discriminate|].
    destruct (N.eqb_spec a 0x2E) as [->|Ha]; [discriminate|].
    apply elem_of_cons in Hin as [Hin|Hin]; [congruence | by apply IHs].
Qed.

Lemma is_extension_checks (ext : jsstring) :
  0x2E%N ∉ ext ->
  (negb (falsy ext) && forallb (fun c => negb (c =? 0x2F)%N) ext = true
   <-> is_extension ext).
Proof.
  intros Hn. unfold is_extension.
  rewrite andb_true_iff, forallb_forall, Forall_forall. split.
  - intros [He Hf]. split; [by destruct ext|].
    intros c Hc. split; [by intros ->|].
    specialize (Hf c (proj1 (list_elem_of_In _ _) Hc)).
    by destruct (N.eqb_spec c 0x2F).
  - intros [He Hf]. split; [by destruct ext|].
    intros c Hc. destruct (Hf c (proj2 (list_elem_of_In _ _) Hc)) as [_ H].
    by destruct (N.eqb_spec c 0x2F).
Qed.

(** X16. The title that the upload screen derives from a file name:
    when the name ends in a ["."] followed by an extension (one or more
    characters, none of them ["."] or ["/"]), the title is what stands
    before that ["."]; every other name is kept whole. So a name that is
    an extension only, such as [.txt], gives the empty title, and of
    several extensions only the last is removed. *)
Theorem remove_extension_spec (name : jsstring) :
  (forall pre ext, name = pre ++ 0x2E%N :: ext -> is_extension ext ->
                   Knowledge.remove_extension name = pre) /\
  ((forall pre ext, name = pre ++ 0x2E%N :: ext -> ~ is_extension ext) ->
   Knowledge.remove_extension name = name).
Proof.
  unfold Knowledge.remove_extension. split.
  - intros pre ext -> Hext.
    assert (Hn : 0x2E%N ∉ ext).
    { destruct Hext as [_ Hf]. rewrite Forall_forall in Hf.
      intros Hin. by destruct (Hf _ Hin). }
    replace (Knowledge.split_last_dot (pre ++ 0x2E%N :: ext))
      with (Some (pre, ext))
      by (symmetry; by apply split_last_dot_app).
    replace (negb (falsy ext) && forallb (fun c => negb (c =? 0x2F)%N) ext)
      with true
      by (symmetry; by apply (is_extension_checks ext Hn)).
    done.
  - intros Hno.
    destruct (Knowledge.split_last_dot name) as [[pre ext]|] eqn:Hs; [|done].
    apply split_last_dot_some in Hs as [-> Hn].
    destruct (negb (falsy ext) && forallb (fun c => negb (c =? 0x2F)%N) ext)
      eqn:Hc; [|done].
    apply (is_extension_checks ext Hn) in Hc. by destruct (Hno pre ext).
Qed.

Lemma supported_spec (type : jsstring) :
  Knowledge.supported type = true <-> type ∈ Knowledge.SUPPORTED_FILE_TYPES.
Proof.
  unfold Knowledge.supported. rewrite existsb_exists. split.
  - intros (t & Ht%list_elem_of_In & He%eqb_true). by subst.
  - intros Hin. exists type. split; [by apply list_elem_of_In | by apply eqb_true].
Qed.

(** X17. The choice of a file on the upload screen applies exactly the
    checks of the upload schema: the chosen file becomes the selected
    one, with nothing shown, exactly when its type is one of the five
    supported types and its size is at most 10 MiB; otherwise the
    selection stays as it was and one error is shown. *)
Theorem handleFileSelect_matches_schema (file : Knowledge.File)
  (selected : option Knowledge.File) :
  (Knowledge.handleFileSelect (Some file) selected = (Some file, []) <->
   Knowledge.documentUploadSchema_file file = true) /\
  (Knowledge.documentUploadSchema_file file = true <->
   Knowledge.file_type file ∈ Knowledge.SUPPORTED_FILE_TYPES /\
   (Knowledge.file_size file <= 10485760)%N) /\
  (Knowledge.documentUploadSchema_file file = false ->
   exists message,
     Knowledge.handleFileSelect (Some file) selected
     = (selected, [Knowledge.ToastError message])).
Proof.
  unfold Knowledge.handleFileSelect, Knowledge.documentUploadSchema_file.
  change Knowledge.MAX_FILE_SIZE with 10485760%N.
  rewrite <- supported_spec.
  destruct (Knowledge.supported (Knowledge.file_type file)); simpl.
  - destruct (N.ltb_spec 10485760 (Knowledge.file_size file)) as [Hlt|Hle];
      destruct (N.leb_spec (Knowledge.file_size file) 10485760) as [Hle'|Hlt'];
      try lia; simpl.
    + repeat split; intros; try done; try lia. by eexists.
    + repeat split; intros; try done; try lia.
  - rewrite andb_false_r. repeat split; intros; try done.
    + by destruct H.
    + by eexists.
Qed.

Lemma update_blank_throws (ctx : Ctx) (args : UpdateArgs) (s : DB) :
  blank_given (u_title args) \/ blank_given (u_content args) ->
  exists e, update ctx args s = (Throw e, s).
Proof.
  intros Hw. destruct (update ctx args s) as [[id|e] s'] eqn:Hu.
  - apply update_inv in Hu as (_ & org & d & _ & _ & _ & Ht & Hc & _).
    exfalso. destruct Hw as [(x & Hx & Hw)|(x & Hx & Hw)].
    + apply Ht in Hx. by apply not_blank in Hx.
    + apply Hc in Hx. by apply not_blank in Hx.
  - apply update_inv in Hu as [-> _]. by exists e.
Qed.

(** X18. The form schema for a rename and the backend disagree on blank
    titles. A title that [update] accepts passes the schema as soon as it
    has at most 200 code units; a title of white space only, of 1 to 200
    code units, passes the schema too, but [update] rejects it whoever
    calls and writes nothing. *)
Theorem update_schema_weaker_than_backend (t : jsstring) (c : option jsstring) :
  (blank t = false -> length t <= 200 ->
   Knowledge.documentUpdateSchema t c = true) /\
  (whitespace_only t -> 1 <= length t <= 200 ->
   Knowledge.documentUpdateSchema t c = true /\
   forall ctx id s,
   exists e, update ctx (mkUpdateArgs id (Some t) c) s = (Throw e, s)).
Proof.
  unfold Knowledge.documentUpdateSchema. split.
  - intros Hb Hlen. apply blank_false_nonempty in Hb.
    apply andb_true_iff. split; [|by apply Nat.leb_le].
    destruct t; [done | by apply Nat.leb_le; simpl; lia].
  - intros Hw [H1 H2]. split.
    + apply andb_true_iff. split; by apply Nat.leb_le.
    + intros ctx id s.
      apply update_blank_throws. left. by exists t.
Qed.

Lemma run_mutation_throw {A} (m : M A) (s s' : DB) e :
  run_mutation m s = (Throw e, s') -> s' = s /\ exists s1, m s = (Throw e, s1).
Proof.
  unfold run_mutation. destruct (m s) as [[a|e0] s1]; [discriminate|].
  intros [= <- <-]. split; [done | by eexists].
Qed.

(** X19. The rename of the document list never sends a blank title, so
    the backend never answers it with BAD_REQUEST. Without a selected
    document, or with a blank new title, nothing is called, shown or
    changed. A failed call leaves the screen and the database as they
    were. For the owner of the selected document the rename succeeds: the
    stored title is the new title exactly as typed (it is not trimmed),
    the content and the embedding are untouched, the dialog is closed and
    the selection and the input are cleared. *)
Theorem handleRename_sends_no_blank_title (ctx : Ctx)
  (ui : Knowledge.ListState) (s : DB) :
  (Knowledge.selectedDocument ui = None \/
   blank (Knowledge.newTitle ui) = true ->
   Knowledge.handleRename ctx ui s = (ui, [], s)) /\
  (forall ui' toasts s' e fallback,
      Knowledge.handleRename ctx ui s = (ui', toasts, s') ->
      Knowledge.ToastCaught e fallback ∈ toasts ->
      ~ bad_request e /\ ui' = ui /\ s' = s) /\
  (forall id d,
      Knowledge.selectedDocument ui = Some id ->
      blank (Knowledge.newTitle ui) = false ->
      owns ctx s id d ->
      exists ui' s' d',
        Knowledge.handleRename ctx ui s
        = (ui', [Knowledge.ToastSuccess "Document renamed successfully"], s') /\
        lookup_row id (knowledgeBase s') = Some d' /\
        title d' = Knowledge.newTitle ui /\
        content d' = content d /\
        embedding d' = embedding d /\
        Knowledge.renameDialogOpen ui' = false /\
        Knowledge.selectedDocument ui' = None /\
        Knowledge.newTitle ui' = []).
Proof.
  unfold Knowledge.handleRename. split; [|split].
  - intros [Hs|Hb]; [by rewrite Hs|].
    destruct (Knowledge.selectedDocument ui); [by rewrite Hb | done].
  - intros ui' toasts s' e fallback.
    destruct (Knowledge.selectedDocument ui) as [id|];
      [|intros [= <- <- <-] Hin; by apply elem_of_nil in Hin].
    destruct (blank (Knowledge.newTitle ui)) eqn:Hb;
      [intros [= <- <- <-] Hin; by apply elem_of_nil in Hin|].
    destruct (run_mutation _ s) as [[i|e0] s1] eqn:Hm.
    + intros [= <- <- <-] Hin. apply list_elem_of_singleton in Hin. discriminate.
    + intros [= <- <- <-] Hin. apply list_elem_of_singleton in Hin.
      assert (e = e0) as -> by congruence. clear Hin.
      apply run_mutation_throw in Hm as [-> [s2 Hu]].
      split; [|done]. intros Hbad.
      apply update_errors in Hu as [[Hu _]|[[-> _]|[[-> _]|[_ Hx]]]];
        unfold bad_request, unauthorized in *; simpl in *; try congruence.
      destruct Hx as [(x & [= <-] & Hx)|(x & [=] & _)]. congruence.
  - intros id d Hs Hb [Ha Hl]. rewrite Hs, Hb. unfold run_mutation.
    rewrite (update_ok ctx (mkUpdateArgs id (Some (Knowledge.newTitle ui)) None)
               s (organizationId d) d Ha Hl eq_refl).
    + eexists _, _, _. split; [reflexivity|]. simpl.
      split; [by eapply lookup_replace_row_eq|]. by repeat split.
    + intros x [= <-]. done.
    + intros x [=].
Qed.

(** X20. A file whose derived title or extracted text is blank leaves
    an orphan: the upload stores the file first and creates the document
    afterwards, in a separate call. For a signed-in caller, when the POST
    has stored the file and the title (the name without its extension) or
    the content is blank, [handleUpload] ends with the file held by the
    blob store, no document created, the counter untouched, the file still
    selected, the progress at 70 and a BAD_REQUEST error shown; the
    embedding is not asked for. *)
Theorem handleUpload_blank_leaves_orphan
  (generateEmbedding : Id -> DB -> Outcome unit * DB)
  (upload_url : jsstring) (sid : StorageId)
  (ctx : Ctx) (org : jsstring) (ui : Knowledge.UploadState) (s : DB)
  (file : Knowledge.File) (text : jsstring) :
  authenticated ctx org ->
  Knowledge.selectedFile ui = Some file ->
  Knowledge.extractTextFromFile file = Some text ->
  blank (Knowledge.remove_extension (Knowledge.file_name file)) = true \/
  blank text = true ->
  exists e,
    bad_request e /\
    Knowledge.handleUpload generateEmbedding upload_url
      (Knowledge.PostStored sid) ctx ui s
    = (Knowledge.mkUploadState (Some file) false 70,
       [Knowledge.ToastCaught e "Failed to upload document"],
       {| knowledgeBase := knowledgeBase s;
          nextId := nextId s;
          blobs := blobs s ∪ {[sid]} |}).
Proof.
  intros Ha Hf Hx Hb. unfold Knowledge.handleUpload. rewrite Hf, Hx.
  unfold run_mutation at 1. unfold generateUploadUrl, bind.
  rewrite (requireOrg_ok ctx org s Ha). unfold storage_generateUploadUrl, ret.
  set (s2 := {| knowledgeBase := knowledgeBase s; nextId := nextId s;
                blobs := blobs s ∪ {[sid]} |}).
  destruct (create ctx (Knowledge.upload_args file text sid) s2)
    as [[id|e] s3] eqn:Hc; pose proof (create_inv _ _ _ _ _ Hc) as Hi.
  - destruct Hi as (_ & o & _ & Ht & Hcn & _). simpl in Ht, Hcn.
    destruct Hb; congruence.
  - destruct Hi as [-> [Hanon|[Hbad _]]]; [by destruct (Hanon org)|].
    exists e. split; [done|]. unfold run_mutation. by rewrite Hc.
Qed.

(** X21. The upload creates the document before it asks for the
    embedding, and nothing undoes it. For a signed-in caller, on a
    well-formed table, when the POST has stored the file and neither the
    derived title nor the extracted text is blank, the embedding action
    is started on a database that already holds the new document, with
    the title derived from the file name, the uploaded blob as
    [storageId] and no embedding; whether the action then succeeds or
    throws, [handleUpload] ends in the database the action left. *)
Theorem handleUpload_creates_before_embedding
  (generateEmbedding : Id -> DB -> Outcome unit * DB)
  (upload_url : jsstring) (sid : StorageId)
  (ctx : Ctx) (org : jsstring) (ui : Knowledge.UploadState) (s : DB)
  (file : Knowledge.File) (text : jsstring) :
  authenticated ctx org ->
  wf_db s ->
  Knowledge.selectedFile ui = Some file ->
  Knowledge.extractTextFromFile file = Some text ->
  blank (Knowledge.remove_extension (Knowledge.file_name file)) = false ->
  blank text = false ->
  exists s3 d,
    lookup_row (nextId s) (knowledgeBase s3) = Some d /\
    organizationId d = org /\
    title d = Knowledge.remove_extension (Knowledge.file_name file) /\
    content d = text /\
    storageId d = Some sid /\
    embedding d = None /\
    sid ∈ blobs s3 /\
    Knowledge.handleUpload generateEmbedding upload_url
      (Knowledge.PostStored sid) ctx ui s
    = match generateEmbedding (nextId s) s3 with
      | (Ok _, s4) =>
          (Knowledge.mkUploadState None false 0,
           [Knowledge.ToastSuccess "Document uploaded successfully!"], s4)
      | (Throw e, s4) =>
          (Knowledge.mkUploadState (Some file) false 85,
           [Knowledge.ToastCaught e "Failed to upload document"], s4)
      end.
Proof.
  intros Ha Hwf Hf Hx Ht Hc.
  set (s2 := {| knowledgeBase := knowledgeBase s; nextId := nextId s;
                blobs := blobs s ∪ {[sid]} |}).
  pose proof (create_ok ctx (Knowledge.upload_args file text sid) s2 org
                Ha Ht Hc) as Hcr.
  eexists _, (created_doc ctx org (Knowledge.upload_args file text sid)).
  split; [|split; [|split; [|split; [|split; [|split; [|split]]]]]].
  8:{ unfold Knowledge.handleUpload. rewrite Hf, Hx.
      unfold run_mutation at 1. unfold generateUploadUrl, bind.
      rewrite (requireOrg_ok ctx org s Ha). unfold storage_generateUploadUrl, ret.
      fold s2. unfold run_mutation. rewrite Hcr. simpl nextId.
      reflexivity. }
  - simpl. apply lookup_row_app_fresh. by apply wf_db_fresh.
  - done.
  - done.
  - done.
  - done.
  - done.
  - simpl. set_solver.
Qed.

(** * Properties of the user-agent parser *)

Ltac split_ifs :=
  repeat match goal with
         | |- context [if ?b then _ else _] => destruct b eqn:?
         end.

(** X22. The device type. A missing or empty user agent gives "Unknown"
    for all three parts. For any other user agent the device type is
    "Mobile", "Tablet" or "Desktop"; it is "Mobile" as soon as the string
    holds "Mobile" or "Android", so an Android tablet is reported as
    "Mobile", and "Tablet" only without those two words. *)
Theorem deviceType_classes (ua : jsstring) :
  UserAgent.parseUserAgent None
  = UserAgent.mkParsed (lit "Unknown") (lit "Unknown") (lit "Unknown") /\
  UserAgent.parseUserAgent (Some [])
  = UserAgent.mkParsed (lit "Unknown") (lit "Unknown") (lit "Unknown") /\
  (ua <> [] ->
   let device := UserAgent.deviceType (UserAgent.parseUserAgent (Some ua)) in
   (device = lit "Mobile" \/ device = lit "Tablet" \/ device = lit "Desktop") /\
   (UserAgent.includes (lit "Android") ua = true -> device = lit "Mobile") /\
   (device = lit "Tablet" ->
    UserAgent.includes (lit "Mobile") ua = false /\
    UserAgent.includes (lit "Android") ua = false)).
Proof.
  split; [reflexivity|]. split; [reflexivity|].
  intros Hne. unfold UserAgent.parseUserAgent.
  destruct ua as [|c ua]; [done|]. simpl falsy. cbv iota.
  cbn [UserAgent.deviceType]. unfold UserAgent.parseDeviceType.
  destruct (UserAgent.includes (lit "Mobile") (c :: ua)),
    (UserAgent.includes (lit "Android") (c :: ua)),
    (UserAgent.includes (lit "Tablet") (c :: ua)),
    (UserAgent.includes (lit "iPad") (c :: ua)); simpl orb; cbv iota;
    (split; [tauto|]); split; try done; by vm_compute.
Qed.

Lemma starts_with_app (p q s : jsstring) :
  UserAgent.starts_with (p ++ q) s <> None -> UserAgent.starts_with p s <> None.
Proof.
  revert s. induction p as [|a p IH]; intros s; simpl; [done|].
  destruct s as [|b s]; [done|]. destruct (a =? b)%N; [apply IH | done].
Qed.

Lemma includes_app (p q s : jsstring) :
  UserAgent.includes (p ++ q) s = true -> UserAgent.includes p s = true.
Proof.
  induction s as [|b s IH]; simpl.
  - destruct (UserAgent.starts_with (p ++ q) []) eqn:H1; [|done].
    intros _. destruct (UserAgent.starts_with p []) eqn:H2; [done|].
    exfalso. apply (starts_with_app p q []); congruence.
  - destruct (UserAgent.starts_with (p ++ q) (b :: s)) eqn:H1.
    + intros _. destruct (UserAgent.starts_with p (b :: s)) eqn:H2; [done|].
      exfalso. apply (starts_with_app p q (b :: s)); congruence.
    + intros H. destruct (UserAgent.starts_with p (b :: s)); [done | auto].
Qed.

Lemma includes_Windows_NT (v u : jsstring) :
  UserAgent.includes (lit "Windows" ++ v) u = true ->
  UserAgent.includes (lit "Windows") u = true.
Proof. apply includes_app. Qed.

Lemma macOS_not_iOS (m : option jsstring) :
  UserAgent.starts_with (lit "iOS") (UserAgent.named (lit "macOS") m) = None.
Proof. destruct m; reflexivity. Qed.

Lemma Android_not_iOS (m : option jsstring) :
  UserAgent.starts_with (lit "iOS") (UserAgent.named (lit "Android") m) = None.
Proof. destruct m; reflexivity. Qed.

Lemma macOS_is_macOS (m : option jsstring) :
  UserAgent.starts_with (lit "macOS") (UserAgent.named (lit "macOS") m) <> None.
Proof. destruct m; by vm_compute. Qed.

(** X23. The operating system is reported as iOS only for a user agent
    that holds "iOS", "iPhone" or "iPad" and none of "Windows",
    "Mac OS X", "Android" and "Linux": those are tested first. A user
    agent that holds "Mac OS X" and not "Windows", as those of iPhones
    and iPads do ("like Mac OS X"), is reported as macOS. *)
Theorem iOS_only_without_mac_os_x (ua : jsstring) :
  ua <> [] ->
  let os := UserAgent.os (UserAgent.parseUserAgent (Some ua)) in
  (UserAgent.starts_with (lit "iOS") os <> None ->
   UserAgent.includes (lit "Windows") ua = false /\
   UserAgent.includes (lit "Mac OS X") ua = false /\
   UserAgent.includes (lit "Android") ua = false /\
   UserAgent.includes (lit "Linux") ua = false /\
   (UserAgent.includes (lit "iOS") ua = true \/
    UserAgent.includes (lit "iPhone") ua = true \/
    UserAgent.includes (lit "iPad") ua = true)) /\
  (UserAgent.includes (lit "Mac OS X") ua = true ->
   UserAgent.includes (lit "Windows") ua = false ->
   UserAgent.starts_with (lit "macOS") os <> None).
Proof.
  intros Hne. unfold UserAgent.parseUserAgent.
  destruct ua as [|c ua]; [done|]. simpl falsy. cbv iota.
  cbn [UserAgent.os]. unfold UserAgent.parseOS.
  set (u := c :: ua). clearbody u. clear Hne c ua.
  assert (HNT : forall v, UserAgent.includes (lit "Windows" ++ v) u = true ->
                          UserAgent.includes (lit "Windows") u = false ->
                          False).
  { intros v Hv Hw. apply includes_app in Hv. congruence. }
  destruct (UserAgent.includes (lit "Windows NT 10.0") u) eqn:W10.
  { split; [intros H; by destruct H|]. intros _ Hw.
    destruct (HNT (lit " NT 10.0") W10 Hw). }
  destruct (UserAgent.includes (lit "Windows NT 6.3") u) eqn:W63.
  { split; [intros H; by destruct H|]. intros _ Hw.
    destruct (HNT (lit " NT 6.3") W63 Hw). }
  destruct (UserAgent.includes (lit "Windows NT 6.2") u) eqn:W62.
  { split; [intros H; by destruct H|]. intros _ Hw.
    destruct (HNT (lit " NT 6.2") W62 Hw). }
  destruct (UserAgent.includes (lit "Windows NT 6.1") u) eqn:W61.
  { split; [intros H; by destruct H|]. intros _ Hw.
    destruct (HNT (lit " NT 6.1") W61 Hw). }
  destruct (UserAgent.includes (lit "Windows") u) eqn:W.
  { split; [intros H; by destruct H | intros; congruence]. }
  destruct (UserAgent.includes (lit "Mac OS X") u) eqn:Mac.
  { split; [|intros _ _; apply macOS_is_macOS].
    intros H. destruct H. apply macOS_not_iOS. }
  destruct (UserAgent.includes (lit "Android") u) eqn:An.
  { split; [|done]. intros H. destruct H. apply Android_not_iOS. }
  destruct (UserAgent.includes (lit "Linux") u) eqn:Li.
  { split; [intros H; by destruct H | done]. }
  destruct (UserAgent.includes (lit "iOS") u
            || UserAgent.includes (lit "iPhone") u
            || UserAgent.includes (lit "iPad") u) eqn:Hi.
  - split; [|done]. intros _. repeat split; try done.
    apply orb_true_iff in Hi as [Hi|Hi]; [|by right; right].
    apply orb_true_iff in Hi as [Hi|Hi]; [by left | by right; left].
  - split; [intros H; by destruct H | done].
Qed.

Lemma span_digits_spec (s d r : jsstring) :
  UserAgent.span_digits s = (d, r) ->
  s = d ++ r /\ Forall (fun c => UserAgent.is_digit c = true) d.
Proof.
  revert d r. induction s as [|c s IH]; simpl; intros d r.
  - intros [= <- <-]. by split.
  - destruct (UserAgent.is_digit c) eqn:Hc.
    + destruct (UserAgent.span_digits s) as [d' r'].
      intros [= <- <-]. destruct (IH d' r' eq_refl) as [-> Hd].
      split; [done | by constructor].
    + intros [= <- <-]. by split.
Qed.

Lemma version_at_spec (sep : code_unit -> bool) (s v : jsstring) :
  UserAgent.version_at sep s = Some v ->
  exists d1 c d2 rest,
    v = d1 ++ c :: d2 /\ s = v ++ rest /\ sep c = true /\
    is_number d1 /\ is_number d2.
Proof.
  unfold UserAgent.version_at.
  destruct (UserAgent.span_digits s) as [d1 r] eqn:H1.
  apply span_digits_spec in H1 as [-> Hd1].
  destruct d1 as [|a d1]; [discriminate|].
  destruct r as [|c r]; [discriminate|].
  destruct (sep c) eqn:Hc; [|discriminate].
  destruct (UserAgent.span_digits r) as [d2 r2] eqn:H2.
  apply span_digits_spec in H2 as [-> Hd2].
  destruct d2 as [|b d2]; [discriminate|].
  intros [= <-]. exists (a :: d1), c, (b :: d2), r2.
  split; [done|]. split; [simpl; by rewrite <- app_assoc|]. by repeat split.
Qed.

Lemma version_opt_at_spec (s v : jsstring) :
  UserAgent.version_opt_at s = Some v -> is_number v \/ is_version v.
Proof.
  unfold UserAgent.version_opt_at.
  destruct (UserAgent.span_digits s) as [d1 r] eqn:H1.
  apply span_digits_spec in H1 as [-> Hd1].
  destruct d1 as [|a d1]; [discriminate|].
  destruct r as [|c r]; [intros [= <-]; by left|].
  destruct (N.eqb_spec c 0x2E) as [->|Hc]; [|intros [= <-]; by left].
  destruct (UserAgent.span_digits r) as [d2 r2] eqn:H2.
  apply span_digits_spec in H2 as [-> Hd2].
  destruct d2 as [|b d2]; intros [= <-]; [by left|].
  right. exists (a :: d1), (b :: d2). by repeat split.
Qed.

Lemma match_after_capture (prefix : jsstring)
  (capture : jsstring -> option jsstring) (s v : jsstring) :
  UserAgent.match_after prefix capture s = Some v ->
  exists r, capture r = Some v.
Proof.
  induction s as [|c s IH]; simpl.
  - destruct (UserAgent.starts_with prefix []) as [r|]; [|discriminate].
    destruct (capture r) eqn:Hr; [|discriminate]. intros [= <-]. by exists r.
  - destruct (UserAgent.starts_with prefix (c :: s)) as [r|]; [|exact IH].
    destruct (capture r) eqn:Hr; [|exact IH]. intros [= <-]. by exists r.
Qed.

Lemma digit_not_underscore (c : code_unit) :
  UserAgent.is_digit c = true -> UserAgent.is_underscore c = false.
Proof.
  unfold UserAgent.is_digit, UserAgent.is_underscore.
  intros [H1 H2]%andb_true_iff. apply N.leb_le in H1, H2.
  apply N.eqb_neq. lia.
Qed.

Lemma underscores_to_dots_digits (d : jsstring) :
  Forall (fun c => UserAgent.is_digit c = true) d ->
  UserAgent.underscores_to_dots d = d.
Proof.
  unfold UserAgent.underscores_to_dots.
  induction 1 as [|c d Hc _ IH]; simpl; [done|].
  by rewrite (digit_not_underscore c Hc), IH.
Qed.

Lemma dotted_version (sep : code_unit -> bool) (s v : jsstring) :
  (forall c, sep c = true -> c = 0x2E%N \/ c = 0x5F%N) ->
  UserAgent.match_after s (UserAgent.version_at sep) v = None \/
  exists w, UserAgent.match_after s (UserAgent.version_at sep) v = Some w /\
            is_version (UserAgent.underscores_to_dots w).
Proof.
  intros Hsep.
  destruct (UserAgent.match_after s (UserAgent.version_at sep) v) as [w|] eqn:Hm;
    [|by left].
  right. exists w. split; [done|].
  apply match_after_capture in Hm as [r Hr].
  apply version_at_spec in Hr as (d1 & c & d2 & rest & -> & _ & Hc & H1 & H2).
  exists d1, d2. split; [|done].
  assert (Hd1' := proj2 H1). assert (Hd2' := proj2 H2).
  unfold UserAgent.underscores_to_dots. rewrite map_app. simpl.
  fold (UserAgent.underscores_to_dots d1) (UserAgent.underscores_to_dots d2).
  destruct H1 as [? Hd1], H2 as [? Hd2].
  rewrite (underscores_to_dots_digits d1 Hd1),
    (underscores_to_dots_digits d2 Hd2).
  destruct (Hsep c Hc) as [-> | ->]; reflexivity.
Qed.

Lemma dot_version (prefix ua w : jsstring) :
  UserAgent.match_after prefix (UserAgent.version_at UserAgent.is_dot) ua
  = Some w ->
  is_version w.
Proof.
  intros Hm. apply match_after_capture in Hm as [r Hr].
  apply version_at_spec in Hr as (d1 & c & d2 & rest & -> & _ & Hc & H1 & H2).
  apply N.eqb_eq in Hc as ->. by exists d1, d2.
Qed.

Lemma named_browser (name prefix ua : jsstring) :
  let b := UserAgent.named name
             (UserAgent.match_after prefix
                (UserAgent.version_at UserAgent.is_dot) ua) in
  b = name \/ exists v, is_version v /\ b = name ++ lit " " ++ v.
Proof.
  simpl. destruct (UserAgent.match_after _ _ ua) as [w|] eqn:Hm; [|by left].
  right. exists w. split; [by apply dot_version in Hm | done].
Qed.

(** X24. The format of what the parser reports, for any user agent that
    is not empty. The browser is one of "Firefox", "Edge", "Chrome" and
    "Safari", alone or followed by a space and a version (digits, a dot,
    digits), or "Internet Explorer" or "Unknown". The operating system
    is one of ten fixed names, or "macOS" or "iOS" followed by a space and
    a version in which the underscores of the user agent have become
    dots, or "Android" followed by a space and a number or a version. *)
Theorem parsed_format (ua : jsstring) :
  ua <> [] ->
  let p := UserAgent.parseUserAgent (Some ua) in
  (UserAgent.browser p = lit "Internet Explorer" \/
   UserAgent.browser p = lit "Unknown" \/
   exists name,
     name ∈ [lit "Firefox"; lit "Edge"; lit "Chrome"; lit "Safari"] /\
     (UserAgent.browser p = name \/
      exists v, is_version v /\
                UserAgent.browser p = name ++ lit " " ++ v)) /\
  (UserAgent.os p ∈ [lit "Windows 10/11"; lit "Windows 8.1"; lit "Windows 8";
                     lit "Windows 7"; lit "Windows"; lit "macOS";
                     lit "Android"; lit "Linux"; lit "iOS"; lit "Unknown"] \/
   (exists v, is_version v /\
              (UserAgent.os p = lit "macOS" ++ lit " " ++ v \/
               UserAgent.os p = lit "iOS" ++ lit " " ++ v)) \/
   (exists v, (is_number v \/ is_version v) /\
              UserAgent.os p = lit "Android" ++ lit " " ++ v)).
Proof.
  intros Hne. unfold UserAgent.parseUserAgent.
  destruct ua as [|c ua]; [done|]. simpl falsy. cbv iota.
  cbn [UserAgent.os UserAgent.browser].
  set (u := c :: ua). clearbody u. clear Hne c ua. split.
  - unfold UserAgent.parseBrowser.
    destruct (UserAgent.includes (lit "Firefox") u
              && negb (UserAgent.includes (lit "Seamonkey") u)).
    { right; right. exists (lit "Firefox").
      split; [set_solver | apply named_browser]. }
    destruct (UserAgent.includes (lit "Edg/") u).
    { right; right. exists (lit "Edge").
      split; [set_solver | apply named_browser]. }
    destruct (UserAgent.includes (lit "Chrome") u
              && negb (UserAgent.includes (lit "Edg") u)).
    { right; right. exists (lit "Chrome").
      split; [set_solver | apply named_browser]. }
    destruct (UserAgent.includes (lit "Safari") u
              && negb (UserAgent.includes (lit "Chrome") u)).
    { right; right. exists (lit "Safari").
      split; [set_solver | apply named_browser]. }
    destruct (UserAgent.includes (lit "MSIE") u
              || UserAgent.includes (lit "Trident/") u).
    { by left. }
    right. by left.
  - unfold UserAgent.parseOS.
    destruct (UserAgent.includes (lit "Windows NT 10.0") u); [left; set_solver|].
    destruct (UserAgent.includes (lit "Windows NT 6.3") u); [left; set_solver|].
    destruct (UserAgent.includes (lit "Windows NT 6.2") u); [left; set_solver|].
    destruct (UserAgent.includes (lit "Windows NT 6.1") u); [left; set_solver|].
    destruct (UserAgent.includes (lit "Windows") u); [left; set_solver|].
    destruct (UserAgent.includes (lit "Mac OS X") u).
    { destruct (dotted_version UserAgent.is_dot_or_underscore
                  (lit "Mac OS X ") u) as [Hn|(w & Hw & Hv)].
      - intros x [Hx|Hx]%orb_true_iff; apply N.eqb_eq in Hx; auto.
      - rewrite Hn. left. set_solver.
      - rewrite Hw. right. left. eexists. split; [exact Hv | by left]. }
    destruct (UserAgent.includes (lit "Android") u).
    { destruct (UserAgent.match_after (lit "Android ")
                  UserAgent.version_opt_at u) as [w|] eqn:Hm;
        [|left; set_solver].
      right. right. exists w. split; [|done].
      apply match_after_capture in Hm as [r Hr].
      by apply version_opt_at_spec in Hr. }
    destruct (UserAgent.includes (lit "Linux") u); [left; set_solver|].
    destruct (UserAgent.includes (lit "iOS") u
              || UserAgent.includes (lit "iPhone") u
              || UserAgent.includes (lit "iPad") u); [|left; set_solver].
    destruct (dotted_version UserAgent.is_underscore (lit "OS ") u)
      as [Hn|(w & Hw & Hv)].
    + intros x Hx. apply N.eqb_eq in Hx. auto.
    + rewrite Hn. left. set_solver.
    + rewrite Hw. right. left. eexists. split; [exact Hv | by right].
Qed.

(** * Properties of the integrations hook and of the public secrets *)

Section HookFacts.
Context {Integration Plugin : Type}.
Variable integration_id : Integration -> jsstring.
Variable AVAILABLE_INTEGRATIONS : list Integration.
Variable filterIntegrationsByCategory : jsstring -> list Integration.
Variable searchIntegrations : jsstring -> list Integration.

Abbreviation filtered :=
  (Integrations.filteredIntegrations Integration integration_id
     AVAILABLE_INTEGRATIONS filterIntegrationsByCategory searchIntegrations
     Plugin).

(** X25. In the integrations hook the search replaces the category
    filter instead of refining it: with a search query that is not blank,
    the list shown is the same whatever category is selected. Without
    active filters, and so after [resetFilters], the whole catalogue is
    shown. *)
Theorem search_overrides_category (f : Integrations.Filters)
  (vapiPlugin : Integrations.QueryResult Plugin) :
  (blank (Integrations.searchQuery f) = false ->
   forall category,
     filtered (Integrations.mkFilters category (Integrations.searchQuery f)
                 (Integrations.showConnectedOnly f)) vapiPlugin
     = filtered f vapiPlugin) /\
  (Integrations.hasActiveFilters f = false ->
   filtered f vapiPlugin = AVAILABLE_INTEGRATIONS) /\
  Integrations.hasActiveFilters Integrations.resetFilters = false /\
  filtered Integrations.resetFilters vapiPlugin = AVAILABLE_INTEGRATIONS.
Proof using Type.
  unfold Integrations.filteredIntegrations, Integrations.hasActiveFilters.
  split; [|split; [|split]].
  - intros Hb category. simpl. by rewrite Hb.
  - intros [[H1 H2]%orb_false_iff H3]%orb_false_iff.
    rewrite H1, H3.
    apply negb_false_iff, eqb_true in H2.
    assert (Hbl : blank (Integrations.searchQuery f) = true)
      by (unfold blank; by rewrite H2).
    by rewrite Hbl.
  - reflexivity.
  - reflexivity.
Qed.

(** X26. With "connected only" switched on, the hook shows nothing but
    the Vapi integration, and only when the Vapi plugin has been loaded
    and exists: every integration shown has the id "vapi". While the
    plugin is loading, or when there is none, the list is empty. At most
    one integration is ever counted as connected. *)
Theorem connected_only_shows_vapi (f : Integrations.Filters)
  (vapiPlugin : Integrations.QueryResult Plugin)
  (integration_status : Integration -> jsstring) :
  Integrations.showConnectedOnly f = true ->
  (forall i, i ∈ filtered f vapiPlugin ->
             integration_id i = lit "vapi" /\
             exists plugin, vapiPlugin = Integrations.Loaded (Some plugin)) /\
  ((forall plugin, vapiPlugin <> Integrations.Loaded (Some plugin)) ->
   filtered f vapiPlugin = []) /\
  Integrations.connected
    (Integrations.stats Integration integration_status AVAILABLE_INTEGRATIONS
       Plugin vapiPlugin) <= 1.
Proof using Type.
  intros Hs. unfold Integrations.filteredIntegrations. rewrite Hs.
  split; [|split].
  - intros i Hi. apply list_elem_of_In, filter_In in Hi as [_ Hi].
    unfold Integrations.has, Integrations.connectedIntegrations in Hi.
    destruct vapiPlugin as [|[plugin|]]; simpl in Hi; try done.
    rewrite orb_false_r in Hi. apply eqb_true in Hi.
    split; [done | by exists plugin].
  - intros Hno. unfold Integrations.connectedIntegrations.
    destruct vapiPlugin as [|[plugin|]]; [| by destruct (Hno plugin) |].
    + simpl. generalize (if negb (blank (Integrations.searchQuery f))
                         then searchIntegrations (Integrations.searchQuery f)
                         else if negb (eqb (Integrations.selectedCategory f)
                                         (lit "all"))
                              then filterIntegrationsByCategory
                                     (Integrations.selectedCategory f)
                              else AVAILABLE_INTEGRATIONS).
      intros l. by induction l.
    + simpl. generalize (if negb (blank (Integrations.searchQuery f))
                         then searchIntegrations (Integrations.searchQuery f)
                         else if negb (eqb (Integrations.selectedCategory f)
                                         (lit "all"))
                              then filterIntegrationsByCategory
                                     (Integrations.selectedCategory f)
                              else AVAILABLE_INTEGRATIONS).
      intros l. by induction l.
  - unfold Integrations.stats, Integrations.connectedIntegrations. simpl.
    destruct vapiPlugin as [|[plugin|]]; simpl; lia.
Qed.
End HookFacts.

Section SecretFacts.
Context {Plugin Secret : Type}.
Variable secretName : Plugin -> jsstring.
Variable getByOrganizationIdAndService :
  jsstring -> jsstring -> Outcome (option Plugin).
Variable getSecretValue : jsstring -> option Secret.
Variable parseSecretString : Secret -> option Secrets.VapiSecretData.

Abbreviation getVapiSecrets :=
  (Secrets.getVapiSecrets Plugin secretName getByOrganizationIdAndService
     Secret getSecretValue parseSecretString).
Abbreviation checkVapiConfigured :=
  (Secrets.checkVapiConfigured Plugin getByOrganizationIdAndService).

(** X27. What [getVapiSecrets] hands to the widget. A returned key is
    never empty and is the [publicApiKey] field of the secret named by
    the Vapi plugin of the organization asked for; the answer depends on
    the parsed secret through that field only, so the [privateApiKey]
    has no influence on it. Whenever a key is returned
    [checkVapiConfigured] answers true, and whenever
    [checkVapiConfigured] answers false no key is returned; an empty
    organization id gives null and false. *)
Theorem getVapiSecrets_returns_public_key (organizationId : jsstring) :
  (forall r, getVapiSecrets organizationId = Ok (Some r) ->
             Secrets.publicKey r <> [] /\
             checkVapiConfigured organizationId = Ok true /\
             exists plugin secret data,
               getByOrganizationIdAndService organizationId (lit "vapi")
               = Ok (Some plugin) /\
               getSecretValue (secretName plugin) = Some secret /\
               parseSecretString secret = Some data /\
               Secrets.publicApiKey data = Some (Secrets.publicKey r)) /\
  (forall parse',
      (forall secret, option_map Secrets.publicApiKey (parse' secret)
                      = option_map Secrets.publicApiKey
                          (parseSecretString secret)) ->
      Secrets.getVapiSecrets Plugin secretName getByOrganizationIdAndService
        Secret getSecretValue parse' organizationId
      = getVapiSecrets organizationId) /\
  (checkVapiConfigured organizationId = Ok false ->
   getVapiSecrets organizationId = Ok None) /\
  (organizationId = [] ->
   getVapiSecrets organizationId = Ok None /\
   checkVapiConfigured organizationId = Ok false).
Proof using Type.
  unfold Secrets.getVapiSecrets, Secrets.checkVapiConfigured.
  split; [|split; [|split]].
  2:{ intros parse' Hp. destruct (falsy organizationId); [done|].
      destruct (getByOrganizationIdAndService organizationId (lit "vapi"))
        as [[plugin|]|e]; try done.
      destruct (getSecretValue (secretName plugin)) as [secret|]; [|done].
      specialize (Hp secret).
      destruct (parse' secret) as [d'|], (parseSecretString secret) as [d|];
        simpl in Hp; try done.
      injection Hp as Hp. by rewrite Hp. }
  - intros r. destruct (falsy organizationId); [discriminate|].
    destruct (getByOrganizationIdAndService organizationId (lit "vapi"))
      as [[plugin|]|e]; try discriminate.
    destruct (getSecretValue (secretName plugin)) as [secret|] eqn:Hs;
      [|discriminate].
    destruct (parseSecretString secret) as [data|] eqn:Hp; [|discriminate].
    destruct (Secrets.publicApiKey data) as [key|] eqn:Hk; [|discriminate].
    destruct key as [|c key]; [discriminate|]. simpl.
    intros [= <-]. simpl. split; [done|]. split; [done|].
    by exists plugin, secret, data.
  - destruct (falsy organizationId); [done|].
    by destruct (getByOrganizationIdAndService organizationId (lit "vapi"))
      as [[plugin|]|e].
  - by intros ->.
Qed.
End SecretFacts.

(** * Worked instances of the further properties *)

Section FurtherInstances.
Import Sample Sample2.

Ltac signed_in org := exists {| orgId := Some org |}; by repeat split.

Lemma db0_wf : wf_db db0.
Proof. split; compute_done. Qed.

Lemma create_then_getOne_witness :
  exists id s',
    create ctx_a faq db0 = (Ok id, s') /\
    getOne ctx_a id s' = (Ok (created_doc ctx_a org_a faq), s').
Proof.
  destruct (create_then_getOne ctx_a faq db0 org_a)
    as (id & s' & Hc & _ & Hg & _).
  - signed_in org_a.
  - reflexivity.
  - reflexivity.
  - split; compute_done.
  - by exists id, s'.
Defined.

Lemma mutations_keep_ids_distinct_witness :
  wf_db (snd (remove ctx_a 1%N db0)).
Proof.
  destruct (mutations_keep_ids_distinct ctx_a db0 faq
              (mkUpdateArgs 1%N None None) 1%N) as (_ & _ & Hr).
  - split; compute_done.
  - exact Hr.
Defined.

Lemma missing_document_not_found_witness :
  getOne ctx_a 99%N db0 = (Throw not_found, db0) /\
  update ctx_a (mkUpdateArgs 99%N (Some []) None) db0 = (Throw not_found, db0).
Proof.
  destruct (missing_document_not_found ctx_a db0 org_a 99%N) as (Hg & Hu & _).
  - signed_in org_a.
  - reflexivity.
  - split; [exact Hg | apply Hu].
Defined.

Lemma remove_then_not_found_witness :
  remove ctx_a 1%N (snd (remove ctx_a 1%N db0))
  = (Throw not_found, snd (remove ctx_a 1%N db0)).
Proof.
  destruct (remove_then_not_found ctx_a db0 (snd (remove ctx_a 1%N db0))
              1%N true) as (_ & _ & Hr & _).
  - reflexivity.
  - exact Hr.
Defined.

Lemma anonymous_rejected_witness :
  exists e, getAll ctx_anon db0 = (Throw e, db0) /\ unauthorized e.
Proof.
  destruct (anonymous_rejected ctx_anon db0) as (Hall & _).
  - intros org (i & Hi & _). discriminate Hi.
  - exact Hall.
Defined.

(** The member of [org_a] is refused the document of [org_b], and gets
    the URL of its blob. *)
Lemma getFileUrl_unguarded_witness :
  getOne ctx_a 3%N db0 = (Throw access_denied, db0) /\
  getFileUrl url_of ctx_a 9%N db0 = (Ok (Some (url_of 9%N)), db0) /\
  getFileUrl url_of ctx_anon 9%N db0 = (Ok (Some (url_of 9%N)), db0).
Proof.
  destruct (getFileUrl_unguarded url_of ctx_a db0 org_a 3%N refunds_b 9%N)
    as (Hg & Hu & Hany).
  - signed_in org_a.
  - reflexivity.
  - compute_done.
  - reflexivity.
  - compute_done.
  - split; [exact Hg|]. split; [exact Hu | apply Hany].
Defined.

Lemma listing_unaffected_by_other_tenant_witness :
  fst (getAll ctx_b (snd (remove ctx_a 1%N db0))) = fst (getAll ctx_b db0).
Proof.
  destruct (listing_unaffected_by_other_tenant ctx_a ctx_b org_a org_b db0
              faq (mkUpdateArgs 1%N None None) 1%N) as (_ & _ & Hr).
  - signed_in org_a.
  - signed_in org_b.
  - compute_done.
  - compute_done.
  - exact Hr.
Defined.

Lemma no_fallback_after_rejection_witness :
  Adapter.embed
    (Adapter.mkProvider (Some picky)
       (Some (fun xs => inr (Adapter.JArr (map (fun _ => Adapter.vec []) xs)))))
    []
  = Adapter.Rejected (Adapter.ProviderRejected "empty input").
Proof.
  destruct (no_fallback_after_rejection
              (Adapter.mkProvider (Some picky)
                 (Some (fun xs =>
                          inr (Adapter.JArr (map (fun _ => Adapter.vec []) xs)))))
              [] [] "empty input") as [He _].
  by apply (He picky).
Defined.

Lemma fan_out_all_or_nothing_witness :
  (exists err,
      Adapter.embedMany (Adapter.mkProvider (Some picky) None) [lit "a"; []]
      = Adapter.Rejected err) /\
  Adapter.embedMany (Adapter.mkProvider (Some picky) None) []
  = Adapter.Fulfilled (Adapter.JArr []).
Proof.
  destruct (fan_out_all_or_nothing picky [lit "a"; []]) as (_ & _ & _ & Hr & _).
  destruct (fan_out_all_or_nothing picky []) as (_ & _ & He & _).
  split; [|by apply He].
  apply Hr. exists [], "empty input"%string. split; [|reflexivity].
  right. left.
Defined.

Lemma embed_takes_first_of_batch_witness :
  Adapter.embed (Adapter.mkProvider None (Some (fun _ => inr (Adapter.JArr []))))
    (lit "a")
  = Adapter.Fulfilled Adapter.JUndefined.
Proof.
  destruct (embed_takes_first_of_batch (fun _ => inr (Adapter.JArr []))
              (lit "a")) as (He & _).
  by apply He.
Defined.

(** The suggestions "Pricing", "" and none: only the first is returned. *)
Lemma getSuggestions_nonempty_of_row_witness :
  Widget.getSuggestions org_a [settings_a] = Ok [lit "Pricing"] /\
  length [lit "Pricing"] <= 3.
Proof.
  split; [reflexivity|].
  destruct (getSuggestions_nonempty_of_row org_a [settings_a] [lit "Pricing"])
    as (Hl & _).
  - reflexivity.
  - exact Hl.
Defined.

(** The stored greeting of [org_a] is empty: the default is returned. *)
Lemma getGreeting_never_empty_witness :
  Widget.getGreeting org_a [settings_a] = Ok Widget.default_greeting /\
  Widget.default_greeting <> [].
Proof.
  split; [reflexivity|].
  destruct (getGreeting_never_empty org_a [settings_a] Widget.default_greeting)
    as (Hne & _).
  - reflexivity.
  - exact Hne.
Defined.

Lemma update_errors_witness :
  exists d, lookup_row 3%N (knowledgeBase db0) = Some d /\
            ~ authenticated ctx_a (organizationId d).
Proof.
  destruct (update_errors ctx_a (mkUpdateArgs 3%N (Some []) None) db0 db0
              access_denied) as [[H _]|[[H _]|[[_ H]|[H _]]]].
  - reflexivity.
  - discriminate H.
  - discriminate H.
  - exact H.
  - discriminate H.
Defined.

Lemma remove_extension_spec_witness :
  Knowledge.remove_extension (lit "manual.v2.pdf") = lit "manual.v2" /\
  Knowledge.remove_extension (lit ".txt") = [] /\
  Knowledge.remove_extension (lit "README") = lit "README".
Proof.
  split; [|split].
  - destruct (remove_extension_spec (lit "manual.v2.pdf")) as [H _].
    apply (H (lit "manual.v2") (lit "pdf")); [reflexivity|].
    split; [discriminate | by repeat constructor].
  - destruct (remove_extension_spec (lit ".txt")) as [H _].
    apply (H [] (lit "txt")); [reflexivity|].
    split; [discriminate | by repeat constructor].
  - destruct (remove_extension_spec (lit "README")) as [_ H].
    apply H. intros pre ext Heq _.
    assert (Hin : 0x2E%N ∈ lit "README")
      by (rewrite Heq; apply elem_of_app; right; left).
    revert Hin. compute_done.
Defined.

Lemma handleFileSelect_matches_schema_witness :
  Knowledge.handleFileSelect (Some manual_pdf) None = (Some manual_pdf, []) /\
  exists message,
    Knowledge.handleFileSelect (Some movie) (Some manual_pdf)
    = (Some manual_pdf, [Knowledge.ToastError message]).
Proof.
  split.
  - destruct (handleFileSelect_matches_schema manual_pdf None) as (H & _).
    by apply H.
  - destruct (handleFileSelect_matches_schema movie (Some manual_pdf))
      as (_ & _ & H).
    by apply H.
Defined.

Lemma update_schema_weaker_than_backend_witness :
  Knowledge.documentUpdateSchema (lit "  ") None = true /\
  exists e, update ctx_a (mkUpdateArgs 1%N (Some (lit "  ")) None) db0
            = (Throw e, db0).
Proof.
  destruct (update_schema_weaker_than_backend (lit "  ") None) as [_ H].
  destruct H as [Hs Hu].
  - by repeat constructor.
  - simpl. lia.
  - split; [exact Hs | apply Hu].
Defined.

(** The shipping document is renamed to " Delivery ", spaces included. *)
Lemma handleRename_sends_no_blank_title_witness :
  exists ui' s' d',
    Knowledge.handleRename ctx_a rename_ui db0
    = (ui', [Knowledge.ToastSuccess "Document renamed successfully"], s') /\
    lookup_row 2%N (knowledgeBase s') = Some d' /\
    title d' = lit " Delivery ".
Proof.
  destruct (handleRename_sends_no_blank_title ctx_a rename_ui db0)
    as (_ & _ & H).
  destruct (H 2%N shipping) as (ui' & s' & d' & Hr & Hl & Ht & _).
  - reflexivity.
  - reflexivity.
  - split; [signed_in org_a | reflexivity].
  - by exists ui', s', d'.
Defined.

(** The file [.txt] is stored as blob 11 and no document is created. *)
Lemma handleUpload_blank_leaves_orphan_witness :
  exists e,
    bad_request e /\
    Knowledge.handleUpload no_embedding (lit "https://upload.example")
      (Knowledge.PostStored 11%N) ctx_a
      (Knowledge.mkUploadState (Some dot_txt) false 0) db0
    = (Knowledge.mkUploadState (Some dot_txt) false 70,
       [Knowledge.ToastCaught e "Failed to upload document"],
       {| knowledgeBase := knowledgeBase db0;
          nextId := nextId db0;
          blobs := blobs db0 ∪ {[11%N]} |}).
Proof.
  apply (handleUpload_blank_leaves_orphan no_embedding
           (lit "https://upload.example") 11%N ctx_a org_a
           (Knowledge.mkUploadState (Some dot_txt) false 0) db0 dot_txt
           (lit "hello world!")).
  - signed_in org_a.
  - reflexivity.
  - reflexivity.
  - left. reflexivity.
Defined.

Lemma handleUpload_creates_before_embedding_witness :
  exists s3 d,
    lookup_row 4%N (knowledgeBase s3) = Some d /\
    title d = lit "manual.v2" /\
    content d = Knowledge.placeholder /\
    storageId d = Some 11%N.
Proof.
  destruct (handleUpload_creates_before_embedding no_embedding
              (lit "https://upload.example") 11%N ctx_a org_a
              (Knowledge.mkUploadState (Some manual_pdf) false 0) db0
              manual_pdf Knowledge.placeholder)
    as (s3 & d & Hl & _ & Ht & Hc & Hs & _).
  - signed_in org_a.
  - split; compute_done.
  - reflexivity.
  - reflexivity.
  - reflexivity.
  - reflexivity.
  - exists s3, d. split; [exact Hl|]. split; [|by split].
    rewrite Ht. reflexivity.
Defined.

Lemma deviceType_classes_witness :
  UserAgent.deviceType (UserAgent.parseUserAgent (Some android_tablet))
  = lit "Mobile".
Proof.
  destruct (deviceType_classes android_tablet) as (_ & _ & H).
  destruct H as (_ & Ha & _).
  - discriminate.
  - apply Ha. reflexivity.
Defined.

(** An iPhone is reported as macOS. *)
Lemma iOS_only_without_mac_os_x_witness :
  UserAgent.starts_with (lit "macOS")
    (UserAgent.os (UserAgent.parseUserAgent (Some iphone))) <> None.
Proof.
  destruct (iOS_only_without_mac_os_x iphone) as [_ H].
  - discriminate.
  - apply H; reflexivity.
Defined.

Lemma parsed_format_witness :
  UserAgent.browser (UserAgent.parseUserAgent (Some iphone))
  = lit "Internet Explorer" \/
  UserAgent.browser (UserAgent.parseUserAgent (Some iphone)) = lit "Unknown" \/
  exists name,
    name ∈ [lit "Firefox"; lit "Edge"; lit "Chrome"; lit "Safari"] /\
    (UserAgent.browser (UserAgent.parseUserAgent (Some iphone)) = name \/
     exists v, is_version v /\
               UserAgent.browser (UserAgent.parseUserAgent (Some iphone))
               = name ++ lit " " ++ v).
Proof.
  destruct (parsed_format iphone) as [H _].
  - discriminate.
  - exact H.
Defined.

(** A search for "sla" shows the same list under every category. *)
Lemma search_overrides_category_witness :
  Integrations.filteredIntegrations jsstring (fun i => i) catalogue
    by_category by_search unit
    (Integrations.mkFilters (lit "voice") (lit "sla") false)
    (Integrations.Loaded None)
  = Integrations.filteredIntegrations jsstring (fun i => i) catalogue
      by_category by_search unit
      (Integrations.mkFilters (lit "all") (lit "sla") false)
      (Integrations.Loaded None).
Proof.
  destruct (search_overrides_category (fun i => i) catalogue by_category
              by_search
              (Integrations.mkFilters (lit "all") (lit "sla") false)
              (Integrations.Loaded (None : option unit))) as [H _].
  apply (H eq_refl (lit "voice")).
Defined.

Lemma connected_only_shows_vapi_witness :
  Integrations.filteredIntegrations jsstring (fun i => i) catalogue
    by_category by_search unit
    (Integrations.mkFilters (lit "all") [] true) Integrations.Loading
  = [].
Proof.
  destruct (connected_only_shows_vapi (fun i => i) catalogue by_category
              by_search (Integrations.mkFilters (lit "all") [] true)
              (Integrations.Loading : Integrations.QueryResult unit)
              (fun i => i)) as (_ & H & _).
  - reflexivity.
  - apply H. intros plugin Hp. discriminate Hp.
Defined.

Lemma getVapiSecrets_returns_public_key_witness :
  Secrets.getVapiSecrets jsstring (fun p => p) plugin_of jsstring
    (fun name => Some name) secret_of org_a
  = Ok (Some (Secrets.mkPublicSecrets (lit "pk_public"))) /\
  Secrets.checkVapiConfigured jsstring plugin_of org_a = Ok true.
Proof.
  split; [reflexivity|].
  destruct (getVapiSecrets_returns_public_key (fun p => p) plugin_of
              (fun name => Some name) secret_of org_a) as (H & _).
  destruct (H (Secrets.mkPublicSecrets (lit "pk_public"))) as (_ & Hc & _).
  - reflexivity.
  - exact Hc.
Defined.
End FurtherInstances.
